(** * hit-em-with-the-docs: domain / tier classification and link analysis

    A shallow embedding of the classification and link-graph core of the
    documentation tool:

    - [src/core/domains/constants.ts] and [detector.ts]  (domain registry,
      [detectDomainFromPath], [detectDomainFromContent], [detectDomain]);
    - [src/core/domains/classifier.ts]                   ([classifyTier]);
    - [src/utils/markdown.ts]                            ([extractLinks]);
    - [src/core/links/checker.ts]                        ([checkLinks]);
    - [src/core/links/tracker.ts]     ([buildLinkGraph], [findOrphanFiles]);
    - [src/core/discover/dependencies.ts]  ([detectCircularDependencies]).

    Modelling conventions.
    - Documents and paths are ASCII text, held in [string].
    - JavaScript numbers that hold counts are [nat]; confidences are exact
      rationals ([Q]), so IEEE-754 rounding is not part of the model.
    - A JavaScript [Map] is an insertion-ordered association list
      ([JsMap]); a [Set] that is only queried is a [gset].
    - [RegExp] is a small backtracking matcher with JavaScript's priorities
      (leftmost match, greedy quantifiers, ordered alternatives).
    - Node's [path] module and the file system are interfaces
      ([NodePath], [FileSystem]); [Posix] gives the POSIX instance used to
      run the code on concrete corpora.
    - A rejected promise is [None]; logging has no effect on results and is
      left out. *)

From Stdlib Require Import String Ascii List ZArith QArith Qminmax Lia Lqa Bool Permutation Sorted.
From stdpp Require Import base decidable option list gmap strings sorting.
Import ListNotations.
Local Open Scope string_scope.
Local Open Scope list_scope.
Local Open Scope nat_scope.

(* ===================================================================== *)
(** * JavaScript strings                                                  *)
(* ===================================================================== *)

Module JsString.

Definition isUpper (c : ascii) : bool :=
  let n := nat_of_ascii c in (65 <=? n) && (n <=? 90).
Definition isLower (c : ascii) : bool :=
  let n := nat_of_ascii c in (97 <=? n) && (n <=? 122).
Definition isDigit (c : ascii) : bool :=
  let n := nat_of_ascii c in (48 <=? n) && (n <=? 57).

Definition lowerChar (c : ascii) : ascii :=
  if isUpper c then ascii_of_nat (nat_of_ascii c + 32) else c.
Definition upperChar (c : ascii) : ascii :=
  if isLower c then ascii_of_nat (nat_of_ascii c - 32) else c.

(** [s.toLowerCase()] *)
Fixpoint toLowerCase (s : string) : string :=
  match s with
  | EmptyString => EmptyString
  | String c s' => String (lowerChar c) (toLowerCase s')
  end.

(** [s.split(sep)] for a one-character separator: never empty. *)
Fixpoint split (sep : ascii) (s : string) : list string :=
  match s with
  | EmptyString => [EmptyString]
  | String c s' =>
      if Ascii.eqb c sep then EmptyString :: split sep s'
      else match split sep s' with
           | [] => [String c EmptyString]
           | h :: t => String c h :: t
           end
  end.

(** [parts.join(sep)] *)
Fixpoint joinWith (sep : string) (parts : list string) : string :=
  match parts with
  | [] => EmptyString
  | [p] => p
  | p :: ps => p +:+ sep +:+ joinWith sep ps
  end.

(** [s.replace(/\\/g, '/')] *)
Fixpoint backslashToSlash (s : string) : string :=
  match s with
  | EmptyString => EmptyString
  | String c s' =>
      String (if Ascii.eqb c "\"%char then "/"%char else c) (backslashToSlash s')
  end.

(** [s.startsWith(p)] *)
Definition startsWith (p s : string) : bool := String.prefix p s.

(** [s.endsWith(p)] *)
Definition endsWith (p s : string) : bool :=
  let n := String.length s in
  let m := String.length p in
  (m <=? n) && String.eqb (String.substring (n - m) m s) p.

(** [s.includes(p)] *)
Fixpoint includes (p s : string) : bool :=
  String.prefix p s ||
  match s with
  | EmptyString => false
  | String _ s' => includes p s'
  end.

(** [s.slice(n)] *)
Definition sliceFrom (n : nat) (s : string) : string :=
  String.substring n (String.length s - n) s.

(** Truthiness of a string: non-empty. *)
Definition truthy (s : string) : bool :=
  match s with EmptyString => false | _ => true end.

(** [parts.pop() ?? ''] *)
Definition lastOr (d : string) (parts : list string) : string := List.last parts d.

End JsString.

(* ===================================================================== *)
(** * JavaScript regular expressions                                      *)
(* ===================================================================== *)

Module RegExp.
Import JsString.

Inductive regex : Type :=
| Empty                          (* matches the empty string *)
| Lit (c : ascii)                (* a literal character *)
| Class (p : ascii -> bool)      (* a character class or class escape *)
| Cat (r1 r2 : regex)
| Alt (r1 r2 : regex)            (* r1|r2, r1 tried first *)
| Star (r : regex)               (* r*, greedy *)
| Group (n : nat) (r : regex)    (* capture group number n *)
| Bol                            (* ^ *)
| Eol                            (* $ *)
| WordB.                         (* \b *)

Record flags := { ignoreCase : bool; multiline : bool }.

Definition isSpace (c : ascii) : bool :=
  let n := nat_of_ascii c in ((9 <=? n) && (n <=? 13)) || (n =? 32).
Definition isWordChar (c : ascii) : bool :=
  isUpper c || isLower c || isDigit c || Ascii.eqb c "_"%char.
Definition isLineTerminator (c : ascii) : bool :=
  let n := nat_of_ascii c in (n =? 10) || (n =? 13).
Definition dot : regex := Class (fun c => negb (isLineTerminator c)).
Definition space : regex := Class isSpace.
Definition digit : regex := Class isDigit.

Definition plus (r : regex) : regex := Cat r (Star r).
Definition opt (r : regex) : regex := Alt r Empty.
Fixpoint lits (s : string) : regex :=
  match s with
  | EmptyString => Empty
  | String c s' => Cat (Lit c) (lits s')
  end.
Fixpoint alts (rs : list regex) : regex :=
  match rs with
  | [] => Empty
  | [r] => r
  | r :: rs' => Alt r (alts rs')
  end.
Fixpoint cats (rs : list regex) : regex :=
  match rs with
  | [] => Empty
  | r :: rs' => Cat r (cats rs')
  end.

(** The matcher's position: the character before it, the text after it,
    and the captures made so far. *)
Record mstate := {
  prev : option ascii;
  rest : string;
  caps : list (nat * string);
}.

Definition charMatches (fl : flags) (c a : ascii) : bool :=
  if ignoreCase fl then Ascii.eqb (upperChar c) (upperChar a) else Ascii.eqb c a.

Definition advance (a : ascii) (s' : string) (st : mstate) : mstate :=
  {| prev := Some a; rest := s'; caps := caps st |}.

Definition atBol (fl : flags) (st : mstate) : bool :=
  match prev st with
  | None => true
  | Some c => multiline fl && isLineTerminator c
  end.
Definition atEol (fl : flags) (st : mstate) : bool :=
  match rest st with
  | EmptyString => true
  | String c _ => multiline fl && isLineTerminator c
  end.
Definition wordBefore (st : mstate) : bool :=
  match prev st with Some c => isWordChar c | None => false end.
Definition wordAfter (st : mstate) : bool :=
  match rest st with String c _ => isWordChar c | EmptyString => false end.

(** Backtracking match of [r] at [st], continuing with [k]; the first
    success in priority order is returned. An iteration of [Star] that
    consumes nothing is rejected, as in ECMAScript. *)
Fixpoint run (fl : flags) (r : regex) (st : mstate)
    (k : mstate -> option mstate) {struct r} : option mstate :=
  match r with
  | Empty => k st
  | Lit c =>
      match rest st with
      | String a s' => if charMatches fl c a then k (advance a s' st) else None
      | EmptyString => None
      end
  | Class p =>
      match rest st with
      | String a s' => if p a then k (advance a s' st) else None
      | EmptyString => None
      end
  | Cat r1 r2 => run fl r1 st (fun st1 => run fl r2 st1 k)
  | Alt r1 r2 =>
      match run fl r1 st k with
      | Some res => Some res
      | None => run fl r2 st k
      end
  | Star r1 =>
      (fix loop (n : nat) (st0 : mstate) {struct n} : option mstate :=
         match n with
         | O => k st0
         | S n' =>
             match run fl r1 st0 (fun st1 =>
                     if String.length (rest st1) <? String.length (rest st0)
                     then loop n' st1 else None) with
             | Some res => Some res
             | None => k st0
             end
         end) (String.length (rest st)) st
  | Group n r1 =>
      run fl r1 st (fun st1 =>
        let len := String.length (rest st) - String.length (rest st1) in
        k {| prev := prev st1; rest := rest st1;
             caps := (n, String.substring 0 len (rest st)) :: caps st1 |})
  | Bol => if atBol fl st then k st else None
  | Eol => if atEol fl st then k st else None
  | WordB => if xorb (wordBefore st) (wordAfter st) then k st else None
  end.

(** One match: where it starts, its text, and its captures. *)
Record rmatch := {
  m_index : nat;
  m_text : string;
  m_groups : list (nat * string);
}.

Definition group (n : nat) (m : rmatch) : option string :=
  snd <$> List.find (fun p => Nat.eqb (fst p) n) (m_groups m).

(** Leftmost match at or after the current position ([idx] is its
    offset in the whole text). *)
Fixpoint find (fl : flags) (r : regex) (p : option ascii) (s : string) (idx : nat)
    {struct s} : option (rmatch * mstate) :=
  match run fl r {| prev := p; rest := s; caps := [] |} Some with
  | Some st =>
      Some ({| m_index := idx;
               m_text := String.substring 0 (String.length s - String.length (rest st)) s;
               m_groups := caps st |}, st)
  | None =>
      match s with
      | String a s' => find fl r (Some a) s' (S idx)
      | EmptyString => None
      end
  end.

(** All matches under the [g] flag: after a match the search resumes at
    its end, one character further after an empty match. *)
Fixpoint matchAllFrom (fuel : nat) (fl : flags) (r : regex)
    (p : option ascii) (s : string) (idx : nat) : list rmatch :=
  match fuel with
  | O => []
  | S fuel' =>
      match find fl r p s idx with
      | None => []
      | Some (m, st) =>
          let stop := m_index m + String.length (m_text m) in
          m ::
          match m_text m, rest st with
          | EmptyString, String a s' => matchAllFrom fuel' fl r (Some a) s' (S stop)
          | EmptyString, EmptyString => []
          | _, _ => matchAllFrom fuel' fl r (prev st) (rest st) stop
          end
      end
  end.

Definition matchAll (fl : flags) (r : regex) (s : string) : list rmatch :=
  matchAllFrom (S (String.length s)) fl r None s 0.

(** [(s.match(re) ?? []).length] for a global [re]. *)
Definition countMatches (fl : flags) (r : regex) (s : string) : nat :=
  List.length (matchAll fl r s).

Definition fl_g : flags := {| ignoreCase := false; multiline := false |}.
Definition fl_gi : flags := {| ignoreCase := true; multiline := false |}.
Definition fl_gm : flags := {| ignoreCase := false; multiline := true |}.
Definition fl_gim : flags := {| ignoreCase := true; multiline := true |}.

(** [new RegExp(`\\b${escapeRegExp(word)}\\b`, 'gi')]: after escaping,
    every character of [word] stands for itself. *)
Definition wholeWord (word : string) : regex := Cat WordB (Cat (lits word) WordB).

End RegExp.


(* ===================================================================== *)
(** * JavaScript [Map]: insertion-ordered, one entry per key              *)
(* ===================================================================== *)

Module JsMap.
Section Ops.
Context {K V : Type} `{EqDecision K}.

(** [m.get(k)] *)
Fixpoint get (k : K) (m : list (K * V)) : option V :=
  match m with
  | [] => None
  | (k', v) :: m' => if decide (k = k') then Some v else get k m'
  end.

(** [m.has(k)] *)
Definition has (k : K) (m : list (K * V)) : bool :=
  match get k m with Some _ => true | None => false end.

(** [m.set(k, v)]: a present key keeps its place, a new key goes last. *)
Fixpoint set (k : K) (v : V) (m : list (K * V)) : list (K * V) :=
  match m with
  | [] => [(k, v)]
  | (k', v') :: m' =>
      if decide (k = k') then (k, v) :: m' else (k', v') :: set k v m'
  end.

(** Mutation of the object stored under [k] (as [m.get(k).field++]);
    nothing happens when [k] is absent. *)
Fixpoint update (k : K) (f : V -> V) (m : list (K * V)) : list (K * V) :=
  match m with
  | [] => []
  | (k', v') :: m' =>
      if decide (k = k') then (k', f v') :: m' else (k', v') :: update k f m'
  end.

(** [[...m.keys()]] and [[...m.values()]] *)
Definition keys (m : list (K * V)) : list K := List.map fst m.
Definition values (m : list (K * V)) : list V := List.map snd m.

End Ops.
End JsMap.

(* ===================================================================== *)
(** * The platform: Node's [path] module and the file system              *)
(* ===================================================================== *)

(** The functions of [path] the code imports. [resolve] and [join] are
    used with two arguments, [basename] with an extension. *)
Class NodePath := {
  relative : string -> string -> string;
  resolve : string -> string -> string;
  join : string -> string -> string;
  dirname : string -> string;
  basename : string -> string -> string;
}.

(** [findMarkdownFiles(dir)] is [glob('**/*.md', {cwd: dir, absolute: true})];
    [readFile(f, 'utf-8')] is [None] when the promise rejects;
    [pathExists] catches every error of [stat] and never rejects. *)
Class FileSystem := {
  findMarkdownFiles : string -> list string;
  readFile : string -> option string;
  pathExists : string -> bool;
}.

(** POSIX behaviour of [path], for a process whose working directory is
    [cwd], and a file system holding a given list of text files. *)
Module Posix.
Import JsString.

Definition isAbsolute (p : string) : bool := startsWith "/" p.

Definition segments (p : string) : list string :=
  List.filter truthy (split "/" p).

(** Collapse [.] and [..]; [stack] is the result so far, last segment
    first. Above the root [..] is dropped; a relative path keeps it. *)
Fixpoint collapse (absolute : bool) (stack segs : list string) : list string :=
  match segs with
  | [] => List.rev stack
  | seg :: segs' =>
      if String.eqb seg "." then collapse absolute stack segs'
      else if String.eqb seg ".." then
        match stack with
        | [] => collapse absolute (if absolute then [] else [".."]) segs'
        | top :: stack' =>
            if String.eqb top ".." then collapse absolute (".." :: stack) segs'
            else collapse absolute stack' segs'
        end
      else collapse absolute (seg :: stack) segs'
  end.

Definition resolveSegments (cwd a b : string) : list string :=
  if isAbsolute b then collapse true [] (segments b)
  else if isAbsolute a then collapse true [] (segments a ++ segments b)
  else collapse true [] (segments cwd ++ segments a ++ segments b).

Definition fromSegments (segs : list string) : string := "/" +:+ joinWith "/" segs.

Definition posixResolve (cwd a b : string) : string :=
  fromSegments (resolveSegments cwd a b).

Fixpoint stripCommon (from to : list string) : list string * list string :=
  match from, to with
  | f :: from', t :: to' =>
      if String.eqb f t then stripCommon from' to' else (from, to)
  | _, _ => (from, to)
  end.

Definition posixRelative (cwd from to : string) : string :=
  if String.eqb from to then ""
  else
    let f := resolveSegments cwd "" from in
    let t := resolveSegments cwd "" to in
    let '(f', t') := stripCommon f t in
    joinWith "/" (List.repeat ".." (List.length f') ++ t').

Definition posixJoin (a b : string) : string :=
  let joined :=
    if truthy a then (if truthy b then a +:+ "/" +:+ b else a) else b in
  match joined with
  | EmptyString => "."
  | _ =>
      let absolute := isAbsolute joined in
      let trailing := endsWith "/" joined in
      let body := joinWith "/" (collapse absolute [] (segments joined)) in
      let body := if truthy body then body else if absolute then "" else "." in
      let body := if trailing && truthy body then body +:+ "/" else body in
      if absolute then "/" +:+ body else body
  end.

Definition isSlash (c : ascii) : bool := Ascii.eqb c "/"%char.

Fixpoint dropWhile {A} (p : A -> bool) (l : list A) : list A :=
  match l with
  | [] => []
  | x :: l' => if p x then dropWhile p l' else l
  end.

(** [dirname]: scan from the end, skip trailing slashes, then the last
    segment; the slash at index 0 is never the cut point. *)
Definition posixDirname (p : string) : string :=
  match list_ascii_of_string p with
  | [] => "."
  | h :: tail =>
      let hasRoot := isSlash h in
      let r := dropWhile (fun c => negb (isSlash c)) (dropWhile isSlash (List.rev tail)) in
      match r with
      | [] => if hasRoot then "/" else "."
      | _ :: r' =>
          if hasRoot && Nat.eqb (List.length r) 1 then "//"
          else string_of_list_ascii (h :: List.rev r')
      end
  end.

(** [basename(p, ext)]: the last segment, without [ext] when it ends
    with it and is longer. *)
Definition posixBasename (p ext : string) : string :=
  if truthy ext && String.eqb ext p then ""
  else
    let base := lastOr "" (segments p) in
    if truthy ext && endsWith ext base && negb (String.eqb ext base)
    then String.substring 0 (String.length base - String.length ext) base
    else base.

Definition path (cwd : string) : NodePath := {|
  relative := posixRelative cwd;
  resolve := posixResolve cwd;
  join := posixJoin;
  dirname := posixDirname;
  basename := posixBasename;
|}.

(** A file system holding the text files [docs] (absolute path, content).
    The glob lists, in the order of [docs], the [.md] files below [dir];
    its ignore patterns play no part in the corpora used here. *)
Definition fileSystem (cwd : string) (docs : list (string * string)) : FileSystem := {|
  findMarkdownFiles := fun dir =>
    let root := posixResolve cwd "" dir in
    List.filter (fun f => startsWith (root +:+ "/") f && endsWith ".md" f)
                (List.map fst docs);
  readFile := fun f => JsMap.get (posixResolve cwd "" f) docs;
  pathExists := fun f => JsMap.has (posixResolve cwd "" f) docs;
|}.

End Posix.

(* ===================================================================== *)
(** * Array.prototype.sort (stable)                                       *)
(* ===================================================================== *)

(** [insertBy notAfter x l] puts [x] in front of the first element it
    may precede; folding it from the right is a stable sort. *)
Fixpoint insertBy {A} (notAfter : A -> A -> bool) (x : A) (l : list A) : list A :=
  match l with
  | [] => [x]
  | y :: l' => if notAfter x y then x :: l else y :: insertBy notAfter x l'
  end.

Definition sortBy {A} (notAfter : A -> A -> bool) (l : list A) : list A :=
  List.fold_right (insertBy notAfter) [] l.

(** [xs.sort((a, b) => b - a)] *)
Definition sortDescending (l : list nat) : list nat :=
  sortBy (fun a b => b <=? a) l.

(** A count as a JavaScript number. *)
Definition Qnat (n : nat) : Q := inject_Z (Z.of_nat n).

(* ===================================================================== *)
(** * Domain registry ([constants.ts])                                    *)
(* ===================================================================== *)

Module Constants.

Inductive Domain : Type :=
| agents | api | architecture | backups | database | devops | features
| plans | procedures | quickstart | security | standards | testing
| troubleshooting | workflows.

#[global] Instance Domain_eq_dec : EqDecision Domain.
Proof. solve_decision. Defined.

Definition DOMAINS : list Domain :=
  [agents; api; architecture; backups; database; devops; features; plans;
   procedures; quickstart; security; standards; testing; troubleshooting;
   workflows].

(** The string a [Domain] value is at run time. *)
Definition domainId (d : Domain) : string :=
  match d with
  | agents => "agents" | api => "api" | architecture => "architecture"
  | backups => "backups" | database => "database" | devops => "devops"
  | features => "features" | plans => "plans" | procedures => "procedures"
  | quickstart => "quickstart" | security => "security"
  | standards => "standards" | testing => "testing"
  | troubleshooting => "troubleshooting" | workflows => "workflows"
  end.

Inductive Category : Type := core | development | featuresCategory | advanced.

Record DomainDefinition := {
  id : Domain;
  keywords : list string;
  loadPriority : nat;
  category : Category;
}.

Definition DOMAIN_DEFINITIONS (d : Domain) : DomainDefinition :=
  match d with
  | security => {| id := security; loadPriority := 9; category := core;
      keywords := [
        "security"; "auth"; "authentication"; "authorization"; "oauth"; "jwt";
        "keycloak"; "vault"; "secrets"; "rls"; "row-level-security"; "rbac";
        "permissions"; "access-control"; "encryption"; "ssl"; "tls"; "certificate"] |}
  | devops => {| id := devops; loadPriority := 8; category := core;
      keywords := [
        "devops"; "deployment"; "deploy"; "ci"; "cd"; "ci/cd"; "pipeline";
        "docker"; "container"; "kubernetes"; "k8s"; "infrastructure"; "terraform";
        "ansible"; "aws"; "gcp"; "azure"; "cloud"; "environment"; "production";
        "staging"; "development"; "nginx"; "load-balancer"; "monitoring"] |}
  | database => {| id := database; loadPriority := 8; category := core;
      keywords := [
        "database"; "db"; "postgres"; "postgresql"; "mysql"; "sql"; "schema";
        "migration"; "migrations"; "alembic"; "query"; "queries"; "table";
        "index"; "indexes"; "rls"; "procedure"; "function"; "trigger";
        "transaction"; "orm"; "sqlalchemy"; "prisma"] |}
  | api => {| id := api; loadPriority := 8; category := core;
      keywords := [
        "api"; "endpoint"; "endpoints"; "route"; "routes"; "rest"; "restful";
        "graphql"; "grpc"; "openapi"; "swagger"; "specification"; "contract";
        "request"; "response"; "http"; "fastapi"; "express"; "flask"; "django"] |}
  | standards => {| id := standards; loadPriority := 10; category := development;
      keywords := [
        "standard"; "standards"; "convention"; "conventions"; "pattern"; "patterns";
        "best-practice"; "best-practices"; "guideline"; "guidelines"; "style";
        "style-guide"; "coding"; "naming"; "formatting"; "linting"; "rules"] |}
  | testing => {| id := testing; loadPriority := 7; category := development;
      keywords := [
        "test"; "testing"; "tests"; "unit"; "unit-test"; "integration";
        "integration-test"; "e2e"; "end-to-end"; "fixture"; "fixtures"; "mock";
        "mocking"; "stub"; "pytest"; "jest"; "vitest"; "playwright"; "cypress";
        "coverage"; "tdd"; "bdd"] |}
  | architecture => {| id := architecture; loadPriority := 7; category := development;
      keywords := [
        "architecture"; "design"; "system"; "system-design"; "pattern"; "patterns";
        "microservices"; "monolith"; "serverless"; "event-driven"; "cqrs";
        "ddd"; "domain-driven"; "clean-architecture"; "hexagonal"; "decision";
        "adr"; "registry"; "diagram"] |}
  | features => {| id := features; loadPriority := 6; category := featuresCategory;
      keywords := [
        "feature"; "features"; "implementation"; "guide"; "how-to"; "tutorial";
        "admin"; "administration"; "dashboard"; "ui"; "component"; "module";
        "functionality"; "capability"] |}
  | quickstart => {| id := quickstart; loadPriority := 9; category := featuresCategory;
      keywords := [
        "quickstart"; "quick-start"; "getting-started"; "setup"; "install";
        "installation"; "onboarding"; "developer"; "dev"; "workflow"; "start";
        "begin"; "intro"; "introduction"; "new-developer"] |}
  | procedures => {| id := procedures; loadPriority := 6; category := featuresCategory;
      keywords := [
        "procedure"; "procedures"; "sop"; "standard-operating-procedure"; "step";
        "steps"; "operational"; "operation"; "operations"; "runbook"; "playbook";
        "checklist"; "process"; "manual"] |}
  | workflows => {| id := workflows; loadPriority := 5; category := featuresCategory;
      keywords := [
        "workflow"; "workflows"; "process"; "processes"; "flow"; "flowchart";
        "sequence"; "pipeline"; "automation"; "automated"; "multi-step";
        "orchestration"; "state-machine"] |}
  | agents => {| id := agents; loadPriority := 5; category := advanced;
      keywords := [
        "agent"; "agents"; "ai"; "assistant"; "expert"; "specialist"; "llm";
        "langchain"; "rag"; "retrieval"; "embedding"; "vector"; "prompt";
        "orchestration"; "chain"; "tool"] |}
  | backups => {| id := backups; loadPriority := 4; category := advanced;
      keywords := [
        "backup"; "backups"; "restore"; "recovery"; "disaster"; "disaster-recovery";
        "dr"; "snapshot"; "archive"; "retention"; "replication"; "failover"] |}
  | troubleshooting => {| id := troubleshooting; loadPriority := 6; category := advanced;
      keywords := [
        "troubleshooting"; "troubleshoot"; "debug"; "debugging"; "issue"; "issues";
        "problem"; "problems"; "error"; "errors"; "fix"; "solution"; "solutions";
        "resolve"; "diagnose"; "diagnosis"; "log"; "logs"; "faq"] |}
  | plans => {| id := plans; loadPriority := 3; category := advanced;
      keywords := [
        "plan"; "plans"; "planning"; "roadmap"; "proposal"; "proposals"; "rfc";
        "design-doc"; "specification"; "spec"; "milestone"; "timeline"; "schedule";
        "project"; "initiative"] |}
  end.

(** [isValidDomain(value)]: [DOMAINS.includes(value)]. *)
Definition isValidDomain (value : string) : bool :=
  List.existsb (fun d => String.eqb value (domainId d)) DOMAINS.

(** The [Domain] a string is once [isValidDomain] has narrowed it. *)
Definition asDomain (value : string) : option Domain :=
  List.find (fun d => String.eqb value (domainId d)) DOMAINS.

(** [getAllKeywords()]: keyword to the domains that list it, keywords in
    order of first appearance over [DOMAINS]. *)
Definition addKeyword (d : Domain) (keywordMap : list (string * list Domain))
    (keyword : string) : list (string * list Domain) :=
  let existing := default [] (JsMap.get keyword keywordMap) in
  JsMap.set keyword (existing ++ [d]) keywordMap.

Definition getAllKeywords : list (string * list Domain) :=
  List.fold_left
    (fun keywordMap d =>
       List.fold_left (addKeyword d) (keywords (DOMAIN_DEFINITIONS d)) keywordMap)
    DOMAINS [].

End Constants.

(* ===================================================================== *)
(** * Domain detection ([detector.ts])                                    *)
(* ===================================================================== *)

Module Detector.
Import Constants.

Inductive Method : Type := byPath | byContent | byKeywords | byNone.

Record DomainDetectionResult := {
  domain : option Domain;
  confidence : Q;
  method : Method;
  alternativeDomains : list (Domain * Q);
}.

(** The default value of the [docsRoot] parameters. *)
Definition DEFAULT_DOCS_ROOT : string := ".documentation".

(** The loop over [parts]: the first index [i] whose part is a domain. *)
Fixpoint findDomainPart (parts : list string) (i : nat) : option (Domain * nat) :=
  match parts with
  | [] => None
  | part :: parts' =>
      if JsString.truthy part && isValidDomain part then
        match asDomain part with
        | Some d => Some (d, i)
        | None => findDomainPart parts' (S i)
        end
      else findDomainPart parts' (S i)
  end.

(** [i === 0 ? 1.0 : 0.9 - i * 0.1] *)
Definition pathConfidence (i : nat) : Q :=
  if Nat.eqb i 0 then 1%Q else ((9 # 10) - Qnat i * (1 # 10))%Q.

(** [relativePath.split('/')]: the parts of the path below the docs root,
    separators normalised. [relative] does not throw on strings, so the
    [catch] branch is dead. *)
Definition pathParts `{NodePath} (filePath docsRoot : string) : list string :=
  let normalizedPath := JsString.backslashToSlash filePath in
  let normalizedRoot := JsString.backslashToSlash docsRoot in
  let relativePath := JsString.backslashToSlash (relative normalizedRoot normalizedPath) in
  JsString.split "/" relativePath.

Definition detectDomainFromPath `{NodePath} (filePath docsRoot : string)
    : DomainDetectionResult :=
  let parts := pathParts filePath docsRoot in
  match findDomainPart parts 0 with
  | Some (d, i) =>
      {| domain := Some d; confidence := pathConfidence i;
         method := byPath; alternativeDomains := [] |}
  | None =>
      let fileName := basename filePath ".md" in
      match List.find (fun d => JsString.includes (domainId d) fileName) DOMAINS with
      | Some d =>
          {| domain := Some d; confidence := (6 # 10)%Q;
             method := byPath; alternativeDomains := [] |}
      | None =>
          {| domain := None; confidence := 0%Q;
             method := byPath; alternativeDomains := [] |}
      end
  end.

(** One keyword of the map: every domain listing it gains its number of
    whole-word occurrences, when there is any. *)
Definition scoreKeyword (lowerContent : string)
    (domainScores : list (Domain * nat)) (entry : string * list Domain)
    : list (Domain * nat) :=
  let '(keyword, domains) := entry in
  let count := RegExp.countMatches RegExp.fl_gi (RegExp.wholeWord keyword) lowerContent in
  if Nat.eqb count 0 then domainScores
  else
    List.fold_left
      (fun scores d =>
         let current := default 0 (JsMap.get d scores) in
         JsMap.set d (current + count) scores)
      domains domainScores.

Definition keywordScores (content : string) : list (Domain * nat) :=
  List.fold_left (scoreKeyword (JsString.toLowerCase content)) getAllKeywords [].

(** Domains with a positive score, highest first (stable). *)
Definition sortedDomains (content : string) : list (Domain * nat) :=
  sortBy (fun a b => snd b <=? snd a)
         (List.filter (fun e => 0 <? snd e) (keywordScores content)).

Definition contentConfidence (maxScore secondScore : nat) : Q :=
  let scoreDiff := (Qnat maxScore - Qnat secondScore)%Q in
  let normalizedScore := Qmin (Qnat maxScore / 20)%Q 1%Q in
  let scoreDiffFactor := Qmin (scoreDiff / 10)%Q (3 # 10)%Q in
  Qmin ((5 # 10) + normalizedScore * (3 # 10) + scoreDiffFactor)%Q (95 # 100)%Q.

Definition detectDomainFromContent (content : string) : DomainDetectionResult :=
  match sortedDomains content with
  | [] =>
      {| domain := None; confidence := 0%Q;
         method := byContent; alternativeDomains := [] |}
  | (topDomain, maxScore) :: others =>
      let secondScore := match others with (_, s) :: _ => s | [] => 0 end in
      let conf := contentConfidence maxScore secondScore in
      {| domain := Some topDomain; confidence := conf; method := byKeywords;
         alternativeDomains :=
           List.map (fun e => (fst e, ((Qnat (snd e) / Qnat maxScore) * conf * (8 # 10))%Q))
                    (List.firstn 3 others) |}
  end.

(** [detectDomain(filePath, content?, docsRoot)]. An absent [content] is
    [None]; the empty string is falsy and is treated like it. A caller
    that leaves [docsRoot] out passes [DEFAULT_DOCS_ROOT]. *)
Definition detectDomain `{NodePath} (filePath : string) (content : option string)
    (docsRoot : string) : DomainDetectionResult :=
  let pathResult := detectDomainFromPath filePath docsRoot in
  if bool_decide (is_Some (domain pathResult)) && Qle_bool (9 # 10)%Q (confidence pathResult)
  then pathResult
  else
    match content with
    | Some c =>
        if JsString.truthy c then
          let contentResult := detectDomainFromContent c in
          match domain pathResult with
          | Some d =>
              if negb (Qle_bool (confidence contentResult) (confidence pathResult))
              then
                {| domain := domain contentResult;
                   confidence := confidence contentResult;
                   method := method contentResult;
                   alternativeDomains :=
                     (d, confidence pathResult) :: alternativeDomains contentResult |}
              else pathResult
          | None => contentResult
          end
        else pathResult
    | None => pathResult
    end.

End Detector.

(* ===================================================================== *)
(** * Tier classification ([classifier.ts])                               *)
(* ===================================================================== *)

Module Classifier.
Import RegExp.

Inductive Tier : Type := guide | standard | example | reference | admin.

#[global] Instance Tier_eq_dec : EqDecision Tier.
Proof. solve_decision. Defined.

Definition TIERS : list Tier := [guide; standard; example; reference; admin].

Record TierDefinition := {
  id : Tier;
  sizeRange : nat * nat;            (* min and max, in KB *)
  indicators : list string;
  headingPatterns : list regex;
}.

(** [/^#+\s*(a|b|...)/i] *)
Definition heading (alternatives : list regex) : regex :=
  cats [Bol; plus (Lit "#"); Star space; Group 1 (alts alternatives)].

(** [words?] *)
Definition optS (word : string) : regex := Cat (lits word) (opt (Lit "s")).

Definition TIER_DEFINITIONS (t : Tier) : TierDefinition :=
  match t with
  | guide => {| id := guide; sizeRange := (15, 30);
      indicators := [
        "how to"; "step by step"; "tutorial"; "guide"; "walkthrough";
        "getting started"; "learn"; "implement"; "build"; "create"];
      headingPatterns := [
        heading [optS "prerequisite"; optS "requirement"];
        heading [cats [lits "step"; Star space; plus digit];
                 lits "first"; lits "next"; lits "then"; lits "finally"];
        heading [lits "overview"; lits "introduction"; lits "getting started"];
        heading [lits "example"; lits "demo"; lits "try it"]] |}
  | standard => {| id := standard; sizeRange := (5, 15);
      indicators := [
        "standard"; "convention"; "rule"; "must"; "should"; "must not";
        "should not"; "required"; "recommended"; "best practice"; "guideline"];
      headingPatterns := [
        heading [optS "rule"; optS "guideline"; optS "convention"];
        heading [lits "do"; cats [lits "don"; opt (Lit "'"); Lit "t"];
                 lits "avoid"; lits "prefer"];
        heading [lits "naming"; lits "formatting"; lits "style"];
        heading [lits "required"; lits "recommended"; lits "optional"]] |}
  | example => {| id := example; sizeRange := (3, 10);
      indicators := [
        "example"; "sample"; "template"; "snippet"; "code"; "demo";
        "showcase"; "pattern example"; "usage example"];
      headingPatterns := [
        heading [lits "example"; lits "sample"; lits "template"];
        heading [lits "code"; lits "snippet"; lits "usage"];
        heading [lits "input"; lits "output"; lits "result"]] |}
  | reference => {| id := reference; sizeRange := (30, 100);
      indicators := [
        "reference"; "specification"; "api"; "complete"; "comprehensive";
        "all"; "full list"; "documentation"; "schema"; "interface"];
      headingPatterns := [
        heading [lits "api"; lits "schema"; lits "interface"; lits "type"];
        heading [optS "parameter"; optS "argument"; optS "option"];
        heading [optS "method"; optS "function"; optS "endpoint"];
        heading [lits "properties"; lits "fields"; lits "attributes"]] |}
  | admin => {| id := admin; sizeRange := (10, 20);
      indicators := [
        "admin"; "administrative"; "operational"; "maintenance"; "ops";
        "manage"; "configure"; "setup"; "deployment"; "monitoring"];
      headingPatterns := [
        heading [lits "configuration"; lits "setup"; lits "installation"];
        heading [lits "maintenance"; lits "monitoring"; lits "logging"];
        heading [lits "backup"; lits "restore"; lits "recovery"];
        heading [lits "troubleshooting"; lits "debugging"]] |}
  end.

(** [scores: Record<Tier, number>] *)
Definition Scores : Type := Tier -> nat.

Definition noScores : Scores := fun _ => 0.

(** [scores[t] += n] *)
Definition addScore (t : Tier) (n : nat) (scores : Scores) : Scores :=
  fun t' => if decide (t' = t) then scores t' + n else scores t'.

Record TierClassificationResult := {
  tier : Tier;
  confidence : Q;
  scores : Scores;
}.

Definition Qgtb (a b : Q) : bool := negb (Qle_bool a b).

(** [Buffer.byteLength(content, 'utf8') / 1024]; an ASCII text has one
    byte per character. *)
Definition sizeKB (content : string) : Q := (Qnat (String.length content) / 1024)%Q.

(** The body of the loop over [TIERS] for one tier. *)
Definition scoreTier (content : string) (scores : Scores) (t : Tier) : Scores :=
  let def := TIER_DEFINITIONS t in
  let lowerContent := JsString.toLowerCase content in
  let scores :=
    List.fold_left
      (fun sc indicator =>
         addScore t (countMatches fl_gi (wholeWord indicator) lowerContent * 2) sc)
      (indicators def) scores in
  let scores :=
    List.fold_left
      (fun sc pattern => addScore t (countMatches fl_gim pattern content * 5) sc)
      (headingPatterns def) scores in
  if Qle_bool (Qnat (fst (sizeRange def))) (sizeKB content)
     && Qle_bool (sizeKB content) (Qnat (snd (sizeRange def)))
  then addScore t 10 scores else scores.

(** [/```/g] *)
Definition fenceRe : regex := lits "```".
(** [/^[\s]*[-*\d.]+\s/gm] *)
Definition listItemRe : regex :=
  cats [Bol; Star space;
        plus (Class (fun c => Ascii.eqb c "-"%char || Ascii.eqb c "*"%char
                              || JsString.isDigit c || Ascii.eqb c "."%char));
        space].
(** [/^\|.*\|$/gm] *)
Definition tableRowRe : regex := cats [Bol; Lit "|"; Star dot; Lit "|"; Eol].
(** [/>\s*\*\*(warning|note|caution|important)/gi] *)
Definition warningRe : regex :=
  cats [Lit ">"; Star space; lits "**";
        Group 1 (alts [lits "warning"; lits "note"; lits "caution"; lits "important"])].

(** The "additional heuristics" block. *)
Definition heuristics (content : string) (scores : Scores) : Scores :=
  let codeBlockCount := (Qnat (countMatches fl_g fenceRe content) / 2)%Q in
  let lines := List.length (JsString.split "010" content) in
  let codeRatio := (codeBlockCount / (Qnat lines / 50))%Q in
  let scores := if Qgtb codeRatio (5 # 10)%Q then addScore example 15 scores else scores in
  let listItems := countMatches fl_gm listItemRe content in
  let listRatio := (Qnat listItems / Qnat lines)%Q in
  let scores :=
    if Qgtb listRatio (3 # 10)%Q
    then addScore standard 8 (addScore guide 10 scores) else scores in
  let tables := countMatches fl_gm tableRowRe content in
  let scores := if 5 <? tables then addScore reference 15 scores else scores in
  let warnings := countMatches fl_gi warningRe content in
  if 2 <? warnings then addScore admin 10 scores else scores.

Definition tierScores (content : string) : Scores :=
  heuristics content (List.fold_left (scoreTier content) TIERS noScores).

(** The loop that finds the winning tier, from [maxScore = 0] and
    [winningTier = 'guide']. *)
Definition pickWinner (scores : Scores) : nat * Tier :=
  List.fold_left
    (fun '(maxScore, winningTier) t =>
       if maxScore <? scores t then (scores t, t) else (maxScore, winningTier))
    TIERS (0, guide).

Definition tierConfidence (scores : Scores) : Q :=
  let sortedScores := sortDescending (List.map scores TIERS) in
  let topScore := List.nth 0 sortedScores 0 in
  let secondScore := List.nth 1 sortedScores 0 in
  let scoreDiff := (Qnat topScore - Qnat secondScore)%Q in
  if 0 <? topScore then
    Qmin ((5 # 10) + (scoreDiff / Qnat topScore) * (3 # 10)
          + (Qnat topScore / 100) * (2 # 10))%Q (95 # 100)%Q
  else (5 # 10)%Q.

(** [classifyTier(content)]; the [reasoning] trace is left out. *)
Definition classifyTier (content : string) : TierClassificationResult :=
  let scores := tierScores content in
  {| tier := snd (pickWinner scores);
     confidence := tierConfidence scores;
     scores := scores |}.

End Classifier.

(* ===================================================================== *)
(** * Link extraction ([utils/markdown.ts])                               *)
(* ===================================================================== *)

Module Markdown.
Import RegExp.

Record MarkdownLink := {
  text : string;
  url : string;
  title : option string;
  isInternal : bool;
  lineNumber : nat;
  startIndex : nat;
  endIndex : nat;
}.

Definition dquote : ascii := ascii_of_nat 34.

(** The link pattern: [text] in brackets, then in parentheses a target
    without blanks or closing parenthesis and an optional quoted title.
    Groups 1, 2 and 3 are the text, the target and the title. *)
Definition linkRegex : regex :=
  cats [Lit "[";
        Group 1 (Star (Class (fun c => negb (Ascii.eqb c "]"%char))));
        Lit "]"; Lit "(";
        Group 2 (plus (Class (fun c => negb (Ascii.eqb c ")"%char || isSpace c))));
        opt (cats [plus space; Lit dquote;
                   Group 3 (Star (Class (fun c => negb (Ascii.eqb c dquote))));
                   Lit dquote]);
        Lit ")"].

Definition internalUrl (urlStr : string) : bool :=
  negb (JsString.startsWith "http://" urlStr)
  && negb (JsString.startsWith "https://" urlStr)
  && negb (JsString.startsWith "mailto:" urlStr)
  && negb (JsString.startsWith "#" urlStr).

(** The link built from one match on the line of index [lineIndex]. *)
Definition linkOfMatch (lineIndex : nat) (m : rmatch) : MarkdownLink :=
  let urlStr := default EmptyString (group 2 m) in
  {| text := default EmptyString (group 1 m);
     url := urlStr;
     title := match group 3 m with
              | Some t => if JsString.truthy t then Some t else None
              | None => None
              end;
     isInternal := internalUrl urlStr;
     lineNumber := lineIndex + 1;
     startIndex := m_index m;
     endIndex := m_index m + String.length (m_text m) |}.

(** [lines.forEach((line, lineIndex) => ...)] *)
Fixpoint linksOfLines (lines : list string) (lineIndex : nat) : list MarkdownLink :=
  match lines with
  | [] => []
  | line :: lines' =>
      List.map (linkOfMatch lineIndex) (matchAll fl_g linkRegex line)
      ++ linksOfLines lines' (S lineIndex)
  end.

Definition extractLinks (content : string) : list MarkdownLink :=
  linksOfLines (JsString.split "010" content) 0.

End Markdown.

(* ===================================================================== *)
(** * Link checking ([core/links/checker.ts])                             *)
(* ===================================================================== *)

Module Checker.
Import Constants Detector.

Record LinkCheckOptions := {
  docsPath : string;
  domainFilter : option string;     (* the [domain] option *)
  checkExternal : bool;
  silent : bool;
}.

Record BrokenLink := {
  sourceFile : string;
  targetPath : string;
  lineNumber : nat;
  linkText : string;
  reason : string;
}.

Record CrossDomainLink := {
  cd_sourceFile : string;
  cd_sourceDomain : option Domain;
  cd_targetPath : string;
  cd_targetDomain : option Domain;
  cd_linkText : string;
}.

Record ExternalLink := {
  ext_sourceFile : string;
  ext_url : string;
  ext_linkText : string;
}.

(** [stats.topConnectedDomains] only feeds the report and is left out. *)
Record LinkStats := {
  stats_internalLinks : nat;
  stats_externalLinks : nat;
  stats_crossDomainLinks : nat;
  stats_brokenPercentage : Q;
}.

Record LinkCheckResult := {
  totalFiles : nat;
  totalLinks : nat;
  validLinks : nat;
  brokenLinks : list BrokenLink;
  crossDomainLinks : list CrossDomainLink;
  externalLinks : list ExternalLink;
  stats : LinkStats;
}.

(** [resolveLink(linkUrl, fileDir, docsPath)] *)
Definition resolveLink `{NodePath} (linkUrl fileDir docsPath : string) : string :=
  let pathPart := List.hd EmptyString (JsString.split "#" linkUrl) in
  if negb (JsString.truthy pathPart) then fileDir
  else if JsString.startsWith "/" pathPart then join docsPath pathPart
  else resolve fileDir pathPart.

Definition brokenEntry (relFile : string) (link : Markdown.MarkdownLink) : BrokenLink :=
  {| sourceFile := relFile;
     targetPath := Markdown.url link;
     lineNumber := Markdown.lineNumber link;
     linkText := Markdown.text link;
     reason := "Target file does not exist" |}.

(** The body of the loop over the links of one file. *)
Definition checkLink `{NodePath} `{FileSystem} (docsPath file relFile fileDir : string)
    (result : LinkCheckResult) (link : Markdown.MarkdownLink) : LinkCheckResult :=
  let st := stats result in
  if Markdown.isInternal link then
    let target := resolveLink (Markdown.url link) fileDir docsPath in
    if negb (pathExists target) then
      {| totalFiles := totalFiles result;
         totalLinks := totalLinks result + 1;
         validLinks := validLinks result;
         brokenLinks := brokenLinks result ++ [brokenEntry relFile link];
         crossDomainLinks := crossDomainLinks result;
         externalLinks := externalLinks result;
         stats := {| stats_internalLinks := stats_internalLinks st + 1;
                     stats_externalLinks := stats_externalLinks st;
                     stats_crossDomainLinks := stats_crossDomainLinks st;
                     stats_brokenPercentage := stats_brokenPercentage st |} |}
    else
      let sourceDomain := domain (detectDomainFromPath file docsPath) in
      let targetDomain := domain (detectDomainFromPath target docsPath) in
      let crossing :=
        match sourceDomain, targetDomain with
        | Some a, Some b => negb (bool_decide (a = b))
        | _, _ => false
        end in
      {| totalFiles := totalFiles result;
         totalLinks := totalLinks result + 1;
         validLinks := validLinks result + 1;
         brokenLinks := brokenLinks result;
         crossDomainLinks :=
           if crossing then
             crossDomainLinks result ++
               [{| cd_sourceFile := relFile; cd_sourceDomain := sourceDomain;
                   cd_targetPath := Markdown.url link; cd_targetDomain := targetDomain;
                   cd_linkText := Markdown.text link |}]
           else crossDomainLinks result;
         externalLinks := externalLinks result;
         stats := {| stats_internalLinks := stats_internalLinks st + 1;
                     stats_externalLinks := stats_externalLinks st;
                     stats_crossDomainLinks :=
                       if crossing then stats_crossDomainLinks st + 1
                       else stats_crossDomainLinks st;
                     stats_brokenPercentage := stats_brokenPercentage st |} |}
  else
    {| totalFiles := totalFiles result;
       totalLinks := totalLinks result + 1;
       validLinks := validLinks result;
       brokenLinks := brokenLinks result;
       crossDomainLinks := crossDomainLinks result;
       externalLinks :=
         externalLinks result ++
           [{| ext_sourceFile := relFile; ext_url := Markdown.url link;
               ext_linkText := Markdown.text link |}];
       stats := {| stats_internalLinks := stats_internalLinks st;
                   stats_externalLinks := stats_externalLinks st + 1;
                   stats_crossDomainLinks := stats_crossDomainLinks st;
                   stats_brokenPercentage := stats_brokenPercentage st |} |}.

(** The body of the loop over the files: a file that cannot be read is
    caught and skipped. *)
Definition checkFile `{NodePath} `{FileSystem} (docsPath : string)
    (result : LinkCheckResult) (file : string) : LinkCheckResult :=
  match readFile file with
  | None => result
  | Some content =>
      let links := Markdown.extractLinks content in
      let relFile := relative docsPath file in
      let fileDir := dirname file in
      List.fold_left (checkLink docsPath file relFile fileDir) links result
  end.

(** The files the check covers: all of them, or those below [domain]. *)
Definition filesToCheck `{NodePath} `{FileSystem} (options : LinkCheckOptions) : list string :=
  let files := findMarkdownFiles (docsPath options) in
  match domainFilter options with
  | Some d =>
      if JsString.truthy d then
        List.filter
          (fun f =>
             let rel := relative (docsPath options) f in
             JsString.startsWith (d +:+ "/") rel || JsString.startsWith (d +:+ "\") rel)
          files
      else files
  | None => files
  end.

Definition emptyResult (nfiles : nat) : LinkCheckResult :=
  {| totalFiles := nfiles; totalLinks := 0; validLinks := 0;
     brokenLinks := []; crossDomainLinks := []; externalLinks := [];
     stats := {| stats_internalLinks := 0; stats_externalLinks := 0;
                 stats_crossDomainLinks := 0; stats_brokenPercentage := 0%Q |} |}.

Definition checkLinks `{NodePath} `{FileSystem} (options : LinkCheckOptions)
    : LinkCheckResult :=
  let files := filesToCheck options in
  let result := List.fold_left (checkFile (docsPath options)) files
                               (emptyResult (List.length files)) in
  let st := stats result in
  {| totalFiles := totalFiles result;
     totalLinks := totalLinks result;
     validLinks := validLinks result;
     brokenLinks := brokenLinks result;
     crossDomainLinks := crossDomainLinks result;
     externalLinks := externalLinks result;
     stats := {| stats_internalLinks := stats_internalLinks st;
                 stats_externalLinks := stats_externalLinks st;
                 stats_crossDomainLinks := stats_crossDomainLinks st;
                 stats_brokenPercentage :=
                   if 0 <? stats_internalLinks st
                   then (Qnat (List.length (brokenLinks result))
                         / Qnat (stats_internalLinks st) * 100)%Q
                   else 0%Q |} |}.

End Checker.

(* ===================================================================== *)
(** * Link graph ([core/links/tracker.ts])                                *)
(* ===================================================================== *)

Module Tracker.
Import Constants Detector.

Record LinkNode := {
  id : string;
  path : string;
  domain : option Domain;
  inDegree : nat;
  outDegree : nat;
}.

Record LinkEdge := {
  source : string;
  target : string;
  linkText : string;
  lineNumber : nat;
}.

Record LinkGraph := {
  nodes : list LinkNode;
  edges : list LinkEdge;
}.

Definition incOut (n : LinkNode) : LinkNode :=
  {| id := id n; path := path n; domain := domain n;
     inDegree := inDegree n; outDegree := outDegree n + 1 |}.
Definition incIn (n : LinkNode) : LinkNode :=
  {| id := id n; path := path n; domain := domain n;
     inDegree := inDegree n + 1; outDegree := outDegree n |}.

(** First pass: one node per file, keyed by its path below [docsPath]. *)
Definition createNodes `{NodePath} (docsPath : string) (files : list string)
    : list (string * LinkNode) :=
  List.fold_left
    (fun nodes file =>
       let relPath := relative docsPath file in
       JsMap.set relPath
         {| id := relPath; path := relPath;
            domain := Detector.domain (detectDomainFromPath file docsPath);
            inDegree := 0; outDegree := 0 |}
         nodes)
    files [].

(** The path a link of a file in [fileDir] points to, below [docsPath];
    [None] when the link has no path part. *)
Definition linkTarget `{NodePath} (docsPath fileDir : string)
    (link : Markdown.MarkdownLink) : option string :=
  let pathPart := List.hd EmptyString (JsString.split "#" (Markdown.url link)) in
  if negb (JsString.truthy pathPart) then None
  else
    let targetPath :=
      if JsString.startsWith "/" pathPart then JsString.sliceFrom 1 pathPart
      else relative docsPath (resolve fileDir pathPart) in
    Some (JsString.backslashToSlash targetPath).

(** Second pass, one link: an edge and two degree updates when the
    target is a node. *)
Definition addLink `{NodePath} (docsPath relPath fileDir : string)
    (state : list (string * LinkNode) * list LinkEdge)
    (link : Markdown.MarkdownLink) : list (string * LinkNode) * list LinkEdge :=
  let '(nodes, edges) := state in
  if Markdown.isInternal link then
    match linkTarget docsPath fileDir link with
    | None => state
    | Some targetPath =>
        if JsMap.has targetPath nodes then
          (JsMap.update targetPath incIn (JsMap.update relPath incOut nodes),
           edges ++ [{| source := relPath; target := targetPath;
                        linkText := Markdown.text link;
                        lineNumber := Markdown.lineNumber link |}])
        else state
    end
  else state.

(** Second pass, one file; a file that cannot be read rejects the whole
    promise. *)
Definition addFileLinks `{NodePath} `{FileSystem} (docsPath : string)
    (state : option (list (string * LinkNode) * list LinkEdge)) (file : string)
    : option (list (string * LinkNode) * list LinkEdge) :=
  match state with
  | None => None
  | Some st =>
      match readFile file with
      | None => None
      | Some content =>
          let links := Markdown.extractLinks content in
          let relPath := relative docsPath file in
          let fileDir := dirname file in
          Some (List.fold_left (addLink docsPath relPath fileDir) links st)
      end
  end.

Definition buildLinkGraphOver `{NodePath} `{FileSystem} (docsPath : string)
    (files : list string) : option LinkGraph :=
  let nodes := createNodes docsPath files in
  match List.fold_left (addFileLinks docsPath) files (Some (nodes, [])) with
  | None => None
  | Some (nodes, edges) => Some {| nodes := JsMap.values nodes; edges := edges |}
  end.

Definition buildLinkGraph `{NodePath} `{FileSystem} (docsPath : string) : option LinkGraph :=
  buildLinkGraphOver docsPath (findMarkdownFiles docsPath).

Definition structuralNames : list string := ["INDEX.md"; "REGISTRY.md"; "README.md"].

Definition orphansOf (graph : LinkGraph) : list string :=
  List.map path
    (List.filter
       (fun n =>
          let name := JsString.lastOr EmptyString (JsString.split "/" (path n)) in
          negb (List.existsb (String.eqb name) structuralNames))
       (List.filter (fun n => Nat.eqb (inDegree n) 0) (nodes graph))).

Definition findOrphanFiles `{NodePath} `{FileSystem} (docsPath : string)
    : option (list string) :=
  orphansOf <$> buildLinkGraph docsPath.

End Tracker.

(* ===================================================================== *)
(** * Cycle detection ([core/discover/dependencies.ts])                   *)
(* ===================================================================== *)

Module Dependencies.

Record CircularDependency := { files : list string }.

(** What the closure [dfs] shares with its caller. *)
Record DfsState := {
  cycles : list CircularDependency;
  visited : gset string;
  recursionStack : gset string;
}.

(** [path.indexOf(node)] *)
Fixpoint indexOf (node : string) (path : list string) : option nat :=
  match path with
  | [] => None
  | p :: path' =>
      if String.eqb p node then Some 0 else S <$> indexOf node path'
  end.

(** [graph.get(node) ?? new Set()] *)
Definition importsOf (graph : list (string * list string)) (node : string) : list string :=
  default [] (JsMap.get node graph).

(** [dfs(node, path)]. Each call works on its own copy of [path]. The
    recursion is bounded by [fuel]; [None] means the bound was reached. *)
Fixpoint dfs (fuel : nat) (graph : list (string * list string)) (node : string)
    (path : list string) (st : DfsState) : option DfsState :=
  match fuel with
  | O => None
  | S fuel' =>
      if bool_decide (node ∈ recursionStack st) then
        match indexOf node path with
        | Some cycleStart =>
            Some {| cycles := cycles st ++ [{| files := List.skipn cycleStart path |}];
                    visited := visited st;
                    recursionStack := recursionStack st |}
        | None => Some st
        end
      else if bool_decide (node ∈ visited st) then Some st
      else
        let st1 := {| cycles := cycles st;
                      visited := {[node]} ∪ visited st;
                      recursionStack := {[node]} ∪ recursionStack st |} in
        let path1 := path ++ [node] in
        match List.fold_left
                (fun acc imported =>
                   match acc with
                   | None => None
                   | Some s => dfs fuel' graph imported path1 s
                   end)
                (importsOf graph node) (Some st1) with
        | None => None
        | Some st2 =>
            Some {| cycles := cycles st2;
                    visited := visited st2;
                    recursionStack := recursionStack st2 ∖ {[node]} |}
        end
  end.

(** The loop over [graph.keys()]. *)
Definition dfsAll (fuel : nat) (graph : list (string * list string)) : option DfsState :=
  List.fold_left
    (fun acc node =>
       match acc with
       | None => None
       | Some st =>
           if bool_decide (node ∈ visited st) then Some st
           else dfs fuel graph node [] st
       end)
    (JsMap.keys graph)
    (Some {| cycles := []; visited := ∅; recursionStack := ∅ |}).

(** [[...cycle.files].sort().join('->')] *)
Definition cycleKey (cycle : CircularDependency) : string :=
  JsString.joinWith "->" (sortBy String.leb (files cycle)).

(** The deduplication loop. *)
Definition dedupStep (state : gset string * list CircularDependency)
    (cycle : CircularDependency) : gset string * list CircularDependency :=
  let '(seen, uniqueCycles) := state in
  let key := cycleKey cycle in
  if bool_decide (key ∈ seen) then state
  else ({[key]} ∪ seen, uniqueCycles ++ [cycle]).

Definition uniqueCycles (cycles : list CircularDependency) : list CircularDependency :=
  snd (List.fold_left dedupStep cycles (∅, [])).

(** Every string the traversal can reach: the keys and what they import. *)
Definition graphNodes (graph : list (string * list string)) : gset string :=
  list_to_set (JsMap.keys graph ++ List.concat (JsMap.values graph)).

(** [detectCircularDependencies(graph)], with a recursion bound that is
    never reached (see [detectCircularDependencies_total]). *)
Definition detectCircularDependencies (graph : list (string * list string))
    : option (list CircularDependency) :=
  match dfsAll (S (size (graphNodes graph))) graph with
  | None => None
  | Some st => Some (List.firstn 10 (uniqueCycles (cycles st)))
  end.

End Dependencies.

(* ===================================================================== *)
(** * Queries on the link graph ([core/links/tracker.ts], continued)      *)
(* ===================================================================== *)

Module TrackerQueries.
Import Constants Tracker.

Record Backlink := {
  bl_source : string;
  bl_linkText : string;
  bl_lineNumber : nat;
}.

(** [getBacklinks(targetFile, docsPath)] *)
Definition getBacklinks `{NodePath} `{FileSystem} (targetFile docsPath : string)
    : option (list Backlink) :=
  match buildLinkGraph docsPath with
  | None => None
  | Some graph =>
      let targetPath := JsString.backslashToSlash (relative docsPath targetFile) in
      Some (List.map
              (fun e => {| bl_source := source e; bl_linkText := linkText e;
                           bl_lineNumber := lineNumber e |})
              (List.filter (fun e => String.eqb (target e) targetPath) (edges graph)))
  end.

Definition totalDegree (n : LinkNode) : nat := inDegree n + outDegree n.

(** The filter and the sort of [findHubFiles]. *)
Definition hubsOf (minDegree : nat) (graph : LinkGraph) : list LinkNode :=
  sortBy (fun a b => totalDegree b <=? totalDegree a)
    (List.filter (fun n => (minDegree <=? inDegree n) || (minDegree <=? outDegree n))
                 (nodes graph)).

(** [findHubFiles(docsPath, minDegree)]; the default [minDegree] is 5. *)
Definition findHubFiles `{NodePath} `{FileSystem} (docsPath : string) (minDegree : nat)
    : option (list LinkNode) :=
  hubsOf minDegree <$> buildLinkGraph docsPath.

Record DomainConnectionMatrix := {
  domains : list Domain;
  matrix : list (list nat);
  totalConnections : nat;
}.

(** [DOMAINS.indexOf(d)]; [None] stands for -1. *)
Fixpoint indexIn (d : Domain) (l : list Domain) : option nat :=
  match l with
  | [] => None
  | x :: l' => if decide (x = d) then Some 0 else S <$> indexIn d l'
  end.

(** [graph.nodes.find((n) => n.id === id)] *)
Definition findNode (nodeId : string) (graph : LinkGraph) : option LinkNode :=
  List.find (fun n => String.eqb (Tracker.id n) nodeId) (nodes graph).

(** [node?.domain] *)
Definition domainOfNode (nodeId : string) (graph : LinkGraph) : option Domain :=
  match findNode nodeId graph with
  | Some n => Tracker.domain n
  | None => None
  end.

(** The body of the loop that counts connections. *)
Definition countConnection (graph : LinkGraph) (state : list (list nat) * nat)
    (edge : LinkEdge) : list (list nat) * nat :=
  let '(m, total) := state in
  match domainOfNode (source edge) graph, domainOfNode (target edge) graph with
  | Some sourceDomain, Some targetDomain =>
      match indexIn sourceDomain DOMAINS, indexIn targetDomain DOMAINS with
      | Some sourceIdx, Some targetIdx =>
          (alter (alter S targetIdx) sourceIdx m, total + 1)
      | _, _ => state
      end
  | _, _ => state
  end.

Definition zeroMatrix : list (list nat) :=
  List.map (fun _ => List.map (fun _ => 0) DOMAINS) DOMAINS.

Definition connectionMatrixOf (graph : LinkGraph) : DomainConnectionMatrix :=
  let '(m, total) := List.fold_left (countConnection graph) (edges graph) (zeroMatrix, 0) in
  {| domains := DOMAINS; matrix := m; totalConnections := total |}.

(** [buildDomainConnectionMatrix(docsPath)] *)
Definition buildDomainConnectionMatrix `{NodePath} `{FileSystem} (docsPath : string)
    : option DomainConnectionMatrix :=
  connectionMatrixOf <$> buildLinkGraph docsPath.

Record Connection := {
  conn_from : Domain;
  conn_to : Domain;
  conn_count : nat;
}.

(** The two nested loops of [getTopConnectedDomains]. *)
Definition connectionsOf (cm : DomainConnectionMatrix) : list Connection :=
  List.flat_map
    (fun i =>
       List.flat_map
         (fun j =>
            let count := List.nth j (List.nth i (matrix cm) []) 0 in
            if 0 <? count then
              match domains cm !! i, domains cm !! j with
              | Some f, Some t => [{| conn_from := f; conn_to := t; conn_count := count |}]
              | _, _ => []
              end
            else [])
         (List.seq 0 (List.length (domains cm))))
    (List.seq 0 (List.length (domains cm))).

(** [getTopConnectedDomains(docsPath, limit)]; the default [limit] is 10. *)
Definition getTopConnectedDomains `{NodePath} `{FileSystem} (docsPath : string)
    (limit : nat) : option (list Connection) :=
  match buildDomainConnectionMatrix docsPath with
  | None => None
  | Some cm =>
      Some (List.firstn limit
              (sortBy (fun a b => conn_count b <=? conn_count a) (connectionsOf cm)))
  end.

Record LinkStatistics := {
  totalNodes : nat;
  totalEdges : nat;
  avgInDegree : Q;
  avgOutDegree : Q;
  orphanCount : nat;
  hubCount : nat;
  crossDomainPercentage : Q;
}.

(** The loop that counts cross-domain edges. *)
Definition isCrossDomain (graph : LinkGraph) (edge : LinkEdge) : bool :=
  match domainOfNode (source edge) graph, domainOfNode (target edge) graph with
  | Some a, Some b => negb (bool_decide (a = b))
  | _, _ => false
  end.

Definition statisticsOf (graph : LinkGraph) : LinkStatistics :=
  let totalInDegree := List.fold_left (fun sum n => sum + inDegree n) (nodes graph) 0 in
  let totalOutDegree := List.fold_left (fun sum n => sum + outDegree n) (nodes graph) 0 in
  let orphans := List.length (List.filter (fun n => Nat.eqb (inDegree n) 0) (nodes graph)) in
  let hubs :=
    List.length (List.filter (fun n => (5 <=? inDegree n) || (5 <=? outDegree n))
                             (nodes graph)) in
  let crossDomainEdges :=
    List.fold_left (fun c e => if isCrossDomain graph e then c + 1 else c) (edges graph) 0 in
  let nNodes := List.length (nodes graph) in
  let nEdges := List.length (edges graph) in
  {| totalNodes := nNodes;
     totalEdges := nEdges;
     avgInDegree := if 0 <? nNodes then (Qnat totalInDegree / Qnat nNodes)%Q else 0%Q;
     avgOutDegree := if 0 <? nNodes then (Qnat totalOutDegree / Qnat nNodes)%Q else 0%Q;
     orphanCount := orphans;
     hubCount := hubs;
     crossDomainPercentage :=
       if 0 <? nEdges then (Qnat crossDomainEdges / Qnat nEdges * 100)%Q else 0%Q |}.

(** [getLinkStatistics(docsPath)] *)
Definition getLinkStatistics `{NodePath} `{FileSystem} (docsPath : string)
    : option LinkStatistics :=
  statisticsOf <$> buildLinkGraph docsPath.

End TrackerQueries.

(* ===================================================================== *)
(** * Single-file link checks ([core/links/checker.ts], continued)        *)
(* ===================================================================== *)

Module CheckerQueries.
Import Checker.

Record SingleLinkResult := {
  valid : bool;
  invalidReason : option string;
}.

(** [checkSingleLink(linkUrl, sourceFile, docsPath)] *)
Definition checkSingleLink `{NodePath} `{FileSystem} (linkUrl sourceFile docsPath : string)
    : SingleLinkResult :=
  let fileDir := dirname sourceFile in
  let target := resolveLink linkUrl fileDir docsPath in
  if negb (pathExists target)
  then {| valid := false; invalidReason := Some "Target file does not exist" |}
  else {| valid := true; invalidReason := None |}.

(** [getFileBrokenLinks(filePath, docsPath)]; a file that cannot be read
    rejects the promise. *)
Definition getFileBrokenLinks `{NodePath} `{FileSystem} (filePath docsPath : string)
    : option (list BrokenLink) :=
  match readFile filePath with
  | None => None
  | Some content =>
      let links := Markdown.extractLinks content in
      let fileDir := dirname filePath in
      let relFile := relative docsPath filePath in
      Some (List.fold_left
              (fun brokenLinks link =>
                 if Markdown.isInternal link then
                   if negb (pathExists (resolveLink (Markdown.url link) fileDir docsPath))
                   then brokenLinks ++ [brokenEntry relFile link]
                   else brokenLinks
                 else brokenLinks)
              links [])
  end.

End CheckerQueries.

(* ===================================================================== *)
(** * Domain suggestions and placement ([detector.ts], continued)         *)
(* ===================================================================== *)

Module DetectorQueries.
Import Constants Detector.

(** [keyword.replace(/-/g, '')] *)
Fixpoint removeHyphens (s : string) : string :=
  match s with
  | EmptyString => EmptyString
  | String c s' =>
      if Ascii.eqb c "-"%char then removeHyphens s' else String c (removeHyphens s')
  end.

(** [suggestions.includes(d)] *)
Definition suggested (d : Domain) (suggestions : list Domain) : bool :=
  List.existsb (fun x => bool_decide (x = d)) suggestions.

(** First loop: a domain one of whose keywords, hyphens removed, occurs in
    the base name is appended. *)
Definition suggestByKeyword (baseName : string) (suggestions : list Domain) (d : Domain)
    : list Domain :=
  if List.existsb (fun keyword => JsString.includes (removeHyphens keyword) baseName)
                  (keywords (DOMAIN_DEFINITIONS d))
  then (if suggested d suggestions then suggestions else suggestions ++ [d])
  else suggestions.

(** Second loop: a domain whose name occurs in the base name goes to the
    front, unless it is there already. *)
Definition suggestByName (baseName : string) (suggestions : list Domain) (d : Domain)
    : list Domain :=
  if JsString.includes (domainId d) baseName && negb (suggested d suggestions)
  then d :: suggestions else suggestions.

(** [suggestDomainsForFile(fileName)] *)
Definition suggestDomainsForFile `{NodePath} (fileName : string) : list Domain :=
  let baseName := JsString.toLowerCase (basename fileName ".md") in
  let suggestions := List.fold_left (suggestByKeyword baseName) DOMAINS [] in
  List.fold_left (suggestByName baseName) DOMAINS suggestions.

Record PlacementResult := {
  isCorrect : bool;
  currentDomain : option Domain;
  suggestedDomain : option Domain;
}.

(** [validateDomainPlacement(filePath, docsRoot)] *)
Definition validateDomainPlacement `{NodePath} (filePath docsRoot : string)
    : PlacementResult :=
  let pathResult := detectDomainFromPath filePath docsRoot in
  {| isCorrect := Qle_bool (8 # 10)%Q (confidence pathResult);
     currentDomain := domain pathResult;
     suggestedDomain := domain pathResult |}.

End DetectorQueries.

(* ===================================================================== *)
(** * Generated metadata ([core/metadata/generator.ts])                   *)
(* ===================================================================== *)

Module Generator.

Inductive Audience : Type :=
| AudienceAll | AudienceDevelopers | AudienceDevops | AudienceAdmin.

(** [detectAudience(content)] *)
Definition detectAudience (content : string) : list Audience :=
  let lower := JsString.toLowerCase content in
  let audiences := [] in
  let audiences :=
    if JsString.includes "developer" lower || JsString.includes "coding" lower
       || JsString.includes "api" lower
    then audiences ++ [AudienceDevelopers] else audiences in
  let audiences :=
    if JsString.includes "devops" lower || JsString.includes "deploy" lower
       || JsString.includes "infrastructure" lower
    then audiences ++ [AudienceDevops] else audiences in
  let audiences :=
    if JsString.includes "admin" lower || JsString.includes "configuration" lower
       || JsString.includes "management" lower
    then audiences ++ [AudienceAdmin] else audiences in
  match audiences with
  | [] => [AudienceAll]
  | _ => audiences
  end.

Definition tagKeywords : list string :=
  ["api"; "rest"; "graphql"; "database"; "postgres"; "mysql"; "redis";
   "docker"; "kubernetes"; "aws"; "gcp"; "azure"; "ci/cd"; "testing";
   "security"; "authentication"; "authorization"; "oauth"; "jwt";
   "react"; "vue"; "angular"; "node"; "python"; "typescript"; "javascript";
   "fastapi"; "express"; "django"; "flask"; "nextjs"; "migration";
   "deployment"; "monitoring"; "logging"; "caching"; "performance"].

(** [extractTags(content)]: the keywords found at least twice as whole
    words, in table order, cut to 10. None of the keywords holds a
    character that is special in a pattern. *)
Definition extractTags (content : string) : list string :=
  let lower := JsString.toLowerCase content in
  let tags :=
    List.fold_left
      (fun tags keyword =>
         if 2 <=? RegExp.countMatches RegExp.fl_gi (RegExp.wholeWord keyword) lower
         then tags ++ [keyword] else tags)
      tagKeywords [] in
  List.firstn 10 tags.

End Generator.

(* ===================================================================== *)
(** * Import resolution ([core/discover/dependencies.ts], continued)      *)
(* ===================================================================== *)

Module Imports.
Import RegExp.

(** [/\.[jt]sx?$/] *)
Definition sourceExtensionRe : regex :=
  cats [Lit "."; Class (fun c => Ascii.eqb c "j"%char || Ascii.eqb c "t"%char);
        Lit "s"; opt (Lit "x"); Eol].

(** [s.match(re)] is not null, for a pattern without flags. *)
Definition matches (r : regex) (s : string) : bool :=
  match find fl_g r None s 0 with Some _ => true | None => false end.

(** The loop over the parts of the import path. *)
Definition resolvePart (result : list string) (part : string) : list string :=
  if String.eqb part "." then result
  else if String.eqb part ".." then List.removelast result
  else result ++ [part].

(** [resolveImport(fromFile, importPath)] *)
Definition resolveImport (fromFile importPath : string) : string :=
  let fromDir := JsString.joinWith "/" (List.removelast (JsString.split "/" fromFile)) in
  let parts := JsString.split "/" importPath in
  let result := if JsString.truthy fromDir then JsString.split "/" fromDir else [] in
  let result := List.fold_left resolvePart parts result in
  let resolved := JsString.joinWith "/" result in
  if negb (matches sourceExtensionRe resolved) then resolved +:+ ".ts" else resolved.

End Imports.

(* ===================================================================== *)
(** * Markdown generation ([utils/markdown.ts], continued)                *)
(* ===================================================================== *)

Module MarkdownWriter.

(** [extractInternalLinks(content)] *)
Definition extractInternalLinks (content : string) : list Markdown.MarkdownLink :=
  List.filter Markdown.isInternal (Markdown.extractLinks content).

(** [createLink(text, url, title?)]; an absent or empty title is left out. *)
Definition createLink (text url : string) (title : option string) : string :=
  match title with
  | Some t =>
      if JsString.truthy t then
        "[" +:+ text +:+ "](" +:+ url +:+ " " +:+ String Markdown.dquote t
        +:+ String Markdown.dquote ")"
      else "[" +:+ text +:+ "](" +:+ url +:+ ")"
  | None => "[" +:+ text +:+ "](" +:+ url +:+ ")"
  end.

(** [createBlockquote(text)] *)
Definition createBlockquote (text : string) : string :=
  JsString.joinWith (String "010"%char EmptyString)
    (List.map (fun line => "> " +:+ line) (JsString.split "010" text)).

End MarkdownWriter.

(* ===================================================================== *)
(** * Notions used to state the properties                                *)
(* ===================================================================== *)

Module TierSpec.
Import Classifier.

(** Position of a tier in [TIERS]. *)
Definition tierIndex (t : Tier) : nat :=
  match t with
  | guide => 0 | standard => 1 | example => 2 | reference => 3 | admin => 4
  end.

(** Whole-word matches of the indicator phrases of a tier. *)
Definition indicatorMatches (content : string) (t : Tier) : nat :=
  list_sum
    (List.map
       (fun indicator =>
          RegExp.countMatches RegExp.fl_gi (RegExp.wholeWord indicator)
                              (JsString.toLowerCase content))
       (indicators (TIER_DEFINITIONS t))).

(** Matches of the heading patterns of a tier. *)
Definition headingMatches (content : string) (t : Tier) : nat :=
  list_sum
    (List.map (fun pattern => RegExp.countMatches RegExp.fl_gim pattern content)
              (headingPatterns (TIER_DEFINITIONS t))).

(** The byte size lies in the declared range of the tier: between
    [min] KB and [max] KB, bounds included. *)
Definition sizeInRange (content : string) (t : Tier) : bool :=
  let '(lo, hi) := sizeRange (TIER_DEFINITIONS t) in
  (lo * 1024 <=? String.length content) && (String.length content <=? hi * 1024).

(** What the scoring loop gives a tier: 2 per indicator match, 5 per
    heading match, 10 for a size in range. *)
Definition baseScore (content : string) (t : Tier) : nat :=
  2 * indicatorMatches content t + 5 * headingMatches content t
  + (if sizeInRange content t then 10 else 0).

(** What the global heuristics add to a tier. *)
Definition heuristicBoost (content : string) (t : Tier) : nat :=
  heuristics content noScores t.

(** The highest score, and the highest score once one tier holding it
    is set aside. *)
Fixpoint removeOne (x : nat) (l : list nat) : list nat :=
  match l with
  | [] => []
  | y :: l' => if Nat.eqb x y then l' else y :: removeOne x l'
  end.

Definition topScore (scores : Scores) : nat := list_max (List.map scores TIERS).

Definition secondScore (scores : Scores) : nat :=
  list_max (removeOne (topScore scores) (List.map scores TIERS)).

End TierSpec.

Module GraphSpec.
Import Tracker.

(** Number of edges that point to the node of key [k]. *)
Definition inbound (k : string) (edges : list LinkEdge) : nat :=
  List.length (List.filter (fun e => String.eqb (target e) k) edges).

(** The last segment of a node path. *)
Definition fileName (p : string) : string :=
  JsString.lastOr EmptyString (JsString.split "/" p).

(** The edge a link of [file] gives when its target is [targetPath]. *)
Definition edgeOf `{NodePath} (docsPath file : string)
    (link : Markdown.MarkdownLink) (targetPath : string) : LinkEdge :=
  {| source := relative docsPath file; target := targetPath;
     linkText := Markdown.text link; lineNumber := Markdown.lineNumber link |}.

(** The state of the second pass is coherent: one entry per key, every
    node stored under its own path with its in-degree counting the edges
    that point to it, and every edge pointing to a node. *)
Definition wellFormed (state : list (string * LinkNode) * list LinkEdge) : Prop :=
  let '(nodes, edges) := state in
  List.NoDup (JsMap.keys nodes) /\
  (forall k n, JsMap.get k nodes = Some n ->
               path n = k /\ inDegree n = inbound k edges) /\
  (forall e, In e edges -> JsMap.has (target e) nodes = true).

(** [st'] comes after [st] in the second pass: same keys, more edges,
    coherence kept. *)
Definition extends (st st' : list (string * LinkNode) * list LinkEdge) : Prop :=
  JsMap.keys (fst st') = JsMap.keys (fst st) /\
  (exists new, snd st' = snd st ++ new) /\
  (wellFormed st -> wellFormed st').

End GraphSpec.

Module CheckSpec.
Import Checker.

(** An internal link of a file in [fileDir] whose resolved target is
    missing. *)
Definition isBroken `{NodePath} `{FileSystem} (docsPath fileDir : string)
    (link : Markdown.MarkdownLink) : bool :=
  Markdown.isInternal link
  && negb (pathExists (resolveLink (Markdown.url link) fileDir docsPath)).

(** The broken-link entries of one file: one per broken link, in the
    order of the links; none when the file cannot be read. *)
Definition brokenOfFile `{NodePath} `{FileSystem} (docsPath file : string)
    : list BrokenLink :=
  match readFile file with
  | None => []
  | Some content =>
      List.map (brokenEntry (relative docsPath file))
               (List.filter (isBroken docsPath (dirname file))
                            (Markdown.extractLinks content))
  end.

End CheckSpec.

Module ExtraSpec.
Import Checker.

(** The counters of a link check agree with its lists. *)
Definition countersAgree (r : LinkCheckResult) : Prop :=
  totalLinks r = stats_internalLinks (stats r) + stats_externalLinks (stats r) /\
  validLinks r + List.length (brokenLinks r) = stats_internalLinks (stats r) /\
  List.length (externalLinks r) = stats_externalLinks (stats r) /\
  List.length (crossDomainLinks r) = stats_crossDomainLinks (stats r) /\
  stats_crossDomainLinks (stats r) <= validLinks r.

(** Every record of a link check names one of the files [rels]. *)
Definition sourcesWithin (rels : list string) (r : LinkCheckResult) : Prop :=
  (forall b, In b (brokenLinks r) -> In (sourceFile b) rels) /\
  (forall c, In c (crossDomainLinks r) -> In (cd_sourceFile c) rels) /\
  (forall e, In e (externalLinks r) -> In (ext_sourceFile e) rels).

(** [rel] lies below the folder [d], with either separator. *)
Definition below (d rel : string) : bool :=
  JsString.startsWith (d +:+ "/") rel || JsString.startsWith (d +:+ "\") rel.

End ExtraSpec.

Module GraphExtra.
Import Tracker GraphSpec.

(** Number of edges that leave the node of key [k]. *)
Definition outbound (k : string) (edges : list LinkEdge) : nat :=
  List.length (List.filter (fun e => String.eqb (source e) k) edges).

(** [targetPath] is the path, below [docsPath], of one of [files]. *)
Definition inCorpus `{NodePath} (docsPath : string) (files : list string)
    (targetPath : string) : bool :=
  List.existsb (fun f => String.eqb (relative docsPath f) targetPath) files.

(** The edge of one link: none for an external link, a link without
    path part or a target outside the corpus. *)
Definition linkEdges `{NodePath} (docsPath : string) (files : list string)
    (file : string) (link : Markdown.MarkdownLink) : list LinkEdge :=
  if Markdown.isInternal link then
    match linkTarget docsPath (dirname file) link with
    | Some targetPath =>
        if inCorpus docsPath files targetPath
        then [edgeOf docsPath file link targetPath] else []
    | None => []
    end
  else [].

(** The edges of one file, in the order of its links. *)
Definition fileEdges `{NodePath} `{FileSystem} (docsPath : string) (files : list string)
    (file : string) : list LinkEdge :=
  match readFile file with
  | Some content =>
      List.flat_map (linkEdges docsPath files file) (Markdown.extractLinks content)
  | None => []
  end.

(** Both degrees of every node count its edges, and both ends of every
    edge are nodes. *)
Definition degreesAgree (state : list (string * LinkNode) * list LinkEdge) : Prop :=
  let '(nodes, edges) := state in
  List.NoDup (JsMap.keys nodes) /\
  (forall k n, JsMap.get k nodes = Some n ->
               path n = k /\ Tracker.id n = k
               /\ inDegree n = inbound k edges /\ outDegree n = outbound k edges) /\
  (forall e, In e edges ->
             In (target e) (JsMap.keys nodes) /\ In (source e) (JsMap.keys nodes)).

(** An edge between two nodes that both have a domain. *)
Definition hasDomains (graph : LinkGraph) (e : LinkEdge) : bool :=
  match TrackerQueries.domainOfNode (source e) graph,
        TrackerQueries.domainOfNode (target e) graph with
  | Some _, Some _ => true
  | _, _ => false
  end.

(** Sum of the cells of a matrix. *)
Definition matrixSum (m : list (list nat)) : nat := list_sum (List.map list_sum m).

End GraphExtra.

Module LineSpec.
Import Markdown.

(** The link [link], found [k] lines further down. *)
Definition shiftLines (k : nat) (link : MarkdownLink) : MarkdownLink :=
  {| text := text link; url := url link; title := title link;
     isInternal := isInternal link; lineNumber := lineNumber link + k;
     startIndex := startIndex link; endIndex := endIndex link |}.

(** The character [c] does not occur in [s]. *)
Fixpoint without (c : ascii) (s : string) : bool :=
  match s with
  | EmptyString => true
  | String a s' => negb (Ascii.eqb a c) && without c s'
  end.

(** Every character of [s] passes [p]. *)
Fixpoint allChars (p : ascii -> bool) (s : string) : bool :=
  match s with
  | EmptyString => true
  | String a s' => p a && allChars p s'
  end.

(** The character just read once [t] has been read after [q]. *)
Fixpoint lastOf (t : string) (q : option ascii) : option ascii :=
  match t with
  | EmptyString => q
  | String a t' => lastOf t' (Some a)
  end.

End LineSpec.

Module CycleSpec.
Import Dependencies.

(** Every file of [l] imports the next one. *)
Fixpoint chain (graph : list (string * list string)) (l : list string) : Prop :=
  match l with
  | a :: l' =>
      match l' with
      | b :: _ => In b (importsOf graph a) /\ chain graph l'
      | [] => True
      end
  | [] => True
  end.

(** [c] is a cycle of imports: a chain of distinct files whose last file
    imports the first. *)
Definition isCycle (graph : list (string * list string)) (c : list string) : Prop :=
  match c with
  | [] => False
  | first :: _ =>
      chain graph c /\ In first (importsOf graph (List.last c first)) /\ List.NoDup c
  end.

End CycleSpec.

(* ===================================================================== *)
(** * Concrete platform used to run the code                              *)
(* ===================================================================== *)

(** A process started in [/w]. *)
Definition workdir : string := "/w".
Definition posixPath : NodePath := Posix.path workdir.

(** A small corpus below [/w/docs]: two documents that link to each
    other, one of them with a link to a missing file, and a document
    nothing links to. *)
Definition exampleDocs : list (string * string) :=
  [("/w/docs/security/auth.md",
    "authentication OAuth2 JWT token [API](../api/ref.md) [x](../missing/file.md)");
   ("/w/docs/api/ref.md", "# API [auth](../security/auth.md)");
   ("/w/docs/orphan.md", "nothing links here")].

Definition exampleFS : FileSystem := Posix.fileSystem workdir exampleDocs.

(** Two documents that reference each other. *)
Definition mutualDocs : list (string * string) :=
  [("/w/docs/a.md", "see [b](b.md)"); ("/w/docs/b.md", "see [a](a.md)")].

Definition mutualFS : FileSystem := Posix.fileSystem workdir mutualDocs.

(** Eleven files, each importing itself. *)
Definition selfImports : list (string * list string) :=
  List.map (fun f => (f, [f]))
    ["a.ts"; "b.ts"; "c.ts"; "d.ts"; "e.ts"; "f.ts"; "g.ts"; "h.ts"; "i.ts";
     "j.ts"; "k.ts"].

(** A document that links to [api/ref.md], a file of the corpus, by a
    path from the docs root that is not in normal form. *)
Definition rootLinkDocs : list (string * string) :=
  [("/w/docs/security/auth.md", "[API](/api/../api/ref.md)");
   ("/w/docs/api/ref.md", "# API")].

Definition rootLinkFS : FileSystem := Posix.fileSystem workdir rootLinkDocs.

(** The example corpus and one more file that the glob lists and that
    cannot be read, as a dangling symbolic link: [readFile] rejects and
    [stat] fails. *)
Definition danglingFS : FileSystem := {|
  findMarkdownFiles :=
    @findMarkdownFiles
      (Posix.fileSystem workdir (exampleDocs ++ [("/w/docs/dangling.md", EmptyString)]));
  readFile := @readFile exampleFS;
  pathExists := @pathExists exampleFS;
|}.

(** A document that links to [api/ref.md] with a backslash for the
    separator. *)
Definition backslashDocs : list (string * string) :=
  [("/w/docs/guide.md", "[bs](api\ref.md)");
   ("/w/docs/api/ref.md", "# API")].

Definition backslashFS : FileSystem := Posix.fileSystem workdir backslashDocs.

Definition exampleOptions : Checker.LinkCheckOptions :=
  {| Checker.docsPath := "docs"; Checker.domainFilter := None;
     Checker.checkExternal := false; Checker.silent := true |}.

(* ===================================================================== *)
(** * The repository's unit tests, run on the model                       *)
(* ===================================================================== *)

(** [tests/unit/domains/detector.test.ts] *)
Example test_detect_from_first_segment :
  let r := @Detector.detectDomainFromPath posixPath
             ".documentation/api/endpoints.md" ".documentation" in
  Detector.domain r = Some Constants.api /\ Detector.confidence r = 1%Q.
Proof. vm_compute. split; reflexivity. Qed.

Example test_detect_windows_path :
  Detector.domain (@Detector.detectDomainFromPath posixPath
                     ".documentation\security\auth.md" ".documentation")
  = Some Constants.security.
Proof. vm_compute. reflexivity. Qed.

Example test_detect_from_filename :
  let r := @Detector.detectDomainFromPath posixPath "random/security-guide.md" "." in
  Detector.domain r = Some Constants.security /\ (Detector.confidence r < 1)%Q.
Proof. vm_compute. split; reflexivity. Qed.

Example test_detect_unknown_path :
  Detector.domain (@Detector.detectDomain posixPath "random/path/file.md" None
                     Detector.DEFAULT_DOCS_ROOT)
  = None.
Proof. vm_compute. reflexivity. Qed.

Example test_detect_uses_content :
  let r := @Detector.detectDomain posixPath "docs/guide.md"
             (Some "
# Security Authentication Guide

This guide covers authentication and authorization with OAuth2 and JWT.
Learn how to implement secure authentication patterns.

## OAuth2 Implementation
Configure OAuth2 and authentication for secure access.
Handle secrets and credentials properly.
") Detector.DEFAULT_DOCS_ROOT in
  Detector.domain r = Some Constants.security /\ Detector.method r = Detector.byKeywords.
Proof. vm_compute. split; reflexivity. Qed.

Example test_content_devops :
  Detector.domain (Detector.detectDomainFromContent "
# Docker Deployment

Deploy your application using Docker containers and CI/CD pipelines.
Configure Kubernetes for production.
") = Some Constants.devops.
Proof. vm_compute. reflexivity. Qed.

Example test_content_no_keywords :
  Detector.domain
    (Detector.detectDomainFromContent "Random content with no specific keywords.")
  = None.
Proof. vm_compute. reflexivity. Qed.

(** [tests/unit/links/checker.test.ts] *)
Example test_extract_line_numbers :
  Markdown.lineNumber <$> Markdown.extractLinks "Line 1
Line 2
[Link](./path.md)
Line 4" = [3].
Proof. vm_compute. reflexivity. Qed.

Example test_extract_two_on_a_line :
  List.map Markdown.url
    (Markdown.extractLinks "See [one](./one.md) and [two](./two.md) here.")
  = ["./one.md"; "./two.md"].
Proof. vm_compute. reflexivity. Qed.

Example test_extract_internal_external :
  List.map Markdown.isInternal (Markdown.extractLinks "
[internal](./doc.md)
[external](https://example.com)
") = [true; false].
Proof. vm_compute. reflexivity. Qed.

(** The example corpus: the graph, the broken link and the orphan. *)
Example example_corpus_graph :
  (List.length <$> (Tracker.edges <$> @Tracker.buildLinkGraph posixPath exampleFS "docs"))
    = Some 2 /\
  List.length (Checker.brokenLinks (@Checker.checkLinks posixPath exampleFS exampleOptions)) = 1 /\
  @Tracker.findOrphanFiles posixPath exampleFS "docs" = Some ["orphan.md"].
Proof. vm_compute. repeat split; reflexivity. Qed.

(* ===================================================================== *)
(** * Properties of the domain detector                                   *)
(* ===================================================================== *)

Section DetectorFacts.
Import Constants Detector.
Context `{NP : NodePath}.

Lemma asDomain_domainId (d : Domain) : asDomain (domainId d) = Some d.
Proof. destruct d; reflexivity. Qed.

Lemma isValidDomain_domainId (d : Domain) : isValidDomain (domainId d) = true.
Proof. destruct d; reflexivity. Qed.

Lemma truthy_domainId (d : Domain) : JsString.truthy (domainId d) = true.
Proof. destruct d; reflexivity. Qed.

(** The loop stops at the first part that is a domain id, and reports
    its index. *)
Lemma findDomainPart_first (parts : list string) (i k : nat) (d : Domain) :
  parts !! i = Some (domainId d) ->
  (forall j part, j < i -> parts !! j = Some part -> isValidDomain part = false) ->
  findDomainPart parts k = Some (d, k + i).
Proof.
  revert i k. induction parts as [|part parts IH]; intros i k Hi Hbefore.
  - discriminate.
  - destruct i as [|i]; simpl in *.
    + injection Hi as ->.
      rewrite truthy_domainId, isValidDomain_domainId, asDomain_domainId.
      simpl. f_equal. f_equal. lia.
    + assert (Hpart : isValidDomain part = false)
        by (apply (Hbefore 0); [lia | reflexivity]).
      rewrite Hpart, andb_false_r.
      rewrite (IH i (S k)); [f_equal; f_equal; lia | exact Hi |].
      intros j p Hj Hp. apply (Hbefore (S j) p); [lia | exact Hp].
Qed.

Lemma detectDomainFromPath_at (filePath docsRoot : string) (i : nat) (d : Domain) :
  pathParts filePath docsRoot !! i = Some (domainId d) ->
  (forall j part, j < i -> pathParts filePath docsRoot !! j = Some part ->
                  isValidDomain part = false) ->
  detectDomainFromPath filePath docsRoot =
    {| domain := Some d; confidence := pathConfidence i;
       method := byPath; alternativeDomains := [] |}.
Proof.
  intros Hi Hbefore. unfold detectDomainFromPath.
  rewrite (findDomainPart_first _ i 0 d Hi Hbefore). reflexivity.
Qed.

(** C2. A registered domain id as first segment of the path below the
    docs root gives that domain with confidence exactly 1, whatever
    content is supplied; a first registered domain id at depth [i > 0]
    makes the path phase give that domain with confidence 0.9 - 0.1 * i. *)
Theorem detectDomain_path_segment (filePath docsRoot : string) (i : nat) (d : Domain) :
  pathParts filePath docsRoot !! i = Some (domainId d) ->
  (forall j part, j < i -> pathParts filePath docsRoot !! j = Some part ->
                  isValidDomain part = false) ->
  domain (detectDomainFromPath filePath docsRoot) = Some d /\
  (i = 0 ->
   forall content : option string,
     detectDomain filePath content docsRoot =
       {| domain := Some d; confidence := 1%Q;
          method := byPath; alternativeDomains := [] |}) /\
  (0 < i ->
   (confidence (detectDomainFromPath filePath docsRoot)
    == (9 # 10) - (1 # 10) * Qnat i)%Q).
Proof.
  intros Hi Hbefore.
  pose proof (detectDomainFromPath_at filePath docsRoot i d Hi Hbefore) as Hpath.
  split; [rewrite Hpath; reflexivity | split].
  - intros -> content. unfold detectDomain. rewrite Hpath. reflexivity.
  - intros Hpos. rewrite Hpath. simpl. unfold pathConfidence.
    destruct i as [|i]; [lia |]. simpl Nat.eqb. cbv iota. ring.
Qed.

Lemma detectDomainFromPath_no_alternates (filePath docsRoot : string) :
  alternativeDomains (detectDomainFromPath filePath docsRoot) = [].
Proof.
  unfold detectDomainFromPath.
  destruct (findDomainPart _ 0) as [[d i]|]; [reflexivity |].
  destruct (List.find _ DOMAINS); reflexivity.
Qed.

Lemma detectDomainFromPath_none (filePath docsRoot : string) :
  domain (detectDomainFromPath filePath docsRoot) = None ->
  confidence (detectDomainFromPath filePath docsRoot) = 0%Q.
Proof.
  unfold detectDomainFromPath.
  destruct (findDomainPart _ 0) as [[d i]|]; [discriminate |].
  destruct (List.find _ DOMAINS); [discriminate | reflexivity].
Qed.

Lemma detectDomainFromContent_none (content : string) :
  domain (detectDomainFromContent content) = None ->
  confidence (detectDomainFromContent content) = 0%Q.
Proof.
  unfold detectDomainFromContent.
  destruct (sortedDomains content) as [|[d n] others]; [reflexivity | discriminate].
Qed.

Lemma Qle_bool_false (a b : Q) : Qle_bool a b = false <-> (b < a)%Q.
Proof.
  split; intros Hab.
  - apply Qnot_le_lt. intros Hle. apply Qle_bool_iff in Hle. congruence.
  - destruct (Qle_bool a b) eqn:E; [|reflexivity].
    apply Qle_bool_iff in E. exfalso. exact (Qlt_not_le _ _ Hab E).
Qed.

(** C4, as the code has it. With a path confidence below 0.9 and a
    non-empty content: a content detection of strictly higher confidence
    is returned with the path domain put first in its alternates;
    otherwise a path match is returned as it is, with no alternates;
    without a path match the content detection is returned. When neither
    phase matches the result is domain null with confidence 0. *)
Theorem detectDomain_resolution (filePath c docsRoot : string) :
  let p := detectDomainFromPath filePath docsRoot in
  let cr := detectDomainFromContent c in
  let r := detectDomain filePath (Some c) docsRoot in
  c <> EmptyString ->
  (confidence p < 9 # 10)%Q ->
  (forall d, domain p = Some d -> (confidence p < confidence cr)%Q ->
     domain r = domain cr /\ confidence r = confidence cr /\
     method r = method cr /\
     alternativeDomains r = (d, confidence p) :: alternativeDomains cr) /\
  (forall d, domain p = Some d -> (confidence cr <= confidence p)%Q ->
     r = p /\ alternativeDomains r = []) /\
  (domain p = None -> r = cr) /\
  (domain p = None -> domain cr = None ->
     domain r = None /\ confidence r = 0%Q) /\
  (domain p = None ->
     domain (detectDomain filePath None docsRoot) = None /\
     confidence (detectDomain filePath None docsRoot) = 0%Q).
Proof.
  cbv zeta. intros Hc Hlow. unfold detectDomain. cbv zeta.
  generalize (detectDomainFromPath_no_alternates filePath docsRoot).
  generalize (detectDomainFromPath_none filePath docsRoot).
  generalize (detectDomainFromContent_none c).
  generalize dependent (detectDomainFromPath filePath docsRoot).
  generalize (detectDomainFromContent c).
  intros cr p Hlow Hcnone Hpnone Hpalt.
  assert (Hgate : Qle_bool (9 # 10) (confidence p) = false)
    by (apply Qle_bool_false; exact Hlow).
  assert (Htruthy : JsString.truthy c = true) by (destruct c; [congruence | reflexivity]).
  rewrite Hgate, andb_false_r, Htruthy.
  split; [| split; [| split; [| split]]].
  - intros d Hd Hlt. rewrite Hd.
    apply Qle_bool_false in Hlt. rewrite Hlt. cbn. auto.
  - intros d Hd Hle. rewrite Hd.
    apply Qle_bool_iff in Hle. rewrite Hle. cbn. auto.
  - intros Hnone. rewrite Hnone. reflexivity.
  - intros Hnone Hcr. rewrite Hnone. auto.
  - intros Hnone. auto.
Qed.

End DetectorFacts.

(** The theorem at the path of the repository's first
    [detectDomainFromPath] test: [api] is the first part. *)
Lemma detectDomain_path_segment_witness :
  Detector.domain
    (@Detector.detectDomainFromPath posixPath ".documentation/api/endpoints.md" ".documentation")
  = Some Constants.api.
Proof.
  apply (@detectDomain_path_segment posixPath
           ".documentation/api/endpoints.md" ".documentation" 0 Constants.api).
  - reflexivity.
  - intros j part Hj. lia.
Defined.

(** C3 fails on the code: a domain folder ten levels below the docs root
    gets the confidence 0.9 - 10 * 0.1, which is negative, and without
    content [detectDomain] returns it as it is. *)
Theorem detectDomain_confidence_below_zero :
  let r := @Detector.detectDomain posixPath
             "a/b/c/d/e/f/g/h/i/j/security/x.md" None "." in
  Detector.domain r = Some Constants.security /\
  (Detector.confidence r == - (1 # 10))%Q /\
  ~ (0 <= Detector.confidence r)%Q.
Proof.
  vm_compute. split; [reflexivity | split; [reflexivity |]].
  intros H. apply H. reflexivity.
Qed.

(** C4 as stated fails: the path phase gives [security] with confidence
    0.8, the content phase gives [api] with a lower confidence, the path
    result wins and is returned unchanged, so the losing domain [api] is
    not among its alternates. *)
Lemma detectDomain_path_wins_without_alternate :
  let p := @Detector.detectDomainFromPath posixPath "docs/security/x.md" "." in
  let cr := Detector.detectDomainFromContent "api" in
  let r := @Detector.detectDomain posixPath "docs/security/x.md" (Some "api") "." in
  (Detector.confidence p < 9 # 10)%Q /\
  Detector.domain cr = Some Constants.api /\
  (Detector.confidence cr < Detector.confidence p)%Q /\
  r = p /\
  ~ In Constants.api (List.map fst (Detector.alternativeDomains r)).
Proof.
  vm_compute. repeat split; try reflexivity. intros [].
Qed.

(** The resolution theorem at a path that matches [security] one level
    down (confidence 0.8) with a content that scores lower. *)
Lemma detectDomain_resolution_witness :
  let p := @Detector.detectDomainFromPath posixPath "docs/security/x.md" "." in
  let r := @Detector.detectDomain posixPath "docs/security/x.md" (Some "api") "." in
  r = p /\ Detector.alternativeDomains r = [].
Proof.
  apply (@detectDomain_resolution posixPath "docs/security/x.md" "api" "."
           ltac:(discriminate) ltac:(vm_compute; reflexivity)) with (d := Constants.security).
  - vm_compute. reflexivity.
  - vm_compute. discriminate.
Defined.

(* ===================================================================== *)
(** * Properties of sorting                                               *)
(* ===================================================================== *)

Section SortFacts.
Context {A : Type} (notAfter : A -> A -> bool).

Lemma insertBy_perm (x : A) (l : list A) : Permutation (insertBy notAfter x l) (x :: l).
Proof.
  induction l as [|y l IH]; simpl; [reflexivity |].
  destruct (notAfter x y); [reflexivity |].
  rewrite IH. apply perm_swap.
Qed.

Lemma sortBy_perm (l : list A) : Permutation (sortBy notAfter l) l.
Proof.
  induction l as [|x l IH]; simpl; [reflexivity |].
  rewrite insertBy_perm. apply perm_skip. exact IH.
Qed.

Hypothesis total : forall x y, notAfter x y = true \/ notAfter y x = true.
Hypothesis trans : forall x y z,
  notAfter x y = true -> notAfter y z = true -> notAfter x z = true.

Lemma insertBy_sorted (x : A) (l : list A) :
  StronglySorted (fun a b => notAfter a b = true) l ->
  StronglySorted (fun a b => notAfter a b = true) (insertBy notAfter x l).
Proof.
  induction 1 as [|y l Hs IH Hall]; simpl.
  - constructor; constructor.
  - destruct (notAfter x y) eqn:Hxy.
    + constructor; [constructor; assumption |].
      constructor; [exact Hxy |].
      eapply List.Forall_impl; [| exact Hall]. intros z Hz. eapply trans; eassumption.
    + constructor; [exact IH |].
      eapply Permutation_Forall; [symmetry; apply insertBy_perm |].
      constructor; [| exact Hall].
      destruct (total x y) as [H | H]; [congruence | exact H].
Qed.

Lemma sortBy_sorted (l : list A) :
  StronglySorted (fun a b => notAfter a b = true) (sortBy notAfter l).
Proof.
  induction l as [|x l IH]; simpl; [constructor | apply insertBy_sorted; exact IH].
Qed.

End SortFacts.

Lemma In_firstn {X} (n : nat) (l : list X) (x : X) :
  In x (List.firstn n l) -> In x l.
Proof.
  revert n. induction l as [|y l IH]; intros [|n]; simpl; try tauto.
  intros [H | H]; [left; exact H | right; apply (IH n), H].
Qed.

Lemma sortDescending_perm (l : list nat) : Permutation (sortDescending l) l.
Proof. apply sortBy_perm. Qed.

Lemma StronglySorted_weaken {A} (R R' : A -> A -> Prop) (l : list A) :
  (forall a b, R a b -> R' a b) -> StronglySorted R l -> StronglySorted R' l.
Proof.
  intros HR. induction 1 as [|x l Hs IH Hall]; constructor; [exact IH |].
  eapply List.Forall_impl; [| exact Hall]. intros b. apply HR.
Qed.

Lemma sortDescending_sorted (l : list nat) :
  StronglySorted (fun a b => b <= a) (sortDescending l).
Proof.
  apply StronglySorted_weaken with (R := fun a b => (b <=? a) = true).
  - intros a b H. apply Nat.leb_le. exact H.
  - apply (sortBy_sorted (fun a b => b <=? a)).
    + intros x y. rewrite !Nat.leb_le. lia.
    + intros x y z. rewrite !Nat.leb_le. lia.
Qed.

(* ===================================================================== *)
(** * Properties of the tier classifier                                   *)
(* ===================================================================== *)

Section ClassifierFacts.
Import Classifier TierSpec.

Lemma addScore_at (t : Tier) (n : nat) (s : Scores) (t' : Tier) :
  addScore t n s t' = if decide (t' = t) then s t' + n else s t'.
Proof. reflexivity. Qed.

Lemma fold_addScore {X} (f : X -> nat) (t : Tier) (l : list X) (s : Scores) (t' : Tier) :
  List.fold_left (fun sc x => addScore t (f x) sc) l s t'
  = if decide (t' = t) then s t' + list_sum (List.map f l) else s t'.
Proof.
  revert s. induction l as [|x l IH]; intros s; simpl.
  - destruct (decide (t' = t)); lia.
  - rewrite IH. unfold addScore. destruct (decide (t' = t)); lia.
Qed.

Lemma list_sum_scaled {X} (f : X -> nat) (k : nat) (l : list X) :
  list_sum (List.map (fun x => f x * k) l) = k * list_sum (List.map f l).
Proof. induction l as [|x l IH]; simpl; lia. Qed.

Lemma Qnat_le_sizeKB (lo : nat) (content : string) :
  Qle_bool (Qnat lo) (sizeKB content) = (lo * 1024 <=? String.length content).
Proof.
  apply eq_true_iff_eq. rewrite Qle_bool_iff, Nat.leb_le.
  unfold sizeKB, Qnat, Qle, Qdiv, Qmult, Qinv, inject_Z. simpl.
  rewrite Pos.mul_1_l. lia.
Qed.

Lemma sizeKB_le_Qnat (hi : nat) (content : string) :
  Qle_bool (sizeKB content) (Qnat hi) = (String.length content <=? hi * 1024).
Proof.
  apply eq_true_iff_eq. rewrite Qle_bool_iff, Nat.leb_le.
  unfold sizeKB, Qnat, Qle, Qdiv, Qmult, Qinv, inject_Z. simpl.
  rewrite Pos.mul_1_l. lia.
Qed.

Lemma scoreTier_at (content : string) (s : Scores) (t t' : Tier) :
  scoreTier content s t t'
  = if decide (t' = t) then s t' + baseScore content t else s t'.
Proof.
  unfold scoreTier, baseScore, sizeInRange, indicatorMatches, headingMatches.
  cbv zeta. rewrite Qnat_le_sizeKB, sizeKB_le_Qnat.
  destruct (sizeRange (TIER_DEFINITIONS t)) as [lo hi]. cbn [fst snd].
  destruct (_ && _); rewrite ?addScore_at, !fold_addScore;
    destruct (decide (t' = t)); rewrite ?list_sum_scaled; lia.
Qed.

Lemma scoreTiers_at (content : string) (t : Tier) :
  List.fold_left (scoreTier content) TIERS noScores t = baseScore content t.
Proof.
  unfold TIERS. cbn [List.fold_left]. rewrite !scoreTier_at.
  unfold noScores. destruct t; repeat (destruct (decide _); try congruence); lia.
Qed.

Lemma heuristics_additive (content : string) (s : Scores) (t : Tier) :
  heuristics content s t = s t + heuristicBoost content t.
Proof.
  unfold heuristicBoost, heuristics. cbv zeta.
  destruct (Qgtb _ _); destruct (Qgtb _ _); destruct (_ <? _); destruct (_ <? _);
    unfold addScore, noScores;
    destruct t; repeat (destruct (decide _); try congruence); lia.
Qed.

Lemma removeOne_perm (x : nat) (l : list nat) :
  In x l -> Permutation l (x :: removeOne x l).
Proof.
  induction l as [|y l IH]; intros Hin; [destruct Hin |].
  simpl. destruct (Nat.eqb_spec x y) as [-> | Hne]; [reflexivity |].
  destruct Hin as [-> | Hin]; [congruence |].
  rewrite (IH Hin) at 1. apply perm_swap.
Qed.

Lemma list_max_sorted_head (h : nat) (t : list nat) :
  StronglySorted (fun a b => b <= a) (h :: t) -> list_max (h :: t) = h.
Proof.
  intros Hs. apply StronglySorted_inv in Hs as [_ Hall].
  apply list_max_le in Hall. simpl. lia.
Qed.

(** The first two entries of the sorted scores are the highest value and
    the highest of the others. *)
Lemma sortDescending_top_two (l : list nat) :
  List.nth 0 (sortDescending l) 0 = list_max l /\
  List.nth 1 (sortDescending l) 0 = list_max (removeOne (list_max l) l).
Proof.
  pose proof (sortDescending_perm l) as Hperm.
  pose proof (sortDescending_sorted l) as Hs.
  destruct (sortDescending l) as [|h t].
  - apply Permutation_nil in Hperm. subst l. split; reflexivity.
  - assert (Hmax : list_max l = h).
    { rewrite <- (Permutation_list_max Hperm). apply list_max_sorted_head, Hs. }
    split; [symmetry; exact Hmax |].
    rewrite Hmax.
    assert (Hin : In h l) by (eapply Permutation_in; [exact Hperm | left; reflexivity]).
    pose proof (removeOne_perm h l Hin) as Hrm.
    assert (Ht : Permutation t (removeOne h l)).
    { eapply Permutation_cons_inv. rewrite Hperm. exact Hrm. }
    rewrite <- (Permutation_list_max Ht).
    apply StronglySorted_inv in Hs as [Hs _].
    destruct t as [|h2 t']; [reflexivity |].
    symmetry. apply list_max_sorted_head, Hs.
Qed.

Lemma secondScore_le_topScore (s : Scores) : secondScore s <= topScore s.
Proof.
  unfold secondScore, topScore.
  destruct (sortDescending_top_two (List.map s TIERS)) as [H0 H1].
  rewrite <- H1, <- H0.
  pose proof (sortDescending_sorted (List.map s TIERS)) as Hs.
  destruct (sortDescending (List.map s TIERS)) as [|h [|h2 t]]; simpl; try lia.
  apply StronglySorted_inv in Hs as [_ Hall].
  apply Forall_cons in Hall as [Hh _]. exact Hh.
Qed.

Lemma tierConfidence_formula (s : Scores) :
  tierConfidence s =
    if 0 <? topScore s then
      Qmin ((5 # 10) + ((Qnat (topScore s) - Qnat (secondScore s)) / Qnat (topScore s)) * (3 # 10)
            + (Qnat (topScore s) / 100) * (2 # 10))%Q (95 # 100)%Q
    else (5 # 10)%Q.
Proof.
  unfold tierConfidence, topScore, secondScore. cbv zeta.
  destruct (sortDescending_top_two (List.map s TIERS)) as [-> ->]. reflexivity.
Qed.

Lemma Qnat_nonneg (n : nat) : (0 <= Qnat n)%Q.
Proof. unfold Qnat, Qle. simpl. lia. Qed.

Lemma Qnat_pos (n : nat) : 0 < n -> (0 < Qnat n)%Q.
Proof. intros H. unfold Qnat, Qlt. simpl. lia. Qed.

Lemma Qnat_sub_nonneg (a b : nat) : b <= a -> (0 <= Qnat a - Qnat b)%Q.
Proof. intros H. unfold Qnat, Qle, Qminus, Qplus, Qopp. simpl. lia. Qed.

Lemma tierConfidence_bounds (s : Scores) :
  ((5 # 10) <= tierConfidence s)%Q /\ (tierConfidence s <= 95 # 100)%Q.
Proof.
  rewrite tierConfidence_formula.
  destruct (Nat.ltb_spec 0 (topScore s)) as [Hpos | Hzero].
  - split; [| apply Q.le_min_r].
    apply Q.min_glb; [| unfold Qle; simpl; lia].
    pose proof (secondScore_le_topScore s) as Hle.
    assert (H1 : (0 <= (Qnat (topScore s) - Qnat (secondScore s)) / Qnat (topScore s))%Q).
    { apply Qle_shift_div_l; [apply Qnat_pos, Hpos |].
      rewrite Qmult_0_l. apply Qnat_sub_nonneg, Hle. }
    assert (H2 : (0 <= Qnat (topScore s) / 100)%Q).
    { apply Qle_shift_div_l; [reflexivity |]. rewrite Qmult_0_l. apply Qnat_nonneg. }
    assert (H3 : (0 <= (Qnat (topScore s) - Qnat (secondScore s)) / Qnat (topScore s) * (3 # 10))%Q)
      by (apply Qmult_le_0_compat; [exact H1 | unfold Qle; simpl; lia]).
    assert (H4 : (0 <= Qnat (topScore s) / 100 * (2 # 10))%Q)
      by (apply Qmult_le_0_compat; [exact H2 | unfold Qle; simpl; lia]).
    lra.
  - split; unfold Qle; simpl; lia.
Qed.

Lemma pickWinner_spec (s : Scores) :
  (forall t, s t <= s (snd (pickWinner s))) /\
  (forall t, s t = s (snd (pickWinner s)) ->
             tierIndex (snd (pickWinner s)) <= tierIndex t).
Proof.
  unfold pickWinner, TIERS. cbn [List.fold_left].
  repeat match goal with
         | |- context [if ?a <? ?b then _ else _] =>
             destruct (Nat.ltb_spec a b); cbn [snd fst]
         end;
    split; intros t; destruct t; cbn [tierIndex]; lia.
Qed.

(** C6, as the code has it. Each tier's score is 2 per whole-word
    indicator match, 5 per heading-pattern match, 10 when the byte size
    is within the tier's range, plus the global boosts; the returned tier
    has the highest score; among tiers tied for it the one listed first
    in [TIERS] is returned, so [guide] is returned exactly when no tier
    scores more than it. *)
Theorem classifyTier_winner (content : string) :
  let r := classifyTier content in
  (forall t, scores r t = baseScore content t + heuristicBoost content t) /\
  (forall t, scores r t <= scores r (tier r)) /\
  (forall t, scores r t = scores r (tier r) -> tierIndex (tier r) <= tierIndex t) /\
  (tier r = guide <-> forall t, scores r t <= scores r guide).
Proof.
  cbv zeta. unfold classifyTier. cbn [scores tier].
  destruct (pickWinner_spec (tierScores content)) as [Hmax Hfirst].
  split; [| split; [exact Hmax | split; [exact Hfirst |]]].
  - intros t. unfold tierScores. rewrite heuristics_additive, scoreTiers_at. reflexivity.
  - split.
    + intros Hg. rewrite <- Hg. exact Hmax.
    + intros Hg.
      assert (Heq : tierScores content guide
                    = tierScores content (snd (pickWinner (tierScores content)))).
      { apply Nat.le_antisymm; [apply Hmax | apply Hg]. }
      apply Hfirst in Heq. cbn [tierIndex] in Heq.
      destruct (snd (pickWinner (tierScores content))); cbn [tierIndex] in Heq;
        [reflexivity | lia | lia | lia | lia].
Qed.

(** C7. The confidence is min(0.5 + 0.3 * (top - second) / top
    + 0.2 * top / 100, 0.95) when the highest score [top] is positive,
    exactly 0.5 when it is 0, and so always within [0.5, 0.95];
    [second] is the highest score among the other tiers. *)
Theorem classifyTier_confidence (content : string) :
  let r := classifyTier content in
  let top := topScore (scores r) in
  let second := secondScore (scores r) in
  (0 < top ->
   (confidence r ==
    Qmin ((5 # 10) + (3 # 10) * ((Qnat top - Qnat second) / Qnat top)
          + (2 # 10) * (Qnat top / 100)) (95 # 100))%Q) /\
  (top = 0 -> confidence r = (5 # 10)%Q) /\
  ((5 # 10) <= confidence r)%Q /\ (confidence r <= 95 # 100)%Q.
Proof.
  cbv zeta. unfold classifyTier. cbn [scores confidence].
  split; [| split; [| apply tierConfidence_bounds]].
  - intros Hpos. rewrite tierConfidence_formula.
    apply Nat.ltb_lt in Hpos. rewrite Hpos.
    apply Q.min_compat; [| reflexivity]. ring.
  - intros Hzero. rewrite tierConfidence_formula, Hzero. reflexivity.
Qed.

End ClassifierFacts.

(** C6 as stated fails: in this text [standard] and [example] tie for
    the highest score, 2, and the tier returned is [standard], not
    [guide]. *)
Lemma classifyTier_tie_not_guide :
  let r := Classifier.classifyTier "standard example" in
  Classifier.scores r Classifier.standard = 2 /\
  Classifier.scores r Classifier.example = 2 /\
  (forall t, Classifier.scores r t <= 2) /\
  Classifier.tier r = Classifier.standard /\
  Classifier.tier r <> Classifier.guide.
Proof.
  cbv zeta. split; [| split; [| split; [| split]]].
  - vm_compute. reflexivity.
  - vm_compute. reflexivity.
  - intros t. destruct t; vm_compute; lia.
  - vm_compute. reflexivity.
  - vm_compute. discriminate.
Qed.


(* ===================================================================== *)
(** * Properties of [JsMap]                                               *)
(* ===================================================================== *)

Section JsMapFacts.
Context {K V : Type} `{EqDecision K}.
Implicit Types (m : list (K * V)) (k : K) (v : V).

Lemma has_true_iff k m : JsMap.has k m = true <-> In k (JsMap.keys m).
Proof.
  unfold JsMap.has, JsMap.keys.
  induction m as [|[k' v'] m IH]; simpl; [split; [discriminate | tauto] |].
  destruct (decide (k = k')) as [-> | Hne]; [tauto |].
  rewrite IH. split; [tauto | intros [Heq | Hin]; [congruence | exact Hin]].
Qed.

Lemma has_get k m : JsMap.has k m = true <-> exists v, JsMap.get k m = Some v.
Proof.
  unfold JsMap.has. destruct (JsMap.get k m) as [v|].
  - split; [eauto | reflexivity].
  - split; [discriminate | intros [v Hv]; discriminate].
Qed.

Lemma get_In k v m : JsMap.get k m = Some v -> In (k, v) m.
Proof.
  induction m as [|[k' v'] m IH]; simpl; [discriminate |].
  destruct (decide (k = k')) as [-> | Hne].
  - intros [= ->]. left. reflexivity.
  - intros Hget. right. apply IH, Hget.
Qed.

Lemma In_get k v m : List.NoDup (JsMap.keys m) -> In (k, v) m -> JsMap.get k m = Some v.
Proof.
  unfold JsMap.keys.
  induction m as [|[k' v'] m IH]; simpl; intros Hnd Hin; [destruct Hin |].
  apply NoDup_cons_iff in Hnd as [Hnotin Hnd].
  destruct Hin as [[= -> ->] | Hin].
  - destruct (decide (k = k)); [reflexivity | congruence].
  - destruct (decide (k = k')) as [-> | Hne]; [| apply IH; assumption].
    exfalso. apply Hnotin. apply in_map_iff. exists (k', v). split; [reflexivity | exact Hin].
Qed.

Lemma keys_set k v m :
  JsMap.keys (JsMap.set k v m)
  = if JsMap.has k m then JsMap.keys m else JsMap.keys m ++ [k].
Proof.
  unfold JsMap.has, JsMap.keys.
  induction m as [|[k' v'] m IH]; simpl; [reflexivity |].
  destruct (decide (k = k')) as [-> | Hne]; simpl; [reflexivity |].
  rewrite IH. destruct (JsMap.get k m); reflexivity.
Qed.

Lemma keys_set_NoDup k v m : List.NoDup (JsMap.keys m) -> List.NoDup (JsMap.keys (JsMap.set k v m)).
Proof.
  intros Hnd. rewrite keys_set. destruct (JsMap.has k m) eqn:Hhas; [exact Hnd |].
  apply List.NoDup_app; [exact Hnd | |].
  - constructor; [intros [] | constructor].
  - intros x Hx [<- | []]. apply has_true_iff in Hx. congruence.
Qed.

Lemma get_set k v m k' :
  JsMap.get k' (JsMap.set k v m) = if decide (k' = k) then Some v else JsMap.get k' m.
Proof.
  induction m as [|[k0 v0] m IH]; simpl.
  - destruct (decide (k' = k)); reflexivity.
  - destruct (decide (k = k0)) as [-> | Hne]; simpl.
    + destruct (decide (k' = k0)); reflexivity.
    + destruct (decide (k' = k0)) as [-> | Hne'].
      * destruct (decide (k0 = k)); [congruence | reflexivity].
      * exact IH.
Qed.

Lemma keys_update k (f : V -> V) m : JsMap.keys (JsMap.update k f m) = JsMap.keys m.
Proof.
  unfold JsMap.keys.
  induction m as [|[k' v'] m IH]; simpl; [reflexivity |].
  destruct (decide (k = k')); simpl; [reflexivity | rewrite IH; reflexivity].
Qed.

Lemma get_update k (f : V -> V) m k' :
  JsMap.get k' (JsMap.update k f m)
  = if decide (k' = k) then f <$> JsMap.get k m else JsMap.get k' m.
Proof.
  induction m as [|[k0 v0] m IH]; simpl.
  - destruct (decide (k' = k)); reflexivity.
  - destruct (decide (k = k0)) as [-> | Hne]; simpl.
    + destruct (decide (k' = k0)); reflexivity.
    + destruct (decide (k' = k0)) as [-> | Hne'].
      * destruct (decide (k0 = k)); [congruence | reflexivity].
      * exact IH.
Qed.

Lemma has_update k (f : V -> V) m k' :
  JsMap.has k' (JsMap.update k f m) = JsMap.has k' m.
Proof.
  apply eq_true_iff_eq. rewrite !has_true_iff, keys_update. reflexivity.
Qed.

End JsMapFacts.

(* ===================================================================== *)
(** * Properties of the link graph                                        *)
(* ===================================================================== *)

Section TrackerFacts.
Import Tracker GraphSpec.
Context `{NP : NodePath} `{FS : FileSystem}.
Implicit Types (nodes : list (string * LinkNode)) (edges : list LinkEdge).

Lemma inbound_app (k : string) edges (e : LinkEdge) :
  inbound k (edges ++ [e])
  = inbound k edges + (if String.eqb (target e) k then 1 else 0).
Proof.
  unfold inbound. rewrite List.filter_app, List.length_app. simpl.
  destruct (String.eqb (target e) k); reflexivity.
Qed.

Lemma has_keys_eq nodes nodes' (k : string) :
  JsMap.keys nodes' = JsMap.keys nodes -> JsMap.has k nodes' = JsMap.has k nodes.
Proof.
  intros Hk. apply eq_true_iff_eq. rewrite !has_true_iff, Hk. reflexivity.
Qed.

Lemma extends_refl st : extends st st.
Proof.
  split; [reflexivity | split; [exists []; symmetry; apply List.app_nil_r | tauto]].
Qed.

Lemma extends_trans st1 st2 st3 : extends st1 st2 -> extends st2 st3 -> extends st1 st3.
Proof.
  intros (Hk1 & [n1 He1] & Hw1) (Hk2 & [n2 He2] & Hw2).
  split; [congruence | split; [| tauto]].
  exists (n1 ++ n2). rewrite He2, He1, List.app_assoc. reflexivity.
Qed.

(** First pass. *)
Lemma createNodes_from (docsPath : string) (files : list string) nodes :
  let result :=
    List.fold_left
      (fun nodes file =>
         let relPath := relative docsPath file in
         JsMap.set relPath
           {| id := relPath; path := relPath;
              domain := Detector.domain (Detector.detectDomainFromPath file docsPath);
              inDegree := 0; outDegree := 0 |}
           nodes)
      files nodes in
  (List.NoDup (JsMap.keys nodes) -> List.NoDup (JsMap.keys result)) /\
  ((forall k n, JsMap.get k nodes = Some n -> path n = k /\ inDegree n = 0) ->
   forall k n, JsMap.get k result = Some n -> path n = k /\ inDegree n = 0) /\
  (forall k, In k (JsMap.keys result)
             <-> In k (JsMap.keys nodes) \/ exists f, In f files /\ relative docsPath f = k).
Proof.
  revert nodes. induction files as [|file files IH]; intros nodes; cbn zeta.
  - simpl. split; [tauto | split; [tauto |]].
    intros k. split; [tauto | intros [H | (f & [] & _)]; exact H].
  - cbn [List.fold_left].
    match goal with |- context [List.fold_left ?step files ?m0] =>
      specialize (IH m0); cbv zeta in IH; destruct IH as (IH1 & IH2 & IH3) end.
    split; [| split].
    + intros Hnd. apply IH1, keys_set_NoDup, Hnd.
    + intros Hinv. apply IH2. intros k n. rewrite get_set.
      destruct (decide (k = relative docsPath file)) as [-> | Hne].
      * intros [= <-]. split; reflexivity.
      * apply Hinv.
    + intros k. rewrite IH3, keys_set.
      destruct (JsMap.has (relative docsPath file) nodes) eqn:Hhas.
      * split.
        -- intros [H | (f & Hf & Hrel)]; [tauto | right; exists f; split; [right |]; assumption].
        -- intros [H | (f & [<- | Hf] & Hrel)].
           ++ tauto.
           ++ left. subst k. apply has_true_iff, Hhas.
           ++ right. exists f. tauto.
      * rewrite List.in_app_iff. simpl. split.
        -- intros [[H | [<- | []]] | (f & Hf & Hrel)].
           ++ tauto.
           ++ right. exists file. tauto.
           ++ right. exists f. tauto.
        -- intros [H | (f & [<- | Hf] & Hrel)].
           ++ tauto.
           ++ left. right. left. exact Hrel.
           ++ right. exists f. tauto.
Qed.

Lemma createNodes_keys (docsPath : string) (files : list string) (k : string) :
  In k (JsMap.keys (createNodes docsPath files))
  <-> exists f, In f files /\ relative docsPath f = k.
Proof.
  destruct (createNodes_from docsPath files []) as (_ & _ & H).
  unfold createNodes. rewrite H. simpl. tauto.
Qed.

Lemma createNodes_wellFormed (docsPath : string) (files : list string) :
  wellFormed (createNodes docsPath files, []).
Proof.
  destruct (createNodes_from docsPath files []) as (H1 & H2 & _).
  split; [apply H1; constructor | split].
  - intros k n Hget. apply H2 in Hget; [exact Hget |]. intros k' n' H. discriminate.
  - intros e [].
Qed.

(** Second pass, one link. *)
Lemma addLink_extends (docsPath relPath fileDir : string) st (link : Markdown.MarkdownLink) :
  extends st (addLink docsPath relPath fileDir st link).
Proof.
  destruct st as [nodes edges]. unfold addLink.
  destruct (Markdown.isInternal link); [| apply extends_refl].
  destruct (linkTarget docsPath fileDir link) as [targetPath|]; [| apply extends_refl].
  destruct (JsMap.has targetPath nodes) eqn:Hhas; [| apply extends_refl].
  split; [| split].
  - cbn [fst]. rewrite !keys_update. reflexivity.
  - cbn [snd]. eexists. reflexivity.
  - intros (Hnd & Hinv & Hedges). split; [| split].
    + rewrite !keys_update. exact Hnd.
    + intros k n. rewrite !get_update, inbound_app. cbn [target].
      destruct (decide (k = targetPath)) as [-> | Hne].
      * rewrite String.eqb_refl.
        destruct (decide (targetPath = relPath)) as [-> | Hne'];
          destruct (JsMap.get _ nodes) as [n0|] eqn:Hget; try discriminate;
          intros [= <-]; destruct (Hinv _ _ Hget) as [Hp Hd];
          cbn [incIn incOut path inDegree]; split; [exact Hp | lia | exact Hp | lia].
      * assert (Hneq : String.eqb targetPath k = false)
          by (apply String.eqb_neq; congruence).
        rewrite Hneq.
        destruct (decide (k = relPath)) as [-> | Hne'].
        -- destruct (JsMap.get relPath nodes) as [n0|] eqn:Hget; [| discriminate].
           intros [= <-]. destruct (Hinv _ _ Hget) as [Hp Hd].
           cbn [incOut path inDegree]. split; [exact Hp | lia].
        -- intros Hget. destruct (Hinv _ _ Hget) as [Hp Hd]. split; [exact Hp | lia].
    + intros e Hin. rewrite !has_update. apply List.in_app_iff in Hin as [Hin | [<- | []]].
      * apply Hedges, Hin.
      * exact Hhas.
Qed.

Lemma addLinks_extends (docsPath relPath fileDir : string)
    (links : list Markdown.MarkdownLink) st :
  extends st (List.fold_left (addLink docsPath relPath fileDir) links st).
Proof.
  revert st. induction links as [|link links IH]; intros st; [apply extends_refl |].
  simpl. eapply extends_trans; [apply addLink_extends | apply IH].
Qed.

(** A link to a node appends its edge. *)
Lemma addLink_adds (docsPath relPath fileDir : string) st
    (link : Markdown.MarkdownLink) (targetPath : string) :
  Markdown.isInternal link = true ->
  linkTarget docsPath fileDir link = Some targetPath ->
  JsMap.has targetPath (fst st) = true ->
  In {| source := relPath; target := targetPath;
        linkText := Markdown.text link; lineNumber := Markdown.lineNumber link |}
     (snd (addLink docsPath relPath fileDir st link)).
Proof.
  destruct st as [nodes edges]. cbn [fst]. intros Hint Htarget Hhas.
  unfold addLink. rewrite Hint, Htarget, Hhas. cbn [snd].
  apply List.in_app_iff. right. left. reflexivity.
Qed.

Lemma extends_In st st' (e : LinkEdge) : extends st st' -> In e (snd st) -> In e (snd st').
Proof.
  intros (_ & [new Hnew] & _) Hin. rewrite Hnew. apply List.in_app_iff. left. exact Hin.
Qed.

Lemma addLinks_adds (docsPath relPath fileDir : string)
    (links : list Markdown.MarkdownLink) st
    (link : Markdown.MarkdownLink) (targetPath : string) :
  In link links ->
  Markdown.isInternal link = true ->
  linkTarget docsPath fileDir link = Some targetPath ->
  JsMap.has targetPath (fst st) = true ->
  In {| source := relPath; target := targetPath;
        linkText := Markdown.text link; lineNumber := Markdown.lineNumber link |}
     (snd (List.fold_left (addLink docsPath relPath fileDir) links st)).
Proof.
  intros Hin Hint Htarget Hhas.
  apply List.in_split in Hin as (l1 & l2 & ->).
  rewrite List.fold_left_app. cbn [List.fold_left].
  eapply extends_In; [apply addLinks_extends |].
  apply addLink_adds; [exact Hint | exact Htarget |].
  erewrite has_keys_eq; [exact Hhas |].
  apply (addLinks_extends docsPath relPath fileDir l1 st).
Qed.

(** Second pass, all files: with every file readable it ends in a state
    that extends the one it starts from. *)
Lemma addFiles_extends (docsPath : string) (files : list string) st :
  (forall f, In f files -> is_Some (readFile f)) ->
  exists st', List.fold_left (addFileLinks docsPath) files (Some st) = Some st'
              /\ extends st st'.
Proof.
  revert st. induction files as [|file files IH]; intros st Hread.
  - exists st. split; [reflexivity | apply extends_refl].
  - cbn [List.fold_left]. unfold addFileLinks at 2.
    destruct (Hread file (or_introl eq_refl)) as [content Hcontent]. rewrite Hcontent.
    destruct (IH (List.fold_left
                    (addLink docsPath (relative docsPath file) (dirname file))
                    (Markdown.extractLinks content) st)) as (st' & Hfold & Hext).
    { intros f Hf. apply Hread. right. exact Hf. }
    exists st'. split; [exact Hfold |].
    eapply extends_trans; [apply addLinks_extends | exact Hext].
Qed.

Lemma addFiles_None (docsPath : string) (files : list string) :
  List.fold_left (addFileLinks docsPath) files None = None.
Proof. induction files as [|f files IH]; [reflexivity | exact IH]. Qed.

(** A graph that was built comes from a coherent final state. *)
Lemma buildLinkGraphOver_inv (docsPath : string) (files : list string) (g : LinkGraph) :
  buildLinkGraphOver docsPath files = Some g ->
  exists ns,
    Tracker.nodes g = JsMap.values ns /\
    JsMap.keys ns = JsMap.keys (createNodes docsPath files) /\
    wellFormed (ns, Tracker.edges g).
Proof.
  unfold buildLinkGraphOver.
  assert (Hgen : forall l st,
            match List.fold_left (addFileLinks docsPath) l (Some st) with
            | Some st' => extends st st'
            | None => True
            end).
  { induction l as [|file l IH]; intros st; [apply extends_refl |].
    cbn [List.fold_left]. unfold addFileLinks at 2.
    destruct (readFile file) as [content|]; [| rewrite addFiles_None; exact I].
    specialize (IH (List.fold_left
                      (addLink docsPath (relative docsPath file) (dirname file))
                      (Markdown.extractLinks content) st)).
    destruct (List.fold_left (addFileLinks docsPath) l _) as [st'|]; [| exact I].
    eapply extends_trans; [apply addLinks_extends | exact IH]. }
  specialize (Hgen files (createNodes docsPath files, [])).
  destruct (List.fold_left (addFileLinks docsPath) files _) as [[ns es]|];
    [| discriminate].
  intros [= <-]. exists ns. cbn [Tracker.nodes Tracker.edges].
  destruct Hgen as (Hk & _ & Hw).
  split; [reflexivity | split; [exact Hk |]].
  apply Hw, createNodes_wellFormed.
Qed.

End TrackerFacts.

(* ===================================================================== *)
(** * Properties of link extraction and link checking                     *)
(* ===================================================================== *)

Section CheckerFacts.
Import Checker CheckSpec.
Context `{NP : NodePath} `{FS : FileSystem}.

(** Line numbers are 1-based: the links of the line of index [i] carry
    the number [i + 1]. *)
Lemma linksOfLines_lineNumber (lines : list string) (start : nat)
    (link : Markdown.MarkdownLink) :
  In link (Markdown.linksOfLines lines start) ->
  exists i line, List.nth_error lines i = Some line
                 /\ Markdown.lineNumber link = start + i + 1.
Proof.
  revert start. induction lines as [|line lines IH]; intros start Hin; [destruct Hin |].
  simpl in Hin. apply List.in_app_iff in Hin as [Hin | Hin].
  - apply List.in_map_iff in Hin as (m & <- & _).
    exists 0, line. split; [reflexivity | simpl; lia].
  - destruct (IH _ Hin) as (i & l & Hnth & Hnum).
    exists (S i), l. split; [exact Hnth | lia].
Qed.

(** Every link comes from a match of the link pattern in one line, and
    carries the number of that line, counted from 1. *)
Lemma linksOfLines_match (lines : list string) (start : nat)
    (link : Markdown.MarkdownLink) :
  In link (Markdown.linksOfLines lines start) ->
  exists i line m,
    List.nth_error lines i = Some line /\
    In m (RegExp.matchAll RegExp.fl_g Markdown.linkRegex line) /\
    link = Markdown.linkOfMatch (start + i) m /\
    Markdown.lineNumber link = start + i + 1.
Proof.
  revert start. induction lines as [|line lines IH]; intros start Hin; [destruct Hin |].
  cbn [Markdown.linksOfLines] in Hin. apply List.in_app_iff in Hin as [Hin | Hin].
  - apply List.in_map_iff in Hin as (m & <- & Hm).
    exists 0, line, m. rewrite Nat.add_0_r.
    split; [reflexivity | split; [exact Hm | split; reflexivity]].
  - destruct (IH _ Hin) as (i & l & m & Hnth & Hm & Hlink & Hnum).
    exists (S i), l, m. rewrite Nat.add_succ_r.
    split; [exact Hnth | split; [exact Hm | split; [exact Hlink | lia]]].
Qed.

Lemma extractLinks_lineNumber (content : string) (link : Markdown.MarkdownLink) :
  In link (Markdown.extractLinks content) ->
  exists i line, List.nth_error (JsString.split "010" content) i = Some line
                 /\ Markdown.lineNumber link = i + 1.
Proof. intros Hin. apply linksOfLines_lineNumber in Hin. exact Hin. Qed.

Lemma checkLink_broken (docsPath file relFile fileDir : string)
    (result : LinkCheckResult) (link : Markdown.MarkdownLink) :
  brokenLinks (checkLink docsPath file relFile fileDir result link)
  = brokenLinks result
    ++ (if isBroken docsPath fileDir link then [brokenEntry relFile link] else []).
Proof.
  unfold checkLink, isBroken.
  destruct (Markdown.isInternal link); cbn [andb];
    [destruct (pathExists _)|]; cbn [negb brokenLinks];
    rewrite ?List.app_nil_r; reflexivity.
Qed.

Lemma checkLinks_fold_broken (docsPath file relFile fileDir : string)
    (links : list Markdown.MarkdownLink) (result : LinkCheckResult) :
  brokenLinks (List.fold_left (checkLink docsPath file relFile fileDir) links result)
  = brokenLinks result
    ++ List.map (brokenEntry relFile) (List.filter (isBroken docsPath fileDir) links).
Proof.
  revert result. induction links as [|link links IH]; intros result; simpl.
  - rewrite List.app_nil_r. reflexivity.
  - rewrite IH, checkLink_broken.
    destruct (isBroken docsPath fileDir link); simpl.
    + rewrite <- List.app_assoc. reflexivity.
    + rewrite List.app_nil_r. reflexivity.
Qed.

Lemma checkFile_broken (docsPath : string) (result : LinkCheckResult) (file : string) :
  brokenLinks (checkFile docsPath result file)
  = brokenLinks result ++ brokenOfFile docsPath file.
Proof.
  unfold checkFile, brokenOfFile. destruct (readFile file) as [content|].
  - apply checkLinks_fold_broken.
  - rewrite List.app_nil_r. reflexivity.
Qed.

(** The broken links reported are exactly those of the files checked,
    file by file. *)
Lemma checkLinks_brokenLinks (options : LinkCheckOptions) :
  brokenLinks (checkLinks options)
  = List.flat_map (brokenOfFile (docsPath options)) (filesToCheck options).
Proof.
  unfold checkLinks. cbn [brokenLinks].
  assert (Hgen : forall files result,
            brokenLinks (List.fold_left (checkFile (docsPath options)) files result)
            = brokenLinks result
              ++ List.flat_map (brokenOfFile (docsPath options)) files).
  { induction files as [|file files IH]; intros result; simpl.
    - rewrite List.app_nil_r. reflexivity.
    - rewrite IH, checkFile_broken, <- List.app_assoc. reflexivity. }
  rewrite Hgen. reflexivity.
Qed.

Lemma brokenOfFile_In (docsPath file content : string) (link : Markdown.MarkdownLink) :
  readFile file = Some content ->
  In link (Markdown.extractLinks content) ->
  isBroken docsPath (dirname file) link = true ->
  In (brokenEntry (relative docsPath file) link) (brokenOfFile docsPath file).
Proof.
  intros Hread Hin Hbroken. unfold brokenOfFile. rewrite Hread.
  apply List.in_map, List.filter_In. split; assumption.
Qed.

(** A link whose resolved target exists leaves no entry. *)
Lemma brokenOfFile_nil (docsPath file content : string) :
  readFile file = Some content ->
  (forall link, In link (Markdown.extractLinks content) ->
                Markdown.isInternal link = true ->
                pathExists (resolveLink (Markdown.url link) (dirname file) docsPath) = true) ->
  brokenOfFile docsPath file = [].
Proof.
  intros Hread Hok. unfold brokenOfFile. rewrite Hread.
  induction (Markdown.extractLinks content) as [|link links IH]; [reflexivity |].
  simpl. unfold isBroken at 1.
  destruct (Markdown.isInternal link) eqn:Hint; cbn [andb].
  - rewrite (Hok link (or_introl eq_refl) Hint). cbn [negb].
    apply IH. intros l Hl. apply Hok. right. exact Hl.
  - apply IH. intros l Hl. apply Hok. right. exact Hl.
Qed.

(** C5, as the code has it. An internal link of a checked file whose
    resolved target does not exist is recorded: the broken links are
    exactly one entry per such link, in order, each with the target as
    written, the link text, the 1-based line number and the reason
    "Target file does not exist"; the line number is that of the line in
    which the link pattern matched the link, the first line being line
    1; [checkLinks] always returns a result. What the graph builder does
    with such a link is left out. *)
Theorem checkLinks_records_broken (options : LinkCheckOptions)
    (file content : string) (link : Markdown.MarkdownLink) :
  In file (filesToCheck options) ->
  readFile file = Some content ->
  In link (Markdown.extractLinks content) ->
  Markdown.isInternal link = true ->
  pathExists (resolveLink (Markdown.url link) (dirname file) (docsPath options)) = false ->
  brokenLinks (checkLinks options)
    = List.flat_map (brokenOfFile (docsPath options)) (filesToCheck options) /\
  In {| sourceFile := relative (docsPath options) file;
        targetPath := Markdown.url link;
        lineNumber := Markdown.lineNumber link;
        linkText := Markdown.text link;
        reason := "Target file does not exist" |}
     (brokenLinks (checkLinks options)) /\
  (exists i line m,
     List.nth_error (JsString.split "010" content) i = Some line /\
     In m (RegExp.matchAll RegExp.fl_g Markdown.linkRegex line) /\
     link = Markdown.linkOfMatch i m /\
     Markdown.lineNumber link = i + 1).
Proof.
  intros Hfile Hread Hlink Hint Hmissing.
  split; [apply checkLinks_brokenLinks | split].
  - rewrite checkLinks_brokenLinks. apply List.in_flat_map.
    exists file. split; [exact Hfile |].
    apply (brokenOfFile_In _ _ content); [exact Hread | exact Hlink |].
    unfold isBroken. rewrite Hint, Hmissing. reflexivity.
  - apply (linksOfLines_match _ 0), Hlink.
Qed.

End CheckerFacts.

(** C5 as stated fails on three counts. On the wording of the reason:
    the one broken link of the example corpus is reported with the text
    the code has, which is not "target does not exist". On the files
    covered: a check restricted to the folder [api] does not read
    [security/auth.md] and does not record its broken link. And on the
    edge: the link
    [[bs](api\ref.md)] of [guide.md] resolves, for the link checker, to
    a file [api\ref.md] that does not exist, and is reported broken; the
    graph builder replaces the backslash of the same target by a slash,
    finds the node [api/ref.md] and adds an edge for the link. *)
Lemma checkLinks_wording_and_edge :
  Checker.brokenLinks (@Checker.checkLinks posixPath exampleFS exampleOptions)
  = [{| Checker.sourceFile := "security/auth.md";
        Checker.targetPath := "../missing/file.md";
        Checker.lineNumber := 1;
        Checker.linkText := "x";
        Checker.reason := "Target file does not exist" |}] /\
  List.Forall (fun b => Checker.reason b <> "target does not exist")
    (Checker.brokenLinks (@Checker.checkLinks posixPath exampleFS exampleOptions)) /\
  Checker.brokenLinks
    (@Checker.checkLinks posixPath exampleFS
       {| Checker.docsPath := "docs"; Checker.domainFilter := Some "api";
          Checker.checkExternal := false; Checker.silent := true |}) = [] /\
  (@readFile backslashFS "/w/docs/guide.md" ≫= fun content =>
     Some (Markdown.extractLinks content))
  = Some [{| Markdown.text := "bs"; Markdown.url := "api\ref.md";
             Markdown.title := None; Markdown.isInternal := true;
             Markdown.lineNumber := 1; Markdown.startIndex := 0;
             Markdown.endIndex := 16 |}] /\
  @pathExists backslashFS
    (@Checker.resolveLink posixPath "api\ref.md" "/w/docs" "docs") = false /\
  Checker.brokenLinks (@Checker.checkLinks posixPath backslashFS exampleOptions)
  = [{| Checker.sourceFile := "guide.md";
        Checker.targetPath := "api\ref.md";
        Checker.lineNumber := 1;
        Checker.linkText := "bs";
        Checker.reason := "Target file does not exist" |}] /\
  (Tracker.edges <$> @Tracker.buildLinkGraph posixPath backslashFS "docs")
  = Some [{| Tracker.source := "guide.md"; Tracker.target := "api/ref.md";
             Tracker.linkText := "bs"; Tracker.lineNumber := 1 |}].
Proof.
  split; [vm_compute; reflexivity | split; [| vm_compute; repeat split; reflexivity]].
  apply List.Forall_forall. intros b Hb. vm_compute in Hb.
  destruct Hb as [<- | []]. discriminate.
Qed.

(** The broken link of the example corpus. *)
Lemma checkLinks_records_broken_witness :
  In {| Checker.sourceFile := "security/auth.md";
        Checker.targetPath := "../missing/file.md";
        Checker.lineNumber := 1;
        Checker.linkText := "x";
        Checker.reason := "Target file does not exist" |}
     (Checker.brokenLinks (@Checker.checkLinks posixPath exampleFS exampleOptions)).
Proof.
  apply (@checkLinks_records_broken posixPath exampleFS exampleOptions
           "/w/docs/security/auth.md"
           "authentication OAuth2 JWT token [API](../api/ref.md) [x](../missing/file.md)"
           {| Markdown.text := "x"; Markdown.url := "../missing/file.md";
              Markdown.title := None; Markdown.isInternal := true;
              Markdown.lineNumber := 1; Markdown.startIndex := 53;
              Markdown.endIndex := 76 |}).
  - vm_compute. left. reflexivity.
  - vm_compute. reflexivity.
  - vm_compute. right. left. reflexivity.
  - reflexivity.
  - vm_compute. reflexivity.
Defined.

(* ===================================================================== *)
(** * The link graph: forward references and orphans                      *)
(* ===================================================================== *)

Section GraphClaims.
Import Tracker GraphSpec.
Context `{NP : NodePath} `{FS : FileSystem}.

(** What the two passes do give. When every file can be read, whatever
    the order [files] in which the corpus is processed, the first pass
    gives every file its node before the second pass resolves any link;
    so an internal link whose target, as the builder computes it, is the
    node path of a corpus file gets its edge, also when that file comes
    later in [files] than the one holding the link. *)
Theorem buildLinkGraph_forward_references (docsPath : string) (files : list string)
    (file content : string) (link : Markdown.MarkdownLink) (targetPath : string) :
  Permutation files (findMarkdownFiles docsPath) ->
  (forall f, In f files -> is_Some (readFile f)) ->
  In file files ->
  readFile file = Some content ->
  In link (Markdown.extractLinks content) ->
  Markdown.isInternal link = true ->
  linkTarget docsPath (dirname file) link = Some targetPath ->
  (exists f', In f' (findMarkdownFiles docsPath) /\ relative docsPath f' = targetPath) ->
  exists g,
    buildLinkGraphOver docsPath files = Some g /\
    (forall f, In f (findMarkdownFiles docsPath) ->
               exists n, In n (nodes g) /\ path n = relative docsPath f) /\
    In (edgeOf docsPath file link targetPath) (edges g).
Proof.
  intros Hperm Hread Hfile Hcontent Hlink Hint Htarget (f' & Hf' & Hrel).
  assert (Hkeys : forall f, In f (findMarkdownFiles docsPath) ->
            JsMap.has (relative docsPath f) (createNodes docsPath files) = true).
  { intros f Hf. apply has_true_iff, createNodes_keys. exists f.
    split; [| reflexivity]. eapply Permutation_in; [symmetry; exact Hperm | exact Hf]. }
  destruct (addFiles_extends docsPath files (createNodes docsPath files, []) Hread)
    as ([ns es] & Hfold & Hext).
  exists {| nodes := JsMap.values ns; edges := es |}.
  split; [unfold buildLinkGraphOver; rewrite Hfold; reflexivity | split].
  - intros f Hf. cbn [nodes].
    pose proof (Hkeys f Hf) as Hhas.
    destruct Hext as (Hk & _ & Hw). cbn [fst] in Hk.
    rewrite <- (has_keys_eq _ _ _ Hk) in Hhas.
    apply has_get in Hhas as [n Hn]. exists n. split.
    + apply List.in_map_iff. exists (relative docsPath f, n).
      split; [reflexivity | apply get_In, Hn].
    + destruct (Hw (createNodes_wellFormed docsPath files)) as (_ & Hinv & _).
      apply (Hinv _ _ Hn).
  - cbn [edges].
    apply List.in_split in Hfile as (l1 & l2 & ->).
    rewrite List.fold_left_app in Hfold. cbn [List.fold_left] in Hfold.
    destruct (addFiles_extends docsPath l1 (createNodes docsPath (l1 ++ file :: l2), []))
      as (st1 & Hfold1 & Hext1).
    { intros f Hf. apply Hread, List.in_app_iff. left. exact Hf. }
    rewrite Hfold1 in Hfold. unfold addFileLinks at 2 in Hfold. rewrite Hcontent in Hfold.
    destruct (addFiles_extends docsPath l2
                (List.fold_left (addLink docsPath (relative docsPath file) (dirname file))
                                (Markdown.extractLinks content) st1))
      as (st2 & Hfold2 & Hext2).
    { intros f Hf. apply Hread, List.in_app_iff. right. right. exact Hf. }
    rewrite Hfold2 in Hfold. injection Hfold as ->.
    change es with (snd (ns, es)). eapply extends_In; [exact Hext2 |].
    apply addLinks_adds; [exact Hlink | exact Hint | exact Htarget |].
    erewrite has_keys_eq; [| apply Hext1]. cbn [fst].
    rewrite <- Hrel. apply has_true_iff, createNodes_keys. exists f'.
    split; [| reflexivity]. eapply Permutation_in; [symmetry; exact Hperm | exact Hf'].
Qed.

Lemma inbound_zero (k : string) (es : list LinkEdge) :
  (forall e, In e es -> target e <> k) -> inbound k es = 0.
Proof.
  intros Hnone. unfold inbound. induction es as [|e es IH]; [reflexivity |].
  simpl. destruct (String.eqb_spec (target e) k) as [Heq | Hne].
  - exfalso. apply (Hnone e); [left; reflexivity | exact Heq].
  - apply IH. intros e' He'. apply Hnone. right. exact He'.
Qed.

Lemma orphansOf_In (g : LinkGraph) (p : string) :
  In p (orphansOf g)
  <-> exists n, In n (nodes g) /\ path n = p /\ inDegree n = 0
                /\ ~ In (fileName p) structuralNames.
Proof.
  unfold orphansOf. rewrite List.in_map_iff. split.
  - intros (n & Hp & Hin). apply List.filter_In in Hin as [Hin Hname].
    apply List.filter_In in Hin as [Hin Hdeg].
    exists n. split; [exact Hin | split; [exact Hp | split]].
    + apply Nat.eqb_eq, Hdeg.
    + subst p. apply negb_true_iff in Hname. intros Hstruct.
      assert (Htrue : List.existsb (String.eqb (fileName (path n))) structuralNames = true).
      { apply List.existsb_exists. exists (fileName (path n)).
        split; [exact Hstruct | apply String.eqb_refl]. }
      unfold fileName in Htrue. congruence.
  - intros (n & Hin & Hp & Hdeg & Hname). exists n. split; [exact Hp |].
    apply List.filter_In. split.
    + apply List.filter_In. split; [exact Hin | apply Nat.eqb_eq, Hdeg].
    + apply negb_true_iff. destruct (List.existsb _ structuralNames) eqn:E; [| reflexivity].
      apply List.existsb_exists in E as (x & Hx & Heq).
      apply String.eqb_eq in Heq. exfalso. apply Hname. subst p.
      unfold fileName. rewrite Heq. exact Hx.
Qed.

(** C8. The orphans are exactly the paths of the nodes with in-degree 0
    whose file name is not INDEX.md, REGISTRY.md or README.md; the
    in-degree of a node is the number of edges pointing to it, so a node
    no edge points to, without such a name, is always listed. *)
Theorem findOrphanFiles_spec (docsPath : string) (orphans : list string) :
  findOrphanFiles docsPath = Some orphans ->
  exists g,
    buildLinkGraph docsPath = Some g /\
    (forall p, In p orphans
               <-> exists n, In n (nodes g) /\ path n = p /\ inDegree n = 0
                             /\ ~ In (fileName p) ["INDEX.md"; "REGISTRY.md"; "README.md"]) /\
    (forall n, In n (nodes g) -> inDegree n = inbound (path n) (edges g)) /\
    (forall n, In n (nodes g) ->
               (forall e, In e (edges g) -> target e <> path n) ->
               ~ In (fileName (path n)) ["INDEX.md"; "REGISTRY.md"; "README.md"] ->
               In (path n) orphans).
Proof.
  unfold findOrphanFiles. destruct (buildLinkGraph docsPath) as [g|] eqn:Hg; [| discriminate].
  intros [= <-]. exists g. split; [reflexivity |].
  assert (Hdeg : forall n, In n (nodes g) -> inDegree n = inbound (path n) (edges g)).
  { unfold buildLinkGraph in Hg.
    apply buildLinkGraphOver_inv in Hg as (ns & Hvalues & _ & (Hnd & Hinv & _)).
    intros n Hn. rewrite Hvalues in Hn. apply List.in_map_iff in Hn as ([k n'] & Heq & Hin).
    simpl in Heq. subst n'. apply In_get in Hin; [| exact Hnd].
    destruct (Hinv _ _ Hin) as [-> Hd]. exact Hd. }
  split; [intros p; apply orphansOf_In | split; [exact Hdeg |]].
  intros n Hn Hnone Hname. apply orphansOf_In. exists n.
  split; [exact Hn | split; [reflexivity | split; [| exact Hname]]].
  rewrite (Hdeg n Hn). apply inbound_zero, Hnone.
Qed.

End GraphClaims.

(** The example corpus processed with the linked file last: the link of
    [security/auth.md] to [api/ref.md] is a forward reference. *)
Lemma buildLinkGraph_forward_references_witness :
  exists g,
    @Tracker.buildLinkGraphOver posixPath exampleFS "docs"
      ["/w/docs/orphan.md"; "/w/docs/security/auth.md"; "/w/docs/api/ref.md"] = Some g /\
    In {| Tracker.source := "security/auth.md"; Tracker.target := "api/ref.md";
          Tracker.linkText := "API"; Tracker.lineNumber := 1 |}
       (Tracker.edges g).
Proof.
  destruct (@buildLinkGraph_forward_references posixPath exampleFS "docs"
              ["/w/docs/orphan.md"; "/w/docs/security/auth.md"; "/w/docs/api/ref.md"]
              "/w/docs/security/auth.md"
              "authentication OAuth2 JWT token [API](../api/ref.md) [x](../missing/file.md)"
              {| Markdown.text := "API"; Markdown.url := "../api/ref.md";
                 Markdown.title := None; Markdown.isInternal := true;
                 Markdown.lineNumber := 1; Markdown.startIndex := 32;
                 Markdown.endIndex := 52 |}
              "api/ref.md") as (g & Hg & _ & Hedge).
  - exact (Permutation_cons_append
             ["/w/docs/security/auth.md"; "/w/docs/api/ref.md"] "/w/docs/orphan.md").
  - intros f [<- | [<- | [<- | []]]]; vm_compute; eexists; reflexivity.
  - right. left. reflexivity.
  - vm_compute. reflexivity.
  - vm_compute. left. reflexivity.
  - reflexivity.
  - vm_compute. reflexivity.
  - exists "/w/docs/api/ref.md". split; [vm_compute; tauto | vm_compute; reflexivity].
  - exists g. split; [exact Hg | exact Hedge].
Defined.

(** C1 fails on the code. [security/auth.md] links to [api/ref.md], a
    file of the corpus, by the path [/api/../api/ref.md] from the docs
    root. The link checker joins the path to the docs root, which
    normalises it, finds the file and counts the link valid. The graph
    builder takes the text after the leading slash as it is written,
    finds no node named [api/../api/ref.md] and adds no edge: the two
    nodes are there, the link between them is not. And when one file
    that the glob lists cannot be read, the graph builder gives no graph
    at all, where the link checker skips that file and reports on the
    others. *)
Theorem buildLinkGraph_misses_root_link :
  @findMarkdownFiles rootLinkFS "docs"
  = ["/w/docs/security/auth.md"; "/w/docs/api/ref.md"] /\
  (@readFile rootLinkFS "/w/docs/security/auth.md" ≫= fun content =>
     Some (Markdown.extractLinks content))
  = Some [{| Markdown.text := "API"; Markdown.url := "/api/../api/ref.md";
             Markdown.title := None; Markdown.isInternal := true;
             Markdown.lineNumber := 1; Markdown.startIndex := 0;
             Markdown.endIndex := 25 |}] /\
  @Checker.resolveLink posixPath "/api/../api/ref.md" "/w/docs/security" "docs"
  = "docs/api/ref.md" /\
  @pathExists rootLinkFS "docs/api/ref.md" = true /\
  @relative posixPath "docs" "docs/api/ref.md" = "api/ref.md" /\
  @relative posixPath "docs" "/w/docs/api/ref.md" = "api/ref.md" /\
  Checker.validLinks (@Checker.checkLinks posixPath rootLinkFS exampleOptions) = 1 /\
  Checker.brokenLinks (@Checker.checkLinks posixPath rootLinkFS exampleOptions) = [] /\
  @Tracker.buildLinkGraph posixPath rootLinkFS "docs"
  = Some {| Tracker.nodes :=
              [{| Tracker.id := "security/auth.md"; Tracker.path := "security/auth.md";
                  Tracker.domain := Some Constants.security;
                  Tracker.inDegree := 0; Tracker.outDegree := 0 |};
               {| Tracker.id := "api/ref.md"; Tracker.path := "api/ref.md";
                  Tracker.domain := Some Constants.api;
                  Tracker.inDegree := 0; Tracker.outDegree := 0 |}];
            Tracker.edges := [] |} /\
  @findMarkdownFiles danglingFS "docs"
  = ["/w/docs/security/auth.md"; "/w/docs/api/ref.md"; "/w/docs/orphan.md";
     "/w/docs/dangling.md"] /\
  @readFile danglingFS "/w/docs/dangling.md" = None /\
  @Tracker.buildLinkGraph posixPath danglingFS "docs" = None /\
  Checker.totalFiles (@Checker.checkLinks posixPath danglingFS exampleOptions) = 4 /\
  Checker.validLinks (@Checker.checkLinks posixPath danglingFS exampleOptions) = 2.
Proof. vm_compute. repeat split; reflexivity. Qed.

(** The orphan list of the example corpus. *)
Lemma findOrphanFiles_spec_witness :
  exists g,
    @Tracker.buildLinkGraph posixPath exampleFS "docs" = Some g /\
    (forall n, In n (Tracker.nodes g) ->
               Tracker.inDegree n = GraphSpec.inbound (Tracker.path n) (Tracker.edges g)).
Proof.
  destruct (@findOrphanFiles_spec posixPath exampleFS "docs" ["orphan.md"])
    as (g & Hg & _ & Hdeg & _).
  - vm_compute. reflexivity.
  - exists g. split; [exact Hg | exact Hdeg].
Defined.

(* ===================================================================== *)
(** * Properties of cycle detection                                       *)
(* ===================================================================== *)

Section DependencyFacts.
Import Dependencies.
Implicit Types (graph : list (string * list string)) (st : DfsState).

Lemma key_in_graphNodes graph (node : string) :
  In node (JsMap.keys graph) -> node ∈ graphNodes graph.
Proof.
  intros Hin. unfold graphNodes. apply elem_of_list_to_set, list_elem_of_In.
  apply List.in_app_iff. left. exact Hin.
Qed.

Lemma import_in_graphNodes graph (node imported : string) :
  In imported (importsOf graph node) -> imported ∈ graphNodes graph.
Proof.
  unfold importsOf. destruct (JsMap.get node graph) as [imports|] eqn:Hget; [| intros []].
  intros Hin. unfold graphNodes. apply elem_of_list_to_set, list_elem_of_In.
  apply List.in_app_iff. right. apply List.in_concat. exists imports.
  split; [| exact Hin]. apply get_In in Hget.
  unfold JsMap.values. apply List.in_map_iff. exists (node, imports). split; [reflexivity | exact Hget].
Qed.

(** Folding [dfs] over a list of nodes of the graph succeeds as soon as
    each single call does. *)
Lemma dfs_fold_total (fuel : nat) graph (path : list string) (imports : list string) :
  (forall node st, node ∈ graphNodes graph ->
     size (graphNodes graph ∖ visited st) < fuel ->
     exists st', dfs fuel graph node path st = Some st' /\ visited st ⊆ visited st') ->
  forall st,
    (forall imported, In imported imports -> imported ∈ graphNodes graph) ->
    size (graphNodes graph ∖ visited st) < fuel ->
    exists st',
      List.fold_left
        (fun acc imported =>
           match acc with
           | None => None
           | Some s => dfs fuel graph imported path s
           end)
        imports (Some st) = Some st'
      /\ visited st ⊆ visited st'.
Proof.
  intros Hcall. induction imports as [|imported imports IH]; intros st Hin Hsize.
  - exists st. split; [reflexivity | set_solver].
  - cbn [List.fold_left].
    destruct (Hcall imported st) as (st1 & Hdfs & Hsub);
      [apply Hin; left; reflexivity | exact Hsize |].
    rewrite Hdfs.
    destruct (IH st1) as (st2 & Hfold & Hsub2).
    + intros i Hi. apply Hin. right. exact Hi.
    + eapply Nat.le_lt_trans; [| exact Hsize]. apply subseteq_size. set_solver.
    + exists st2. split; [exact Hfold | set_solver].
Qed.

(** [dfs] returns whenever the recursion bound exceeds the number of
    nodes not yet visited; the visited set only grows. *)
Lemma dfs_total (fuel : nat) graph :
  forall (node : string) (path : list string) st,
    node ∈ graphNodes graph ->
    size (graphNodes graph ∖ visited st) < fuel ->
    exists st', dfs fuel graph node path st = Some st' /\ visited st ⊆ visited st'.
Proof.
  induction fuel as [|fuel IH]; intros node path st Hnode Hsize; [lia |].
  cbn [dfs]. case_bool_decide as Hstack.
  - destruct (indexOf node path); eexists; (split; [reflexivity | cbn; set_solver]).
  - case_bool_decide as Hvisited.
    + exists st. split; [reflexivity | set_solver].
    + destruct (dfs_fold_total fuel graph (path ++ [node]) (importsOf graph node)
                  (fun n0 s1 => IH n0 (path ++ [node]) s1)
                  {| cycles := cycles st;
                     visited := {[node]} ∪ visited st;
                     recursionStack := {[node]} ∪ recursionStack st |})
        as (st2 & Hfold & Hsub).
      * intros imported Hin. eapply import_in_graphNodes, Hin.
      * cbn [visited].
        assert (Hlt : size (graphNodes graph ∖ ({[node]} ∪ visited st))
                      < size (graphNodes graph ∖ visited st)).
        { apply subset_size. split; [set_solver |]. intros Hsub.
          assert (Hin : node ∈ graphNodes graph ∖ visited st) by set_solver.
          apply Hsub in Hin. set_solver. }
        lia.
      * rewrite Hfold. eexists. split; [reflexivity |]. cbn [visited] in *. set_solver.
Qed.

Lemma dfsAll_total graph :
  exists st, dfsAll (S (size (graphNodes graph))) graph = Some st.
Proof.
  unfold dfsAll.
  assert (Hgen : forall nodes st,
            (forall node, In node nodes -> node ∈ graphNodes graph) ->
            exists st',
              List.fold_left
                (fun acc node =>
                   match acc with
                   | None => None
                   | Some st =>
                       if bool_decide (node ∈ visited st) then Some st
                       else dfs (S (size (graphNodes graph))) graph node [] st
                   end)
                nodes (Some st) = Some st').
  { induction nodes as [|node nodes IH]; intros st Hin; [exists st; reflexivity |].
    cbn [List.fold_left]. case_bool_decide.
    - apply IH. intros n Hn. apply Hin. right. exact Hn.
    - destruct (dfs_total (S (size (graphNodes graph))) graph node [] st)
        as (st1 & Hdfs & _).
      + apply Hin. left. reflexivity.
      + apply Nat.lt_succ_r, subseteq_size. set_solver.
      + rewrite Hdfs. apply IH. intros n Hn. apply Hin. right. exact Hn. }
  apply Hgen. intros node Hin. apply key_in_graphNodes, Hin.
Qed.

(** The cycle detection always returns. *)
Lemma detectCircularDependencies_total graph :
  is_Some (detectCircularDependencies graph).
Proof.
  unfold detectCircularDependencies.
  destruct (dfsAll_total graph) as [st ->]. eexists. reflexivity.
Qed.

(** Code-unit order on strings is transitive. *)
Lemma string_leb_trans (a b c : string) :
  String.leb a b = true -> String.leb b c = true -> String.leb a c = true.
Proof.
  unfold String.leb. revert b c.
  induction a as [|x a IH]; intros [|y b] [|z c]; simpl; try congruence.
  unfold Ascii.compare.
  destruct (N.compare_spec (N_of_ascii x) (N_of_ascii y)) as [Hxy | Hxy | Hxy];
    destruct (N.compare_spec (N_of_ascii y) (N_of_ascii z)) as [Hyz | Hyz | Hyz];
    destruct (N.compare_spec (N_of_ascii x) (N_of_ascii z)) as [Hxz | Hxz | Hxz];
    try congruence; try lia.
  apply IH.
Qed.

#[local] Instance string_leb_antisym : AntiSymm eq (fun a b => String.leb a b = true).
Proof. intros a b Hab Hba. apply String.leb_antisym; assumption. Qed.

(** The key does not depend on where the cycle was entered: cycles with
    the same member paths, in any order, have the same key. *)
Lemma cycleKey_canonical (c1 c2 : CircularDependency) :
  Permutation (files c1) (files c2) -> cycleKey c1 = cycleKey c2.
Proof.
  intros Hperm. unfold cycleKey. f_equal.
  apply (StronglySorted_unique (fun a b => String.leb a b = true)).
  - apply sortBy_sorted; [apply String.leb_total | apply string_leb_trans].
  - apply sortBy_sorted; [apply String.leb_total | apply string_leb_trans].
  - rewrite !sortBy_perm. exact Hperm.
Qed.

(** The deduplication loop keeps, in order, the first cycle of each key. *)
Lemma dedup_fold (cs : list CircularDependency) (seen : gset string)
    (u : list CircularDependency) :
  (forall k, k ∈ seen <-> In k (List.map cycleKey u)) ->
  List.NoDup (List.map cycleKey u) ->
  let u' := snd (List.fold_left dedupStep cs (seen, u)) in
  List.NoDup (List.map cycleKey u') /\
  (exists r, u' = u ++ r /\ sublist r cs) /\
  (forall c, In c cs -> In (cycleKey c) (List.map cycleKey u')).
Proof.
  revert seen u. induction cs as [|c cs IH]; intros seen u Hseen Hnd; cbn zeta.
  - simpl. split; [exact Hnd | split; [| intros c []]].
    exists []. split; [symmetry; apply List.app_nil_r | constructor].
  - cbn [List.fold_left].
    replace (dedupStep (seen, u) c)
      with (if bool_decide (cycleKey c ∈ seen) then (seen, u)
            else ({[cycleKey c]} ∪ seen, u ++ [c])) by reflexivity.
    case_bool_decide as Hk.
    + destruct (IH seen u Hseen Hnd) as (H1 & (r & Hr & Hsub) & H3).
      split; [exact H1 | split].
      * exists r. split; [exact Hr | apply sublist_cons, Hsub].
      * intros c' [<- | Hc']; [| apply H3, Hc'].
        rewrite Hr, List.map_app. apply List.in_app_iff. left. apply Hseen, Hk.
    + destruct (IH ({[cycleKey c]} ∪ seen) (u ++ [c])) as (H1 & (r & Hr & Hsub) & H3).
      * intros k. rewrite List.map_app, List.in_app_iff, elem_of_union, elem_of_singleton.
        simpl. rewrite Hseen. split; [intros [-> | H]; tauto | intros [H | [<- | []]]; tauto].
      * rewrite List.map_app. apply List.NoDup_app; [exact Hnd | |].
        -- constructor; [intros [] | constructor].
        -- intros k Hin [<- | []]. apply Hk, Hseen, Hin.
      * split; [exact H1 | split].
        -- exists (c :: r). split; [rewrite Hr, <- List.app_assoc; reflexivity |].
           apply sublist_skip, Hsub.
        -- intros c' [<- | Hc']; [| apply H3, Hc'].
           rewrite Hr, !List.map_app. apply List.in_app_iff. left.
           apply List.in_app_iff. right. left. reflexivity.
Qed.

Lemma uniqueCycles_spec (cs : list CircularDependency) :
  List.NoDup (List.map cycleKey (uniqueCycles cs)) /\
  sublist (uniqueCycles cs) cs /\
  (forall c, In c cs -> In (cycleKey c) (List.map cycleKey (uniqueCycles cs))).
Proof.
  destruct (dedup_fold cs ∅ []) as (H1 & (r & Hr & Hsub) & H3).
  - intros k. simpl. set_solver.
  - constructor.
  - unfold uniqueCycles. split; [exact H1 | split; [| exact H3]].
    rewrite Hr. exact Hsub.
Qed.

Lemma importsOf_two_l (a b : string) : importsOf [(a, [b]); (b, [a])] a = [b].
Proof. unfold importsOf. simpl. rewrite decide_True by reflexivity. reflexivity. Qed.

Lemma importsOf_two_r (a b : string) :
  a <> b -> importsOf [(a, [b]); (b, [a])] b = [a].
Proof.
  intros Hne. unfold importsOf. simpl.
  rewrite decide_False by congruence. rewrite decide_True by reflexivity. reflexivity.
Qed.

(** Two files that import each other: the traversal from the first one
    closes the cycle when it comes back to it, and the second one is
    visited by then. *)
Lemma detectCircularDependencies_two (a b : string) :
  a <> b ->
  detectCircularDependencies [(a, [b]); (b, [a])] = Some [{| files := [a; b] |}].
Proof.
  intros Hne. unfold detectCircularDependencies.
  assert (Hsize : size (graphNodes [(a, [b]); (b, [a])]) = 2).
  { assert (Heq : graphNodes [(a, [b]); (b, [a])] = {[a]} ∪ {[b]}).
    { unfold graphNodes. simpl. set_solver. }
    rewrite Heq, size_union by set_solver. rewrite !size_singleton. reflexivity. }
  rewrite Hsize. unfold dfsAll. cbn [JsMap.keys List.map fst List.fold_left visited].
  rewrite (bool_decide_eq_false_2 (a ∈ (∅ : gset string))) by set_solver.
  cbn [dfs recursionStack visited cycles].
  rewrite (bool_decide_eq_false_2 (a ∈ (∅ : gset string))) by set_solver.
  rewrite importsOf_two_l. cbn [List.fold_left dfs recursionStack visited cycles].
  rewrite (bool_decide_eq_false_2 (b ∈ ({[a]} ∪ ∅ : gset string))) by set_solver.
  rewrite importsOf_two_r by exact Hne.
  cbn [List.fold_left recursionStack visited cycles app indexOf].
  rewrite (bool_decide_eq_true_2 (a ∈ ({[b]} ∪ ({[a]} ∪ ∅) : gset string))) by set_solver.
  rewrite String.eqb_refl. cbn [List.skipn app recursionStack visited cycles].
  rewrite (bool_decide_eq_true_2 (b ∈ ({[b]} ∪ ({[a]} ∪ ∅) : gset string))) by set_solver.
  cbn [cycles]. unfold uniqueCycles. cbn [List.fold_left dedupStep].
  rewrite bool_decide_eq_false_2 by set_solver. reflexivity.
Qed.

(** C10. The cycle detection returns at most 10 cycles: the cycles found
    by the traversal are deduplicated, keeping the order of discovery,
    and the result is the first 10 of them; the others are dropped. *)
Theorem detectCircularDependencies_at_most_ten (graph : list (string * list string)) :
  exists found result dropped,
    dfsAll (S (size (graphNodes graph))) graph = Some found /\
    detectCircularDependencies graph = Some result /\
    List.length result <= 10 /\
    result = List.firstn 10 (uniqueCycles (cycles found)) /\
    uniqueCycles (cycles found) = result ++ dropped /\
    sublist (uniqueCycles (cycles found)) (cycles found) /\
    (List.length (uniqueCycles (cycles found)) <= 10 -> dropped = []).
Proof.
  destruct (dfsAll_total graph) as [found Hfound].
  exists found, (List.firstn 10 (uniqueCycles (cycles found))),
         (List.skipn 10 (uniqueCycles (cycles found))).
  split; [exact Hfound | split; [| split; [| split; [| split; [| split]]]]].
  - unfold detectCircularDependencies. rewrite Hfound. reflexivity.
  - apply List.firstn_le_length.
  - reflexivity.
  - symmetry. apply List.firstn_skipn.
  - apply uniqueCycles_spec.
  - intros Hlen. apply List.skipn_all2. exact Hlen.
Qed.

Lemma chain_snoc graph (path : list string) (node : string) :
  CycleSpec.chain graph path ->
  (path <> [] -> In node (importsOf graph (List.last path node))) ->
  CycleSpec.chain graph (path ++ [node]).
Proof.
  induction path as [|a path IH]; intros Hchain Hlast; [exact I |].
  destruct path as [|b path].
  - split; [| exact I]. apply Hlast. discriminate.
  - destruct Hchain as [Hab Hchain]. split; [exact Hab |].
    apply IH; [exact Hchain |]. intros _. apply Hlast. discriminate.
Qed.

Lemma chain_skipn graph (i : nat) (path : list string) :
  CycleSpec.chain graph path -> CycleSpec.chain graph (List.skipn i path).
Proof.
  revert path. induction i as [|i IH]; intros path Hchain; [exact Hchain |].
  destruct path as [|a path]; [exact I |]. cbn [List.skipn]. apply IH.
  destruct path as [|b path]; [exact I | apply Hchain].
Qed.

Lemma indexOf_skipn (node : string) (path : list string) (i : nat) :
  indexOf node path = Some i ->
  exists rest, List.skipn i path = node :: rest /\
               List.last (List.skipn i path) node = List.last path node.
Proof.
  revert i. induction path as [|a path IH]; intros i; [discriminate |].
  cbn [indexOf]. destruct (String.eqb_spec a node) as [-> | Hne].
  - intros [= <-]. exists path. split; reflexivity.
  - destruct (indexOf node path) as [j|]; [| discriminate].
    intros [= <-]. destruct (IH j eq_refl) as (rest & Hskip & Hlast).
    exists rest. cbn [List.skipn]. split; [exact Hskip |].
    rewrite Hlast. destruct path as [|b path]; [destruct j; discriminate | reflexivity].
Qed.

Lemma NoDup_skipn {X} (i : nat) (l : list X) : List.NoDup l -> List.NoDup (List.skipn i l).
Proof.
  revert l. induction i as [|i IH]; intros l Hnd; [exact Hnd |].
  destruct l as [|x l]; [exact Hnd |]. apply IH.
  apply List.NoDup_cons_iff in Hnd. apply Hnd.
Qed.

(** The traversal keeps the recursion stack equal to the set of the
    files of [path], a chain of imports that leads to [node]; every cycle
    it records is a suffix of such a path, closed by the call. *)
Lemma dfs_sound (fuel : nat) graph :
  forall (node : string) (path : list string) st st',
    List.NoDup path ->
    CycleSpec.chain graph path ->
    (path <> [] -> In node (importsOf graph (List.last path node))) ->
    recursionStack st = list_to_set path ->
    List.Forall (fun c => CycleSpec.isCycle graph (files c)) (cycles st) ->
    dfs fuel graph node path st = Some st' ->
    recursionStack st' = recursionStack st /\
    List.Forall (fun c => CycleSpec.isCycle graph (files c)) (cycles st').
Proof.
  induction fuel as [|fuel IH];
    intros node path st st' Hnd Hchain Hcall Hstack Hsound Hdfs; [discriminate |].
  cbn [dfs] in Hdfs. case_bool_decide as Hrec.
  - destruct (indexOf node path) as [i|] eqn:Hi.
    + injection Hdfs as <-. cbn [recursionStack cycles]. split; [reflexivity |].
      apply List.Forall_app. split; [exact Hsound |].
      constructor; [| constructor]. cbn [files].
      destruct (indexOf_skipn node path i Hi) as (rest & Hskip & Hlast).
      unfold CycleSpec.isCycle. rewrite Hskip. rewrite <- Hskip, Hlast.
      split; [apply chain_skipn, Hchain | split; [| apply NoDup_skipn, Hnd]].
      apply Hcall. intros ->. discriminate.
    + injection Hdfs as <-. split; [reflexivity | exact Hsound].
  - case_bool_decide as Hvis.
    + injection Hdfs as <-. split; [reflexivity | exact Hsound].
    + assert (Hfold : forall imports s s',
                (forall x, In x imports -> In x (importsOf graph node)) ->
                recursionStack s = list_to_set (path ++ [node]) ->
                List.Forall (fun c => CycleSpec.isCycle graph (files c)) (cycles s) ->
                List.fold_left
                  (fun acc imported =>
                     match acc with
                     | None => None
                     | Some s0 => dfs fuel graph imported (path ++ [node]) s0
                     end)
                  imports (Some s) = Some s' ->
                recursionStack s' = list_to_set (path ++ [node]) /\
                List.Forall (fun c => CycleSpec.isCycle graph (files c)) (cycles s')).
      { induction imports as [|imported imports IHl]; intros s s' Hin Hs Hc Hf.
        - injection Hf as <-. split; assumption.
        - cbn [List.fold_left] in Hf.
          destruct (dfs fuel graph imported (path ++ [node]) s) as [s1|] eqn:Hd.
          + destruct (IH imported (path ++ [node]) s s1) as [Hs1 Hc1]; try assumption.
            * apply List.NoDup_app; [exact Hnd | constructor; [intros [] | constructor] |].
              intros x Hx [<- | []]. apply Hrec. rewrite Hstack.
              apply elem_of_list_to_set, list_elem_of_In, Hx.
            * apply chain_snoc; [exact Hchain |]. exact Hcall.
            * intros _. rewrite List.last_last. apply Hin. left. reflexivity.
            * apply (IHl s1 s'); [| congruence | exact Hc1 | exact Hf].
              intros x Hx. apply Hin. right. exact Hx.
          + exfalso. clear -Hf. induction imports as [|x imports IHn]; [discriminate |].
            apply IHn, Hf. }
      destruct (List.fold_left _ (importsOf graph node) _) as [s2|] eqn:Hf; [| discriminate].
      injection Hdfs as <-. cbn [recursionStack cycles].
      apply Hfold in Hf as [Hs2 Hc2].
      * split; [| exact Hc2]. rewrite Hs2, Hstack, list_to_set_app_L.
        cbn [list_to_set]. rewrite Hstack in Hrec. set_solver.
      * intros x Hx. exact Hx.
      * cbn [recursionStack]. rewrite Hstack, list_to_set_app_L. cbn [list_to_set]. set_solver.
      * exact Hsound.
Qed.

Lemma dfsAll_sound (fuel : nat) graph st :
  dfsAll fuel graph = Some st ->
  List.Forall (fun c => CycleSpec.isCycle graph (files c)) (cycles st).
Proof.
  unfold dfsAll.
  assert (Hgen : forall nodes s s',
            recursionStack s = ∅ ->
            List.Forall (fun c => CycleSpec.isCycle graph (files c)) (cycles s) ->
            List.fold_left
              (fun acc node =>
                 match acc with
                 | None => None
                 | Some st =>
                     if bool_decide (node ∈ visited st) then Some st
                     else dfs fuel graph node [] st
                 end)
              nodes (Some s) = Some s' ->
            List.Forall (fun c => CycleSpec.isCycle graph (files c)) (cycles s')).
  { induction nodes as [|node nodes IH]; intros s s' Hs Hc Hf.
    - injection Hf as <-. exact Hc.
    - cbn [List.fold_left] in Hf. case_bool_decide.
      + apply (IH s s'); assumption.
      + destruct (dfs fuel graph node [] s) as [s1|] eqn:Hd.
        * destruct (dfs_sound fuel graph node [] s s1) as [Hs1 Hc1]; try assumption.
          -- constructor.
          -- exact I.
          -- intros Hne. exfalso. apply Hne. reflexivity.
          -- apply (IH s1 s'); [congruence | exact Hc1 | exact Hf].
        * exfalso. clear -Hf. induction nodes as [|x nodes IHn]; [discriminate |].
          apply IHn, Hf. }
  apply Hgen; [reflexivity | constructor].
Qed.

(** X14. The cycle detection always returns, and everything it reports
    is a cycle of the import graph: a non-empty list of distinct files,
    each importing the next and the last importing the first. *)
Theorem detectCircularDependencies_sound graph :
  exists found,
    detectCircularDependencies graph = Some found /\
    forall c, In c found -> CycleSpec.isCycle graph (files c).
Proof.
  unfold detectCircularDependencies.
  destruct (dfsAll_total graph) as [st Hst]. rewrite Hst.
  eexists. split; [reflexivity |].
  intros c Hc. apply In_firstn in Hc.
  apply dfsAll_sound in Hst.
  apply (proj1 (List.Forall_forall _ _) Hst).
  destruct (uniqueCycles_spec (cycles st)) as (_ & Hsub & _).
  apply list_elem_of_In. eapply elem_of_sublist; [| exact Hsub].
  apply list_elem_of_In, Hc.
Qed.

(** X25. No group of files is reported twice: two entries of the result
    whose files are the same up to order, as when one cycle is entered at
    different files, are the same entry. *)
Theorem detectCircularDependencies_distinct graph :
  exists found,
    detectCircularDependencies graph = Some found /\
    forall i j c1 c2,
      found !! i = Some c1 -> found !! j = Some c2 ->
      Permutation (files c1) (files c2) -> i = j.
Proof.
  unfold detectCircularDependencies.
  destruct (dfsAll_total graph) as [st ->].
  eexists. split; [reflexivity |].
  destruct (uniqueCycles_spec (cycles st)) as (Hnd & _ & _).
  revert Hnd. generalize (uniqueCycles (cycles st)). intros unique Hnd i j c1 c2 Hi Hj Hperm.
  assert (Hkeys : List.NoDup (List.map cycleKey (List.firstn 10 unique))).
  { clear -Hnd. revert Hnd. generalize 10. intros n. revert n.
    induction unique as [|c unique IH]; intros [|n] Hnd; cbn [List.firstn List.map];
      try constructor.
    - cbn [List.map] in Hnd. apply List.NoDup_cons_iff in Hnd as [Hnotin _].
      intros Hin. apply Hnotin. apply List.in_map_iff in Hin as (c' & Hkey & Hin).
      apply List.in_map_iff. exists c'. split; [exact Hkey | eapply In_firstn, Hin].
    - apply IH. cbn [List.map] in Hnd. apply List.NoDup_cons_iff in Hnd. apply Hnd. }
  apply NoDup_ListNoDup in Hkeys.
  apply (NoDup_lookup _ i j (cycleKey c1) Hkeys).
  - change (List.map cycleKey (List.firstn 10 unique)) with (cycleKey <$> List.firstn 10 unique).
    rewrite list_lookup_fmap, Hi. reflexivity.
  - change (List.map cycleKey (List.firstn 10 unique)) with (cycleKey <$> List.firstn 10 unique).
    rewrite list_lookup_fmap, Hj. cbn. f_equal. symmetry. apply cycleKey_canonical, Hperm.
Qed.

End DependencyFacts.

(** Eleven distinct cycles are found in [selfImports]; the last one is
    not reported. *)
Example detectCircularDependencies_drops_eleventh :
  List.length <$> Dependencies.detectCircularDependencies selfImports = Some 10 /\
  (forall cs, Dependencies.detectCircularDependencies selfImports = Some cs ->
              ~ In {| Dependencies.files := ["k.ts"] |} cs).
Proof.
  split; [vm_compute; reflexivity |].
  intros cs Hcs. vm_compute in Hcs. injection Hcs as <-.
  intros Hin. repeat (destruct Hin as [Hin | Hin]; [discriminate |]). exact Hin.
Qed.

(* ===================================================================== *)
(** * Mutual references                                                   *)
(* ===================================================================== *)

Section MutualReference.
Import Checker CheckSpec Dependencies.
Context `{NP : NodePath} `{FS : FileSystem}.

(** C9. Two documents A and B, both present, where the links of A lead
    to B and those of B lead to A: the cycle detection on the graph
    A -> B, B -> A returns exactly one cycle; cycles are deduplicated by
    a key that is the same for the same member paths in any order, and
    no two reported cycles share a key; and no broken link is
    reported. *)
Theorem mutual_reference_one_cycle (options : LinkCheckOptions) (fA fB cA cB : string) :
  let a := relative (docsPath options) fA in
  let b := relative (docsPath options) fB in
  a <> b ->
  filesToCheck options = [fA; fB] ->
  readFile fA = Some cA ->
  readFile fB = Some cB ->
  (forall l, In l (Markdown.extractLinks cA) -> Markdown.isInternal l = true ->
             resolveLink (Markdown.url l) (dirname fA) (docsPath options) = fB) ->
  (forall l, In l (Markdown.extractLinks cB) -> Markdown.isInternal l = true ->
             resolveLink (Markdown.url l) (dirname fB) (docsPath options) = fA) ->
  pathExists fA = true ->
  pathExists fB = true ->
  detectCircularDependencies [(a, [b]); (b, [a])] = Some [{| files := [a; b] |}] /\
  (forall c1 c2, Permutation (files c1) (files c2) -> cycleKey c1 = cycleKey c2) /\
  (forall graph cs, detectCircularDependencies graph = Some cs ->
                    List.NoDup (List.map cycleKey cs)) /\
  brokenLinks (checkLinks options) = [].
Proof.
  cbv zeta. intros Hne Hfiles HcA HcB HlinksA HlinksB HexA HexB.
  split; [apply detectCircularDependencies_two, Hne | split; [| split]].
  - apply cycleKey_canonical.
  - intros graph cs. unfold detectCircularDependencies.
    destruct (dfsAll _ graph) as [st|]; [| discriminate]. intros [= <-].
    destruct (uniqueCycles_spec (cycles st)) as (Hnd & _ & _).
    rewrite <- (List.firstn_skipn 10 (uniqueCycles (cycles st))), List.map_app in Hnd.
    apply List.NoDup_app_remove_r in Hnd. exact Hnd.
  - rewrite checkLinks_brokenLinks, Hfiles. cbn [List.flat_map].
    rewrite (brokenOfFile_nil _ fA cA HcA), (brokenOfFile_nil _ fB cB HcB); [reflexivity | |].
    + intros l Hl Hint. rewrite (HlinksB l Hl Hint). exact HexA.
    + intros l Hl Hint. rewrite (HlinksA l Hl Hint). exact HexB.
Qed.

End MutualReference.

(** The two documents of [mutualDocs]. *)
Lemma mutual_reference_one_cycle_witness :
  Dependencies.detectCircularDependencies [("a.md", ["b.md"]); ("b.md", ["a.md"])]
    = Some [{| Dependencies.files := ["a.md"; "b.md"] |}] /\
  Checker.brokenLinks (@Checker.checkLinks posixPath mutualFS exampleOptions) = [].
Proof.
  destruct (@mutual_reference_one_cycle posixPath mutualFS exampleOptions
              "/w/docs/a.md" "/w/docs/b.md" "see [b](b.md)" "see [a](a.md)")
    as (Hcycle & _ & _ & Hbroken).
  - vm_compute. discriminate.
  - vm_compute. reflexivity.
  - vm_compute. reflexivity.
  - vm_compute. reflexivity.
  - intros l Hl _. vm_compute in Hl. destruct Hl as [<- | []]. vm_compute. reflexivity.
  - intros l Hl _. vm_compute in Hl. destruct Hl as [<- | []]. vm_compute. reflexivity.
  - vm_compute. reflexivity.
  - vm_compute. reflexivity.
  - split; [exact Hcycle | exact Hbroken].
Defined.

(* ===================================================================== *)
(** * Further properties of link checking                                 *)
(* ===================================================================== *)

Section CheckerExtras.
Import Checker CheckSpec CheckerQueries ExtraSpec.
Context `{NP : NodePath} `{FS : FileSystem}.

Lemma checkLink_countersAgree (docsPath file relFile fileDir : string)
    (result : LinkCheckResult) (link : Markdown.MarkdownLink) :
  countersAgree result ->
  countersAgree (checkLink docsPath file relFile fileDir result link).
Proof.
  unfold countersAgree, checkLink. intros (H1 & H2 & H3 & H4 & H5).
  destruct (Markdown.isInternal link); [destruct (pathExists _) |]; cbn.
  - match goal with |- context [if ?c then _ else _] => destruct c end;
      rewrite ?List.length_app; cbn; repeat split; lia.
  - rewrite List.length_app. cbn. repeat split; lia.
  - rewrite List.length_app. cbn. repeat split; lia.
Qed.

Lemma checkFile_countersAgree (docsPath : string) (result : LinkCheckResult) (file : string) :
  countersAgree result -> countersAgree (checkFile docsPath result file).
Proof.
  unfold checkFile. destruct (readFile file) as [content|]; [| tauto].
  generalize (Markdown.extractLinks content). intros links. revert result.
  induction links as [|link links IH]; intros result Hok; [exact Hok |].
  cbn [List.fold_left]. apply IH, checkLink_countersAgree, Hok.
Qed.

Lemma checkFiles_countersAgree (docsPath : string) (files : list string)
    (result : LinkCheckResult) :
  countersAgree result ->
  countersAgree (List.fold_left (checkFile docsPath) files result).
Proof.
  revert result. induction files as [|file files IH]; intros result Hok; [exact Hok |].
  cbn [List.fold_left]. apply IH, checkFile_countersAgree, Hok.
Qed.

Lemma checkFiles_totalFiles (docsPath : string) (files : list string)
    (result : LinkCheckResult) :
  totalFiles (List.fold_left (checkFile docsPath) files result) = totalFiles result.
Proof.
  revert result. induction files as [|file files IH]; intros result; [reflexivity |].
  cbn [List.fold_left]. rewrite IH. unfold checkFile.
  destruct (readFile file) as [content|]; [| reflexivity].
  generalize (Markdown.extractLinks content). intros links. revert result.
  induction links as [|link links IHl]; intros result; [reflexivity |].
  cbn [List.fold_left]. rewrite IHl. unfold checkLink.
  destruct (Markdown.isInternal link); [destruct (pathExists _) |]; reflexivity.
Qed.

Lemma checkLinks_countersAgree (options : LinkCheckOptions) :
  countersAgree (checkLinks options).
Proof.
  unfold checkLinks. cbn.
  apply (checkFiles_countersAgree (docsPath options) (filesToCheck options)
           (emptyResult (List.length (filesToCheck options)))).
  unfold countersAgree. cbn. repeat split; lia.
Qed.

(** X1. The counters of a link check agree with what it lists: every
    link is internal or external, every internal link is valid or
    broken, the list lengths are the counters, the cross-domain links are
    among the valid ones, and [totalFiles] is the number of files the
    check covers, readable or not. *)
Theorem checkLinks_counters (options : LinkCheckOptions) :
  let r := checkLinks options in
  totalFiles r = List.length (filesToCheck options) /\
  totalLinks r = stats_internalLinks (stats r) + stats_externalLinks (stats r) /\
  validLinks r + List.length (brokenLinks r) = stats_internalLinks (stats r) /\
  List.length (externalLinks r) = stats_externalLinks (stats r) /\
  List.length (crossDomainLinks r) = stats_crossDomainLinks (stats r) /\
  stats_crossDomainLinks (stats r) <= validLinks r.
Proof.
  cbv zeta. unfold checkLinks. cbn.
  rewrite checkFiles_totalFiles. split; [reflexivity |].
  apply (checkFiles_countersAgree (docsPath options) (filesToCheck options)
           (emptyResult (List.length (filesToCheck options)))).
  unfold countersAgree. cbn. repeat split; lia.
Qed.

(** X2. The broken percentage lies between 0 and 100, and is 0 when
    no internal link was seen. *)
Theorem checkLinks_brokenPercentage (options : LinkCheckOptions) :
  let r := checkLinks options in
  (0 <= stats_brokenPercentage (stats r))%Q /\
  (stats_brokenPercentage (stats r) <= 100)%Q /\
  (stats_internalLinks (stats r) = 0 -> stats_brokenPercentage (stats r) = 0%Q).
Proof.
  cbv zeta.
  destruct (checkLinks_countersAgree options) as (_ & Hvalid & _).
  revert Hvalid. unfold checkLinks. cbn.
  set (result := List.fold_left _ _ _).
  intros Hvalid.
  destruct (stats_internalLinks (stats result)) as [|n] eqn:Hn.
  - split; [apply Qle_refl | split; [discriminate | reflexivity]].
  - assert (Hpos : (0 < Qnat (S n))%Q) by (apply Qnat_pos; lia).
    split; [| split; [| discriminate]].
    + apply Qmult_le_0_compat; [| discriminate].
      apply Qle_shift_div_l; [exact Hpos |].
      rewrite Qmult_0_l. apply Qnat_nonneg.
    + assert (Hle : (Qnat (List.length (brokenLinks result)) / Qnat (S n) <= 1)%Q).
      { apply Qle_shift_div_r; [exact Hpos |].
        rewrite Qmult_1_l. unfold Qnat. rewrite <- Zle_Qle. lia. }
      apply (Qmult_le_compat_r _ _ 100) in Hle; [| discriminate].
      rewrite Qmult_1_l in Hle. exact Hle.
Qed.

Lemma checkLink_sourcesWithin (rels : list string) (docsPath file relFile fileDir : string)
    (result : LinkCheckResult) (link : Markdown.MarkdownLink) :
  In relFile rels ->
  sourcesWithin rels result ->
  sourcesWithin rels (checkLink docsPath file relFile fileDir result link).
Proof.
  unfold sourcesWithin, checkLink. intros Hrel (H1 & H2 & H3).
  destruct (Markdown.isInternal link); [destruct (pathExists _) |]; cbn.
  - split; [exact H1 | split; [| exact H3]].
    match goal with |- context [if ?c then _ else _] => destruct c end; [| exact H2].
    intros c Hc. apply List.in_app_iff in Hc as [Hc | [<- | []]]; [apply H2, Hc | exact Hrel].
  - split; [| split; [exact H2 | exact H3]].
    intros b Hb. apply List.in_app_iff in Hb as [Hb | [<- | []]]; [apply H1, Hb | exact Hrel].
  - split; [exact H1 | split; [exact H2 |]].
    intros e He. apply List.in_app_iff in He as [He | [<- | []]]; [apply H3, He | exact Hrel].
Qed.

Lemma checkFiles_sourcesWithin (rels : list string) (docsPath : string)
    (files : list string) (result : LinkCheckResult) :
  (forall f, In f files -> In (relative docsPath f) rels) ->
  sourcesWithin rels result ->
  sourcesWithin rels (List.fold_left (checkFile docsPath) files result).
Proof.
  revert result. induction files as [|file files IH]; intros result Hrels Hok; [exact Hok |].
  cbn [List.fold_left]. apply IH; [intros f Hf; apply Hrels; right; exact Hf |].
  unfold checkFile. destruct (readFile file) as [content|]; [| exact Hok].
  generalize (Markdown.extractLinks content). intros links. revert result Hok.
  induction links as [|link links IHl]; intros result Hok; [exact Hok |].
  cbn [List.fold_left]. apply IHl, checkLink_sourcesWithin; [| exact Hok].
  apply Hrels. left. reflexivity.
Qed.

(** X3. With a domain filter, everything a link check reports (broken,
    cross-domain and external links) comes from a file below that
    domain folder. *)
Theorem checkLinks_domain_filter (options : LinkCheckOptions) (d : string) :
  domainFilter options = Some d ->
  d <> EmptyString ->
  let r := checkLinks options in
  (forall b, In b (brokenLinks r) -> below d (sourceFile b) = true) /\
  (forall c, In c (crossDomainLinks r) -> below d (cd_sourceFile c) = true) /\
  (forall e, In e (externalLinks r) -> below d (ext_sourceFile e) = true).
Proof.
  intros Hd Hne. cbv zeta.
  assert (Hfiles : forall f, In f (filesToCheck options) ->
            In (relative (docsPath options) f)
               (List.filter (below d)
                  (List.map (relative (docsPath options)) (filesToCheck options)))).
  { intros f Hf. apply List.filter_In. split; [apply List.in_map, Hf |].
    unfold filesToCheck in Hf. rewrite Hd in Hf.
    destruct d; [congruence |]. cbn [JsString.truthy] in Hf.
    apply List.filter_In in Hf as [_ Hf]. exact Hf. }
  pose proof (checkFiles_sourcesWithin _ (docsPath options) (filesToCheck options)
                (emptyResult (List.length (filesToCheck options))) Hfiles) as Hin.
  destruct Hin as (H1 & H2 & H3).
  { unfold sourcesWithin. cbn. repeat split; intros x []. }
  unfold checkLinks. cbn.
  split; [| split].
  - intros b Hb. apply H1, List.filter_In in Hb. apply Hb.
  - intros c Hc. apply H2, List.filter_In in Hc. apply Hc.
  - intros e He. apply H3, List.filter_In in He. apply He.
Qed.

Lemma getFileBrokenLinks_brokenOfFile (filePath docsPath content : string) :
  readFile filePath = Some content ->
  getFileBrokenLinks filePath docsPath = Some (brokenOfFile docsPath filePath).
Proof.
  intros Hread. unfold getFileBrokenLinks, brokenOfFile. rewrite Hread. f_equal.
  generalize (Markdown.extractLinks content). intros links.
  assert (Hgen : forall acc,
    List.fold_left
      (fun brokenLinks link =>
         if Markdown.isInternal link then
           if negb (pathExists (resolveLink (Markdown.url link) (dirname filePath) docsPath))
           then brokenLinks ++ [brokenEntry (relative docsPath filePath) link]
           else brokenLinks
         else brokenLinks) links acc
    = acc ++ List.map (brokenEntry (relative docsPath filePath))
               (List.filter (isBroken docsPath (dirname filePath)) links)).
  { induction links as [|link links IH]; intros acc; cbn [List.fold_left List.filter].
    - cbn. rewrite List.app_nil_r. reflexivity.
    - rewrite IH. unfold isBroken at 2.
      destruct (Markdown.isInternal link); cbn [andb]; [| reflexivity].
      destruct (negb (pathExists _)); [| reflexivity].
      cbn [List.map]. rewrite <- List.app_assoc. reflexivity. }
  apply (Hgen []).
Qed.

(** X4. The per-file check and the whole check agree: the broken links
    of [checkLinks] are those of [getFileBrokenLinks] for each file
    covered, in order, an unreadable file giving none; and
    [getFileBrokenLinks] lists exactly the internal links that
    [checkSingleLink] finds invalid. *)
Theorem checkLinks_per_file (options : LinkCheckOptions) :
  brokenLinks (checkLinks options)
    = List.flat_map
        (fun f => default [] (getFileBrokenLinks f (docsPath options)))
        (filesToCheck options) /\
  (forall filePath content b,
     readFile filePath = Some content ->
     (In b (default [] (getFileBrokenLinks filePath (docsPath options)))
      <-> exists link,
            In link (Markdown.extractLinks content) /\
            Markdown.isInternal link = true /\
            valid (checkSingleLink (Markdown.url link) filePath (docsPath options)) = false /\
            b = brokenEntry (relative (docsPath options) filePath) link)).
Proof.
  split.
  - rewrite checkLinks_brokenLinks.
    induction (filesToCheck options) as [|f files IH]; [reflexivity |].
    cbn [List.flat_map]. rewrite IH. f_equal.
    destruct (readFile f) as [content|] eqn:Hread.
    + rewrite (getFileBrokenLinks_brokenOfFile f _ content Hread). reflexivity.
    + unfold getFileBrokenLinks, brokenOfFile. rewrite Hread. reflexivity.
  - intros filePath content b Hread.
    rewrite (getFileBrokenLinks_brokenOfFile _ _ content Hread). cbn [from_option id].
    unfold brokenOfFile. rewrite Hread. rewrite List.in_map_iff.
    split.
    + intros (link & <- & Hin). apply List.filter_In in Hin as [Hin Hbroken].
      unfold isBroken in Hbroken. apply andb_true_iff in Hbroken as [Hint Hmiss].
      exists link. split; [exact Hin | split; [exact Hint | split; [| reflexivity]]].
      unfold checkSingleLink. rewrite Hmiss. reflexivity.
    + intros (link & Hin & Hint & Hvalid & ->). exists link. split; [reflexivity |].
      apply List.filter_In. split; [exact Hin |].
      unfold isBroken. rewrite Hint. cbn [andb].
      unfold checkSingleLink in Hvalid.
      destruct (negb (pathExists _)); [reflexivity | discriminate].
Qed.

End CheckerExtras.

(* ===================================================================== *)
(** * Further properties of link resolution and of the link graph         *)
(* ===================================================================== *)

Lemma includes_hash_cons (c : ascii) (p : string) :
  JsString.includes "#" (String c p) = false ->
  Ascii.eqb c "#"%char = false /\ JsString.includes "#" p = false.
Proof.
  cbn [JsString.includes]. intros H. apply orb_false_iff in H as [Hpre Hrest].
  split; [| exact Hrest]. cbn [String.prefix] in Hpre.
  destruct (Ascii.ascii_dec "#"%char c) as [<- | Hne].
  - destruct p; discriminate.
  - apply Ascii.eqb_neq. congruence.
Qed.

Lemma append_cons (c : ascii) (s t : string) : String c s +:+ t = String c (s +:+ t).
Proof. reflexivity. Qed.

Lemma append_nil (t : string) : EmptyString +:+ t = t.
Proof. reflexivity. Qed.

(** The part of a target before its anchor. *)
Lemma split_hash_anchor (p anchor : string) :
  JsString.includes "#" p = false ->
  List.hd EmptyString (JsString.split "#" (p +:+ "#" +:+ anchor)) = p /\
  List.hd EmptyString (JsString.split "#" p) = p.
Proof.
  induction p as [|c p IH]; intros Hno.
  - split; reflexivity.
  - apply includes_hash_cons in Hno as [Hc Hp]. destruct (IH Hp) as [IH1 IH2].
    rewrite append_cons. cbn [JsString.split]. rewrite Hc.
    split.
    + destruct (JsString.split "#" (p +:+ "#" +:+ anchor)); cbn in *; congruence.
    + destruct (JsString.split "#" p); cbn in *; congruence.
Qed.

Section ResolveFacts.
Import Checker Tracker.
Context `{NP : NodePath}.

(** X5. The anchor of a link target plays no part in its resolution:
    the link checker and the graph builder resolve [p#anchor] as they
    resolve [p], and the checker resolves a target that is only an anchor
    to the directory of the file. *)
Theorem resolveLink_ignores_anchor (p anchor fileDir docsPath : string)
    (link link' : Markdown.MarkdownLink) :
  JsString.includes "#" p = false ->
  Markdown.url link = p +:+ "#" +:+ anchor ->
  Markdown.url link' = p ->
  resolveLink (p +:+ "#" +:+ anchor) fileDir docsPath = resolveLink p fileDir docsPath /\
  linkTarget docsPath fileDir link = linkTarget docsPath fileDir link' /\
  resolveLink ("#" +:+ anchor) fileDir docsPath = fileDir.
Proof.
  intros Hno Hurl Hurl'. destruct (split_hash_anchor p anchor Hno) as [H1 H2].
  split; [| split].
  - unfold resolveLink. rewrite H1, H2. reflexivity.
  - unfold linkTarget. rewrite Hurl, Hurl', H1, H2. reflexivity.
  - reflexivity.
Qed.

End ResolveFacts.

Section GraphExtras.
Import Tracker GraphSpec GraphExtra TrackerQueries.
Context `{NP : NodePath} `{FS : FileSystem}.

Lemma has_createNodes (docsPath : string) (files : list string) (k : string) :
  JsMap.has k (createNodes docsPath files) = inCorpus docsPath files k.
Proof.
  apply eq_true_iff_eq. rewrite has_true_iff, createNodes_keys.
  unfold inCorpus. rewrite List.existsb_exists.
  split; intros (f & Hf & Hrel); exists f; (split; [exact Hf |]).
  - apply String.eqb_eq, Hrel.
  - apply String.eqb_eq, Hrel.
Qed.

Lemma addLink_edges (docsPath : string) (files : list string) (file : string) st
    (link : Markdown.MarkdownLink) :
  JsMap.keys (fst st) = JsMap.keys (createNodes docsPath files) ->
  snd (addLink docsPath (relative docsPath file) (dirname file) st link)
  = snd st ++ linkEdges docsPath files file link.
Proof.
  destruct st as [ns es]. cbn [fst snd]. intros Hkeys.
  unfold addLink, linkEdges.
  destruct (Markdown.isInternal link); [| symmetry; apply List.app_nil_r].
  destruct (linkTarget docsPath (dirname file) link) as [targetPath|];
    [| symmetry; apply List.app_nil_r].
  rewrite (has_keys_eq _ _ targetPath Hkeys), has_createNodes.
  destruct (inCorpus docsPath files targetPath); [reflexivity |].
  symmetry. apply List.app_nil_r.
Qed.

Lemma addLinks_edges (docsPath : string) (files : list string) (file : string)
    (links : list Markdown.MarkdownLink) st :
  JsMap.keys (fst st) = JsMap.keys (createNodes docsPath files) ->
  snd (List.fold_left (addLink docsPath (relative docsPath file) (dirname file)) links st)
  = snd st ++ List.flat_map (linkEdges docsPath files file) links.
Proof.
  revert st. induction links as [|link links IH]; intros st Hkeys; cbn [List.fold_left].
  - symmetry. apply List.app_nil_r.
  - rewrite IH.
    + rewrite (addLink_edges docsPath files file st link Hkeys).
      rewrite <- List.app_assoc. reflexivity.
    + rewrite <- Hkeys. apply addLink_extends.
Qed.

Lemma addFiles_edges (docsPath : string) (files : list string) (todo : list string) st st' :
  JsMap.keys (fst st) = JsMap.keys (createNodes docsPath files) ->
  List.fold_left (addFileLinks docsPath) todo (Some st) = Some st' ->
  snd st' = snd st ++ List.flat_map (fileEdges docsPath files) todo /\
  (forall f, In f todo -> is_Some (readFile f)).
Proof.
  revert st. induction todo as [|file todo IH]; intros st Hkeys Hfold.
  - injection Hfold as <-. split; [symmetry; apply List.app_nil_r | intros f []].
  - cbn [List.fold_left] in Hfold. unfold addFileLinks at 2 in Hfold.
    destruct (readFile file) as [content|] eqn:Hread;
      [| rewrite addFiles_None in Hfold; discriminate].
    apply IH in Hfold as [Hedges Hreadable].
    + split.
      * rewrite Hedges, (addLinks_edges docsPath files file _ st Hkeys).
        assert (Hfile : fileEdges docsPath files file
                        = List.flat_map (linkEdges docsPath files file)
                                        (Markdown.extractLinks content))
          by (unfold fileEdges; rewrite Hread; reflexivity).
        cbn [List.flat_map]. rewrite Hfile, <- List.app_assoc. reflexivity.
      * intros f [<- | Hf]; [rewrite Hread; eexists; reflexivity | apply Hreadable, Hf].
    + rewrite <- Hkeys. apply addLinks_extends.
Qed.

Lemma graph_edges (docsPath : string) (files : list string) (g : LinkGraph) :
  buildLinkGraphOver docsPath files = Some g ->
  edges g = List.flat_map (fileEdges docsPath files) files /\
  (forall f, In f files -> is_Some (readFile f)).
Proof.
  unfold buildLinkGraphOver.
  destruct (List.fold_left (addFileLinks docsPath) files _) as [[ns es]|] eqn:Hfold;
    [| discriminate].
  intros [= <-]. cbn [edges].
  apply (addFiles_edges docsPath files) in Hfold; [| reflexivity].
  exact Hfold.
Qed.

(** X6. The edges of the graph are exactly the internal links that
    point to a corpus file: file by file and link by link, in order,
    one edge per link, repeated links giving repeated edges; links that
    are external, have no path part or point outside the corpus give
    none. A graph is built only when every file could be read. *)
Theorem buildLinkGraph_edges (docsPath : string) (files : list string) (g : LinkGraph) :
  buildLinkGraphOver docsPath files = Some g ->
  edges g = List.flat_map (fileEdges docsPath files) files /\
  (forall f, In f files -> is_Some (readFile f)).
Proof. apply graph_edges. Qed.

Lemma outbound_app (k : string) (es : list LinkEdge) (e : LinkEdge) :
  outbound k (es ++ [e])
  = outbound k es + (if String.eqb (source e) k then 1 else 0).
Proof.
  unfold outbound. rewrite List.filter_app, List.length_app. simpl.
  destruct (String.eqb (source e) k); reflexivity.
Qed.

Lemma createNodes_fresh (docsPath : string) (files : list string) (k : string) (n : LinkNode) :
  JsMap.get k (createNodes docsPath files) = Some n ->
  path n = k /\ Tracker.id n = k /\ inDegree n = 0 /\ outDegree n = 0.
Proof.
  unfold createNodes.
  assert (Hgen : forall ns,
            (forall k n, JsMap.get k ns = Some n ->
                         path n = k /\ Tracker.id n = k /\ inDegree n = 0 /\ outDegree n = 0) ->
            forall k n,
              JsMap.get k
                (List.fold_left
                   (fun nodes file =>
                      let relPath := relative docsPath file in
                      JsMap.set relPath
                        {| Tracker.id := relPath; path := relPath;
                           domain := Detector.domain
                                       (Detector.detectDomainFromPath file docsPath);
                           inDegree := 0; outDegree := 0 |}
                        nodes)
                   files ns) = Some n ->
              path n = k /\ Tracker.id n = k /\ inDegree n = 0 /\ outDegree n = 0).
  { induction files as [|file files IH]; intros ns Hns; [exact Hns |].
    cbn [List.fold_left]. apply IH. intros k' n'. cbv zeta. rewrite get_set.
    destruct (decide (k' = relative docsPath file)) as [-> | Hne]; [| apply Hns].
    intros [= <-]. repeat split. }
  apply Hgen. intros k' n' H. discriminate.
Qed.

Lemma addLink_degreesAgree (docsPath relPath fileDir : string) st
    (link : Markdown.MarkdownLink) :
  In relPath (JsMap.keys (fst st)) ->
  degreesAgree st ->
  degreesAgree (addLink docsPath relPath fileDir st link).
Proof.
  destruct st as [ns es]. cbn [fst]. intros Hrel Hok. unfold addLink.
  destruct (Markdown.isInternal link); [| exact Hok].
  destruct (linkTarget docsPath fileDir link) as [targetPath|]; [| exact Hok].
  destruct (JsMap.has targetPath ns) eqn:Hhas; [| exact Hok].
  destruct Hok as (Hnd & Hinv & Hedges).
  split; [| split].
  - rewrite !keys_update. exact Hnd.
  - intros k n. rewrite !get_update, inbound_app, outbound_app. cbn [target source].
    destruct (String.eqb_spec targetPath k) as [Htk | Htk];
      destruct (String.eqb_spec relPath k) as [Hrk | Hrk];
      try subst targetPath; try subst relPath;
      repeat match goal with
             | |- context [decide (?a = ?b)] =>
                 destruct (decide (a = b)); try congruence
             end;
      destruct (JsMap.get _ ns) as [node|] eqn:Hget; try discriminate;
      cbn [fmap option_fmap option_map]; intros [= <-];
      destruct (Hinv _ _ Hget) as (Hp & Hi & Hin & Hout);
      cbn [incIn incOut path Tracker.id inDegree outDegree];
      repeat split; try assumption; lia.
  - intros e He. rewrite !keys_update.
    apply List.in_app_iff in He as [He | [<- | []]]; [apply Hedges, He |].
    cbn [target source]. split; [apply has_true_iff, Hhas | exact Hrel].
Qed.

Lemma addFiles_degreesAgree (docsPath : string) (todo : list string) st st' :
  (forall f, In f todo -> In (relative docsPath f) (JsMap.keys (fst st))) ->
  degreesAgree st ->
  List.fold_left (addFileLinks docsPath) todo (Some st) = Some st' ->
  degreesAgree st'.
Proof.
  revert st. induction todo as [|file todo IH]; intros st Hrel Hok Hfold.
  - injection Hfold as <-. exact Hok.
  - cbn [List.fold_left] in Hfold. unfold addFileLinks at 2 in Hfold.
    destruct (readFile file) as [content|]; [| rewrite addFiles_None in Hfold; discriminate].
    assert (Hlinks : forall links st0,
              JsMap.keys (fst st0) = JsMap.keys (fst st) -> degreesAgree st0 ->
              degreesAgree
                (List.fold_left (addLink docsPath (relative docsPath file) (dirname file))
                                links st0)).
    { induction links as [|link links IHl]; intros st0 Hk Hok0; [exact Hok0 |].
      cbn [List.fold_left]. apply IHl.
      - rewrite <- Hk. apply addLink_extends.
      - apply addLink_degreesAgree; [| exact Hok0].
        rewrite Hk. apply Hrel. left. reflexivity. }
    apply IH in Hfold; [exact Hfold | | apply Hlinks; [reflexivity | exact Hok]].
    intros f Hf.
    destruct (addLinks_extends docsPath (relative docsPath file) (dirname file)
                (Markdown.extractLinks content) st) as (Hk & _).
    rewrite Hk. apply Hrel. right. exact Hf.
Qed.

(** The graph that was built: its nodes are the values of a map with the
    keys of the first pass, and the degrees agree with the edges. *)
Lemma buildLinkGraphOver_degrees (docsPath : string) (files : list string) (g : LinkGraph) :
  buildLinkGraphOver docsPath files = Some g ->
  exists ns,
    Tracker.nodes g = JsMap.values ns /\
    JsMap.keys ns = JsMap.keys (createNodes docsPath files) /\
    degreesAgree (ns, Tracker.edges g).
Proof.
  intros Hg.
  destruct (buildLinkGraphOver_inv docsPath files g Hg) as (ns0 & _ & _ & _).
  unfold buildLinkGraphOver in Hg.
  destruct (List.fold_left (addFileLinks docsPath) files _) as [[ns es]|] eqn:Hfold;
    [| discriminate].
  injection Hg as <-. exists ns. cbn [Tracker.nodes Tracker.edges].
  split; [reflexivity |].
  assert (Hreadable : forall f, In f files -> is_Some (readFile f)).
  { apply (addFiles_edges docsPath files) in Hfold; [apply Hfold | reflexivity]. }
  destruct (addFiles_extends docsPath files (createNodes docsPath files, []) Hreadable)
    as (st' & Hfold' & Hk & _).
  rewrite Hfold in Hfold'. injection Hfold' as <-. cbn [fst] in Hk.
  split; [exact Hk |].
  apply (addFiles_degreesAgree docsPath files (createNodes docsPath files, [])); [| | exact Hfold].
  - intros f Hf. cbn [fst]. apply createNodes_keys. exists f. split; [exact Hf | reflexivity].
  - destruct (createNodes_wellFormed docsPath files) as (Hnd & _ & _).
    split; [exact Hnd | split; [| intros e []]].
    intros k n Hget. apply createNodes_fresh in Hget as (Hp & Hi & Hin & Hout).
    repeat split; assumption.
Qed.

Lemma fold_left_sum {X} (f : X -> nat) (l : list X) (a : nat) :
  List.fold_left (fun sum x => sum + f x) l a = a + list_sum (List.map f l).
Proof.
  revert a. induction l as [|x l IH]; intros a; simpl; [lia |]. rewrite IH. lia.
Qed.

(** Counting the edges per key and summing over all keys counts every
    edge once. *)
Lemma count_by_key {E} (proj : E -> string) (ks : list string) (es : list E) :
  List.NoDup ks ->
  (forall e, In e es -> In (proj e) ks) ->
  list_sum (List.map (fun k => List.length (List.filter (fun e => String.eqb (proj e) k) es)) ks)
  = List.length es.
Proof.
  intros Hnd. induction es as [|e es IH]; intros Hin.
  - clear Hin Hnd. simpl. induction ks as [|k ks IHk]; [reflexivity | exact IHk].
  - assert (Hone : list_sum (List.map (fun k => if String.eqb (proj e) k then 1 else 0) ks) = 1).
    { specialize (Hin e (or_introl eq_refl)). clear IH.
      induction ks as [|k ks IHk]; [destruct Hin |].
      apply List.NoDup_cons_iff in Hnd as [Hnotin Hnd]. simpl.
      destruct (String.eqb_spec (proj e) k) as [Heq | Hne].
      - assert (Hzero : list_sum
                  (List.map (fun k0 => if String.eqb (proj e) k0 then 1 else 0) ks) = 0).
        { clear IHk Hin Hnd. induction ks as [|k' ks IH']; [reflexivity |]. simpl.
          destruct (String.eqb_spec (proj e) k') as [Heq' | _].
          - exfalso. apply Hnotin. left. congruence.
          - apply IH'. intros H. apply Hnotin. right. exact H. }
        lia.
      - destruct Hin as [Hin | Hin]; [congruence |]. apply (IHk Hnd Hin). }
    specialize (IH (fun e' He' => Hin e' (or_intror He'))).
    cbn [List.length]. rewrite <- IH, <- Nat.add_1_l, <- Hone. clear.
    induction ks as [|k ks IHk]; [reflexivity |].
    cbn [List.map].
    assert (Hcons : forall a l, list_sum (a :: l) = a + list_sum l) by reflexivity.
    rewrite !Hcons, IHk. cbn [List.filter].
    destruct (String.eqb (proj e) k); cbn [List.length]; lia.
Qed.

Lemma degree_sums (ns : list (string * LinkNode)) (es : list LinkEdge) :
  degreesAgree (ns, es) ->
  list_sum (List.map inDegree (JsMap.values ns)) = List.length es /\
  list_sum (List.map outDegree (JsMap.values ns)) = List.length es.
Proof.
  intros (Hnd & Hinv & Hedges).
  assert (Hmap : forall (f : LinkNode -> nat) (c : string -> nat),
            (forall k n, JsMap.get k ns = Some n -> f n = c k) ->
            List.map f (JsMap.values ns) = List.map c (JsMap.keys ns)).
  { intros f c Hfc. unfold JsMap.values, JsMap.keys. rewrite !List.map_map.
    apply List.map_ext_in. intros [k n] Hin. cbn [fst snd].
    apply Hfc, In_get; assumption. }
  split.
  - rewrite (Hmap inDegree (fun k => inbound k es)); [| intros k n H; apply (Hinv k n H)].
    apply (count_by_key target); [exact Hnd | intros e He; apply Hedges, He].
  - rewrite (Hmap outDegree (fun k => outbound k es)); [| intros k n H; apply (Hinv k n H)].
    apply (count_by_key source); [exact Hnd | intros e He; apply Hedges, He].
Qed.

(** X7. In the statistics of a graph the average in-degree and the
    average out-degree are the same number, edges per node; the orphan
    and hub counts do not exceed the number of nodes; the cross-domain
    percentage lies between 0 and 100. *)
Theorem getLinkStatistics_consistent (docsPath : string) (stats : LinkStatistics) :
  getLinkStatistics docsPath = Some stats ->
  avgInDegree stats = avgOutDegree stats /\
  (0 < totalNodes stats ->
   avgInDegree stats = (Qnat (totalEdges stats) / Qnat (totalNodes stats))%Q) /\
  (totalNodes stats = 0 -> totalEdges stats = 0) /\
  orphanCount stats <= totalNodes stats /\
  hubCount stats <= totalNodes stats /\
  (0 <= crossDomainPercentage stats)%Q /\ (crossDomainPercentage stats <= 100)%Q.
Proof.
  unfold getLinkStatistics, buildLinkGraph.
  destruct (buildLinkGraphOver docsPath (findMarkdownFiles docsPath)) as [g|] eqn:Hg;
    [| discriminate].
  cbn [fmap option_fmap option_map]. intros [= <-].
  destruct (buildLinkGraphOver_degrees _ _ _ Hg) as (ns & Hvalues & _ & Hok).
  destruct (degree_sums _ _ Hok) as [Hin Hout].
  unfold statisticsOf. cbv zeta. rewrite !fold_left_sum, Hvalues, Hin, Hout. cbn.
  rewrite <- Hvalues.
  assert (Hcross : List.fold_left
                     (fun c e => if isCrossDomain g e then c + 1 else c) (edges g) 0
                   <= List.length (edges g)).
  { assert (Hgen : forall es a,
              List.fold_left (fun c e => if isCrossDomain g e then c + 1 else c) es a
              <= a + List.length es).
    { induction es as [|e es IH]; intros a; simpl; [lia |].
      destruct (isCrossDomain g e); etransitivity; try apply IH; lia. }
    apply (Hgen (edges g) 0). }
  split; [reflexivity | split; [| split; [| split; [| split]]]].
  - intros Hpos. destruct (List.length (nodes g)); [lia | reflexivity].
  - intros Hzero. rewrite Hvalues in Hzero. unfold JsMap.values in Hzero.
    rewrite List.length_map in Hzero.
    destruct Hok as (_ & _ & Hedges). destruct (edges g) as [|e es]; [reflexivity |].
    destruct (Hedges e (or_introl eq_refl)) as [Ht _].
    destruct ns; [destruct Ht | discriminate].
  - apply List.filter_length_le.
  - apply List.filter_length_le.
  - set (cross := List.fold_left _ (edges g) 0) in *.
    destruct (List.length (edges g)) as [|m] eqn:Hm.
    + split; [apply Qle_refl | discriminate].
    + assert (Hpos : (0 < Qnat (S m))%Q) by (apply Qnat_pos; lia).
      split.
      * apply Qmult_le_0_compat; [| discriminate].
        apply Qle_shift_div_l; [exact Hpos |]. rewrite Qmult_0_l. apply Qnat_nonneg.
      * assert (Hle : (Qnat cross / Qnat (S m) <= 1)%Q).
        { apply Qle_shift_div_r; [exact Hpos |].
          rewrite Qmult_1_l. unfold Qnat. rewrite <- Zle_Qle. lia. }
        apply (Qmult_le_compat_r _ _ 100) in Hle; [| discriminate].
        rewrite Qmult_1_l in Hle. exact Hle.
Qed.

Lemma graph_paths (docsPath : string) (files : list string) (g : LinkGraph) :
  buildLinkGraphOver docsPath files = Some g ->
  List.map path (nodes g) = JsMap.keys (createNodes docsPath files).
Proof.
  intros Hg. destruct (buildLinkGraphOver_degrees _ _ _ Hg) as (ns & -> & <- & Hnd & Hinv & _).
  unfold JsMap.values, JsMap.keys. rewrite List.map_map.
  apply List.map_ext_in. intros [k n] Hin. cbn [fst snd].
  apply (Hinv k n), In_get; assumption.
Qed.

Lemma graph_nodes_spec (docsPath : string) (files : list string) (g : LinkGraph) :
  buildLinkGraphOver docsPath files = Some g ->
  List.NoDup (List.map path (nodes g)) /\
  (forall n, In n (nodes g) ->
             Tracker.id n = path n /\
             inDegree n = inbound (path n) (edges g) /\
             outDegree n = outbound (path n) (edges g)) /\
  (forall e, In e (edges g) ->
             In (source e) (List.map path (nodes g)) /\
             In (target e) (List.map path (nodes g))).
Proof.
  intros Hg. rewrite (graph_paths _ _ _ Hg).
  destruct (buildLinkGraphOver_degrees _ _ _ Hg) as (ns & Hvalues & <- & Hnd & Hinv & Hedges).
  split; [exact Hnd | split].
  - intros n Hn. rewrite Hvalues in Hn. unfold JsMap.values in Hn.
    apply List.in_map_iff in Hn as ([k n'] & <- & Hin). cbn [snd].
    destruct (Hinv k n' (In_get _ _ _ Hnd Hin)) as (Hp & Hi & Hdeg).
    rewrite Hp, Hi. split; [reflexivity | exact Hdeg].
  - intros e He. destruct (Hedges e He) as [Ht Hs]. split; assumption.
Qed.

(** X8. In the graph that was built the node paths are pairwise
    distinct, the id of a node is its path, its in-degree is the number
    of edges that point to it, its out-degree the number of edges that
    leave it, and both ends of every edge are nodes. *)
Theorem buildLinkGraph_degrees (docsPath : string) (g : LinkGraph) :
  buildLinkGraph docsPath = Some g ->
  List.NoDup (List.map path (nodes g)) /\
  (forall n, In n (nodes g) ->
             Tracker.id n = path n /\
             inDegree n = inbound (path n) (edges g) /\
             outDegree n = outbound (path n) (edges g)) /\
  (forall e, In e (edges g) ->
             In (source e) (List.map path (nodes g)) /\
             In (target e) (List.map path (nodes g))).
Proof. apply graph_nodes_spec. Qed.

Lemma inCorpus_perm (docsPath : string) (files files' : list string) (k : string) :
  Permutation files files' ->
  inCorpus docsPath files k = inCorpus docsPath files' k.
Proof.
  intros Hperm. apply eq_true_iff_eq. unfold inCorpus. rewrite !List.existsb_exists.
  split; intros (f & Hf & Hrel); exists f; (split; [| exact Hrel]).
  - eapply Permutation_in; eassumption.
  - eapply Permutation_in; [symmetry |]; eassumption.
Qed.

Lemma fileEdges_perm (docsPath : string) (files files' : list string) (file : string) :
  Permutation files files' ->
  fileEdges docsPath files file = fileEdges docsPath files' file.
Proof.
  intros Hperm. unfold fileEdges. destruct (readFile file); [| reflexivity].
  apply List.flat_map_ext. intros link. unfold linkEdges.
  destruct (Markdown.isInternal link); [| reflexivity].
  destruct (linkTarget docsPath (dirname file) link); [| reflexivity].
  rewrite (inCorpus_perm docsPath files files' _ Hperm). reflexivity.
Qed.

Lemma filter_length_perm {X} (f : X -> bool) (l l' : list X) :
  Permutation l l' ->
  List.length (List.filter f l) = List.length (List.filter f l').
Proof.
  induction 1 as [| x l l' _ IH | x y l | l l' l'' _ IH1 _ IH2]; simpl.
  - reflexivity.
  - destruct (f x); simpl; congruence.
  - destruct (f x), (f y); reflexivity.
  - congruence.
Qed.

Lemma buildLinkGraphOver_readable (docsPath : string) (files : list string) :
  (forall f, In f files -> is_Some (readFile f)) ->
  is_Some (buildLinkGraphOver docsPath files).
Proof.
  intros Hread. unfold buildLinkGraphOver. cbv zeta.
  destruct (addFiles_extends docsPath files (createNodes docsPath files, []) Hread)
    as ([ns es] & -> & _).
  eexists. reflexivity.
Qed.

(** X9. The graph does not depend on the order in which the files are
    listed: for a reordered list a graph is built as well, with the same
    edges and the same node paths up to order, and every node keeps its
    degrees. *)
Theorem buildLinkGraph_order_independent (docsPath : string) (files files' : list string)
    (g : LinkGraph) :
  Permutation files files' ->
  buildLinkGraphOver docsPath files = Some g ->
  exists g',
    buildLinkGraphOver docsPath files' = Some g' /\
    Permutation (edges g) (edges g') /\
    Permutation (List.map path (nodes g)) (List.map path (nodes g')) /\
    (forall n n', In n (nodes g) -> In n' (nodes g') -> path n = path n' ->
                  inDegree n = inDegree n' /\ outDegree n = outDegree n').
Proof.
  intros Hperm Hg.
  destruct (graph_edges docsPath files g Hg) as [Hedges Hread].
  destruct (buildLinkGraphOver_readable docsPath files') as [g' Hg'].
  { intros f Hf. apply Hread. eapply Permutation_in; [symmetry |]; eassumption. }
  exists g'. split; [exact Hg' |].
  destruct (graph_edges docsPath files' g' Hg') as [Hedges' _].
  assert (Hpe : Permutation (edges g) (edges g')).
  { rewrite Hedges, Hedges'.
    rewrite (List.flat_map_ext _ _ (fun f => fileEdges_perm docsPath files files' f Hperm)).
    apply Permutation_flat_map, Hperm. }
  split; [exact Hpe | split].
  - destruct (graph_nodes_spec _ _ _ Hg) as (Hnd & _).
    destruct (graph_nodes_spec _ _ _ Hg') as (Hnd' & _).
    apply Permutation.NoDup_Permutation; [exact Hnd | exact Hnd' |].
    intros k. rewrite (graph_paths _ _ _ Hg), (graph_paths _ _ _ Hg'), !createNodes_keys.
    split; intros (f & Hf & Hrel); exists f; (split; [| exact Hrel]).
    + eapply Permutation_in; eassumption.
    + eapply Permutation_in; [symmetry |]; eassumption.
  - intros n n' Hn Hn' Hpath.
    destruct (graph_nodes_spec _ _ _ Hg) as (_ & Hdeg & _).
    destruct (graph_nodes_spec _ _ _ Hg') as (_ & Hdeg' & _).
    destruct (Hdeg n Hn) as (_ & -> & ->). destruct (Hdeg' n' Hn') as (_ & -> & ->).
    rewrite Hpath. unfold inbound, outbound.
    split; apply filter_length_perm, Hpe.
Qed.

(** X10. The backlinks of a file are the edges that point to it, in the
    order of the edge list: as many as the in-degree of its node, and
    none for a path that is not a node of the graph. *)
Theorem getBacklinks_inDegree (targetFile docsPath : string) (g : LinkGraph) :
  buildLinkGraph docsPath = Some g ->
  exists backlinks,
    getBacklinks targetFile docsPath = Some backlinks /\
    (forall n, In n (nodes g) ->
               path n = JsString.backslashToSlash (relative docsPath targetFile) ->
               List.length backlinks = inDegree n) /\
    ((forall n, In n (nodes g) ->
                path n <> JsString.backslashToSlash (relative docsPath targetFile)) ->
     backlinks = []).
Proof.
  intros Hg. unfold getBacklinks. rewrite Hg. cbv zeta.
  set (targetPath := JsString.backslashToSlash (relative docsPath targetFile)).
  eexists. split; [reflexivity |].
  destruct (graph_nodes_spec _ _ _ Hg) as (_ & Hdeg & Hedges).
  split.
  - intros n Hn Hpath. destruct (Hdeg n Hn) as (_ & -> & _).
    rewrite List.length_map, Hpath. reflexivity.
  - intros Hnone.
    assert (Hnil : List.filter (fun e => String.eqb (target e) targetPath) (edges g) = []).
    { destruct (List.filter _ (edges g)) as [|e es] eqn:Hf; [reflexivity |].
      assert (He : In e (List.filter (fun e => String.eqb (target e) targetPath) (edges g))).
      { rewrite Hf. left. reflexivity. }
      apply List.filter_In in He as [He Ht]. apply String.eqb_eq in Ht.
      destruct (Hedges e He) as [_ Hin].
      apply List.in_map_iff in Hin as (n & Hp & Hn).
      exfalso. apply (Hnone n Hn). congruence. }
    rewrite Hnil. reflexivity.
Qed.

(** X11. The hub files are exactly the nodes whose in-degree or
    out-degree reaches the threshold, each as often as it is a node,
    ordered by total degree, largest first. *)
Theorem findHubFiles_spec (docsPath : string) (minDegree : nat) (g : LinkGraph) :
  buildLinkGraph docsPath = Some g ->
  exists hubs,
    findHubFiles docsPath minDegree = Some hubs /\
    Permutation hubs
      (List.filter (fun n => (minDegree <=? inDegree n) || (minDegree <=? outDegree n))
                   (nodes g)) /\
    (forall n, In n hubs <->
               In n (nodes g) /\ (minDegree <= inDegree n \/ minDegree <= outDegree n)) /\
    StronglySorted (fun a b => inDegree b + outDegree b <= inDegree a + outDegree a) hubs.
Proof.
  intros Hg. unfold findHubFiles. rewrite Hg. cbn [fmap option_fmap option_map].
  eexists. split; [reflexivity |]. unfold hubsOf.
  split; [apply sortBy_perm | split].
  - intros n.
    assert (Hfilter : In n (nodes g) /\ (minDegree <= inDegree n \/ minDegree <= outDegree n)
                      <-> In n (List.filter
                                  (fun n => (minDegree <=? inDegree n)
                                            || (minDegree <=? outDegree n))
                                  (nodes g))).
    { rewrite List.filter_In, orb_true_iff, !Nat.leb_le. reflexivity. }
    rewrite Hfilter.
    split; apply Permutation_in; [| symmetry]; apply sortBy_perm.
  - apply StronglySorted_weaken
      with (R := fun a b => (totalDegree b <=? totalDegree a) = true).
    + intros a b Hab. apply Nat.leb_le in Hab. exact Hab.
    + apply sortBy_sorted.
      * intros x y. rewrite !Nat.leb_le. lia.
      * intros x y z. rewrite !Nat.leb_le. lia.
Qed.

Lemma indexIn_DOMAINS (d : Constants.Domain) :
  exists i, indexIn d Constants.DOMAINS = Some i /\ i < 15.
Proof. destruct d; eexists; (split; [reflexivity | lia]). Qed.

Lemma list_sum_alter (row : list nat) (j : nat) :
  j < List.length row ->
  list_sum (alter S j row) = S (list_sum row) /\
  List.length (alter S j row) = List.length row.
Proof.
  revert j. induction row as [|x row IH]; intros j Hj; [simpl in Hj; lia |].
  destruct j as [|j]; [split; reflexivity |].
  destruct (IH j) as [Hsum Hlen]; [simpl in Hj; lia |].
  change (alter S (S j) (x :: row)) with (x :: alter S j row).
  simpl. rewrite Hsum, Hlen. split; lia.
Qed.

Lemma matrix_alter (width : nat) (m : list (list nat)) (i j : nat) :
  i < List.length m -> j < width ->
  List.Forall (fun row => List.length row = width) m ->
  matrixSum (alter (alter S j) i m) = S (matrixSum m) /\
  List.length (alter (alter S j) i m) = List.length m /\
  List.Forall (fun row => List.length row = width) (alter (alter S j) i m).
Proof.
  revert i. induction m as [|row m IH]; intros i Hi Hj Hall; [simpl in Hi; lia |].
  apply List.Forall_cons_iff in Hall as [Hrow Hall].
  destruct i as [|i].
  - change (alter (alter S j) 0 (row :: m)) with (alter S j row :: m).
    destruct (list_sum_alter row j) as [Hsum Hlen]; [lia |].
    unfold matrixSum. cbn [List.map List.length].
    assert (Hcons : forall a l, list_sum (a :: l) = a + list_sum l) by reflexivity.
    rewrite !Hcons, Hsum. split; [lia | split; [reflexivity |]].
    constructor; [congruence | exact Hall].
  - change (alter (alter S j) (S i) (row :: m)) with (row :: alter (alter S j) i m).
    destruct (IH i) as (Hsum & Hlen & Hall'); [simpl in Hi; lia | exact Hj | exact Hall |].
    unfold matrixSum in *. cbn [List.map List.length].
    assert (Hcons : forall a l, list_sum (a :: l) = a + list_sum l) by reflexivity.
    rewrite !Hcons, Hsum, Hlen. split; [lia | split; [reflexivity |]].
    constructor; assumption.
Qed.

Lemma countConnection_step (graph : LinkGraph) (m : list (list nat)) (total : nat)
    (e : LinkEdge) :
  List.length m = 15 ->
  List.Forall (fun row => List.length row = 15) m ->
  List.length (fst (countConnection graph (m, total) e)) = 15 /\
  List.Forall (fun row => List.length row = 15) (fst (countConnection graph (m, total) e)) /\
  matrixSum (fst (countConnection graph (m, total) e))
  = matrixSum m + (if hasDomains graph e then 1 else 0) /\
  snd (countConnection graph (m, total) e)
  = total + (if hasDomains graph e then 1 else 0).
Proof.
  intros Hlen Hall. unfold countConnection, hasDomains.
  destruct (domainOfNode (source e) graph) as [sd|];
    [| cbn [fst snd]; repeat split; try assumption; lia].
  destruct (domainOfNode (target e) graph) as [td|];
    [| cbn [fst snd]; repeat split; try assumption; lia].
  destruct (indexIn_DOMAINS sd) as (i & -> & Hi).
  destruct (indexIn_DOMAINS td) as (j & -> & Hj).
  destruct (matrix_alter 15 m i j) as (Hsum' & Hlen' & Hall'); [lia | lia | exact Hall |].
  cbn [fst snd]. repeat split; try assumption; lia.
Qed.

(** X12. The domain connection matrix has one row and one column per
    domain, in the order of [DOMAINS]; its cells sum up to
    [totalConnections], which is the number of edges whose two ends both
    have a domain, edges inside one domain included. *)
Theorem connectionMatrix_total (graph : LinkGraph) :
  domains (connectionMatrixOf graph) = Constants.DOMAINS /\
  List.length (matrix (connectionMatrixOf graph)) = 15 /\
  List.Forall (fun row => List.length row = 15) (matrix (connectionMatrixOf graph)) /\
  matrixSum (matrix (connectionMatrixOf graph)) = totalConnections (connectionMatrixOf graph) /\
  totalConnections (connectionMatrixOf graph)
  = List.length (List.filter (hasDomains graph) (edges graph)).
Proof.
  unfold connectionMatrixOf.
  assert (Hgen : forall es st,
            List.length (fst st) = 15 ->
            List.Forall (fun row => List.length row = 15) (fst st) ->
            matrixSum (fst st) = snd st ->
            List.length (fst (List.fold_left (countConnection graph) es st)) = 15 /\
            List.Forall (fun row => List.length row = 15)
                        (fst (List.fold_left (countConnection graph) es st)) /\
            matrixSum (fst (List.fold_left (countConnection graph) es st))
            = snd (List.fold_left (countConnection graph) es st) /\
            snd (List.fold_left (countConnection graph) es st)
            = snd st + List.length (List.filter (hasDomains graph) es)).
  { induction es as [|e es IH]; intros [m total] Hlen Hall Hsum.
    - cbn [List.fold_left List.filter List.length]. repeat split; try assumption. lia.
    - cbn [fst snd] in Hlen, Hall, Hsum.
      destruct (countConnection_step graph m total e Hlen Hall) as (H1 & H2 & H3 & H4).
      cbn [List.fold_left List.filter].
      destruct (IH (countConnection graph (m, total) e)) as (I1 & I2 & I3 & I4);
        [exact H1 | exact H2 | lia |].
      split; [exact I1 | split; [exact I2 | split; [exact I3 |]]].
      rewrite I4, H4. cbn [snd].
      destruct (hasDomains graph e); cbn [List.length]; lia. }
  specialize (Hgen (edges graph) (zeroMatrix, 0)).
  destruct (List.fold_left _ (edges graph) _) as [m total].
  cbn [domains matrix totalConnections fst snd] in *.
  destruct Hgen as (H1 & H2 & H3 & H4).
  - reflexivity.
  - unfold zeroMatrix. apply List.Forall_forall. intros row Hrow.
    apply List.in_map_iff in Hrow as (d & <- & _). reflexivity.
  - reflexivity.
  - repeat split; assumption.
Qed.

Lemma StronglySorted_firstn {X} (R : X -> X -> Prop) (n : nat) (l : list X) :
  StronglySorted R l -> StronglySorted R (List.firstn n l).
Proof.
  intros Hs. revert n. induction Hs as [|x l Hs IH Hall]; intros [|n]; simpl;
    try constructor.
  - apply IH.
  - apply List.Forall_forall. intros y Hy.
    apply (proj1 (List.Forall_forall _ _) Hall). eapply In_firstn, Hy.
Qed.

(** X13. The top connected domain pairs are at most [limit] many, each
    with a positive count that is the cell of its two domains in the
    connection matrix, listed with the largest counts first. *)
Theorem getTopConnectedDomains_spec (docsPath : string) (limit : nat) (cm : DomainConnectionMatrix) :
  buildDomainConnectionMatrix docsPath = Some cm ->
  exists top,
    getTopConnectedDomains docsPath limit = Some top /\
    List.length top <= limit /\
    StronglySorted (fun a b => conn_count b <= conn_count a) top /\
    (forall c, In c top ->
               0 < conn_count c /\
               exists i j, domains cm !! i = Some (conn_from c) /\
                           domains cm !! j = Some (conn_to c) /\
                           conn_count c = List.nth j (List.nth i (matrix cm) []) 0).
Proof.
  intros Hcm. unfold getTopConnectedDomains. rewrite Hcm.
  eexists. split; [reflexivity |].
  split; [apply List.firstn_le_length | split].
  - apply StronglySorted_firstn.
    apply StronglySorted_weaken with (R := fun a b => (conn_count b <=? conn_count a) = true).
    + intros a b Hab. apply Nat.leb_le in Hab. exact Hab.
    + apply sortBy_sorted.
      * intros x y. rewrite !Nat.leb_le. lia.
      * intros x y z. rewrite !Nat.leb_le. lia.
  - intros c Hc. apply In_firstn in Hc.
    apply (Permutation_in _ (sortBy_perm _ _)) in Hc.
    unfold connectionsOf in Hc.
    apply List.in_flat_map in Hc as (i & _ & Hc).
    apply List.in_flat_map in Hc as (j & _ & Hc). cbv zeta in Hc.
    destruct (Nat.ltb_spec 0 (List.nth j (List.nth i (matrix cm) []) 0)) as [Hpos |];
      [| destruct Hc].
    destruct (domains cm !! i) as [f|] eqn:Hi; [| destruct Hc].
    destruct (domains cm !! j) as [t|] eqn:Hj; [| destruct Hc].
    destruct Hc as [<- | []]. cbn [conn_count conn_from conn_to].
    split; [exact Hpos |]. exists i, j. rewrite Hi, Hj. repeat split.
Qed.

End GraphExtras.

(* ===================================================================== *)
(** * Import resolution                                                   *)
(* ===================================================================== *)

Section ImportFacts.
Import RegExp Imports.

Lemma find_unfold (fl : flags) (r : regex) (p : option ascii) (s : string) (idx : nat) :
  find fl r p s idx
  = match run fl r {| prev := p; rest := s; caps := [] |} Some with
    | Some st =>
        Some ({| m_index := idx;
                 m_text := String.substring 0 (String.length s - String.length (rest st)) s;
                 m_groups := caps st |}, st)
    | None =>
        match s with
        | String a s' => find fl r (Some a) s' (S idx)
        | EmptyString => None
        end
    end.
Proof. destruct s; reflexivity. Qed.

(** A text that ends in [.ts] matches the source-extension pattern. *)
Lemma find_ts_suffix (s : string) (p : option ascii) (idx : nat) :
  is_Some (find fl_g sourceExtensionRe p (s +:+ ".ts") idx).
Proof.
  revert p idx. induction s as [|a s IH]; intros p idx.
  - rewrite append_nil. vm_compute. eexists. reflexivity.
  - rewrite append_cons, find_unfold.
    destruct (run fl_g sourceExtensionRe _ Some); [eexists; reflexivity | apply IH].
Qed.

Lemma split_dot_slash (s : string) :
  JsString.split "/" ("./" +:+ s) = "." :: JsString.split "/" s.
Proof. reflexivity. Qed.

(** X15. A resolved import always carries a source extension ([.js],
    [.jsx], [.ts] or [.tsx] at its end), and a leading [./] of the import
    path changes nothing. *)
Theorem resolveImport_extension (fromFile importPath : string) :
  matches sourceExtensionRe (resolveImport fromFile importPath) = true /\
  resolveImport fromFile ("./" +:+ importPath) = resolveImport fromFile importPath.
Proof.
  split.
  - unfold resolveImport. cbv zeta.
    set (resolved := JsString.joinWith "/" _).
    destruct (matches sourceExtensionRe resolved) eqn:Hm; cbn [negb]; [exact Hm |].
    unfold matches. destruct (find_ts_suffix resolved None 0) as [m ->]. reflexivity.
  - unfold resolveImport. cbv zeta. rewrite split_dot_slash. reflexivity.
Qed.

End ImportFacts.

(* ===================================================================== *)
(** * Domain detection: content scores, placement and suggestions         *)
(* ===================================================================== *)

Section DetectorExtras.
Import Constants Detector DetectorQueries.
Context `{NP : NodePath}.

Lemma keys_map_fst {K V} (m : list (K * V)) : JsMap.keys m = List.map fst m.
Proof. reflexivity. Qed.

Lemma scoreKeyword_NoDup (lowerContent : string) (scores : list (Domain * nat))
    (entry : string * list Domain) :
  List.NoDup (JsMap.keys scores) ->
  List.NoDup (JsMap.keys (scoreKeyword lowerContent scores entry)).
Proof.
  destruct entry as [keyword ds]. unfold scoreKeyword.
  generalize (RegExp.countMatches RegExp.fl_gi (RegExp.wholeWord keyword) lowerContent).
  intros count Hnd. cbv zeta. destruct (Nat.eqb count 0); [exact Hnd |].
  revert scores Hnd. induction ds as [|d ds IH]; intros scores Hnd; [exact Hnd |].
  cbn [List.fold_left]. apply IH, keys_set_NoDup, Hnd.
Qed.

Lemma keywordScores_NoDup (content : string) :
  List.NoDup (JsMap.keys (keywordScores content)).
Proof.
  unfold keywordScores.
  assert (Hgen : forall entries scores,
            List.NoDup (JsMap.keys scores) ->
            List.NoDup (JsMap.keys
                          (List.fold_left (scoreKeyword (JsString.toLowerCase content))
                                          entries scores))).
  { induction entries as [|entry entries IH]; intros scores Hnd; [exact Hnd |].
    cbn [List.fold_left]. apply IH, scoreKeyword_NoDup, Hnd. }
  apply Hgen. constructor.
Qed.

Lemma NoDup_map_filter {X Y} (f : X -> Y) (p : X -> bool) (l : list X) :
  List.NoDup (List.map f l) -> List.NoDup (List.map f (List.filter p l)).
Proof.
  induction l as [|x l IH]; intros Hnd; [constructor |].
  cbn [List.map] in Hnd. apply List.NoDup_cons_iff in Hnd as [Hnotin Hnd].
  cbn [List.filter]. destruct (p x); [| apply IH, Hnd].
  cbn [List.map]. constructor; [| apply IH, Hnd].
  intros Hin. apply Hnotin. apply List.in_map_iff in Hin as (y & Hy & Hin).
  apply List.in_map_iff. exists y. split; [exact Hy |].
  apply List.filter_In in Hin. apply Hin.
Qed.

Lemma sortByScore_spec (scores : list (Domain * nat)) :
  List.NoDup (List.map fst scores) ->
  List.NoDup
    (List.map fst (sortBy (fun a b => snd b <=? snd a)
                          (List.filter (fun e => 0 <? snd e) scores))) /\
  List.Forall (fun e => 0 < snd e)
    (sortBy (fun a b => snd b <=? snd a) (List.filter (fun e => 0 <? snd e) scores)) /\
  StronglySorted (fun a b => snd b <= snd a)
    (sortBy (fun a b => snd b <=? snd a) (List.filter (fun e => 0 <? snd e) scores)).
Proof.
  intros Hkeys.
  set (scored := List.filter (fun e => 0 <? snd e) scores).
  pose proof (sortBy_perm (fun a b : Domain * nat => snd b <=? snd a) scored) as Hperm.
  split; [| split].
  - eapply Permutation_NoDup; [apply Permutation_map; symmetry; exact Hperm |].
    apply NoDup_map_filter, Hkeys.
  - eapply Permutation_Forall; [symmetry; exact Hperm |].
    apply List.Forall_forall. intros e He. apply List.filter_In in He as [_ He].
    apply Nat.ltb_lt, He.
  - apply StronglySorted_weaken with (R := fun a b => (snd b <=? snd a) = true).
    + intros a b Hab. apply Nat.leb_le in Hab. exact Hab.
    + apply sortBy_sorted.
      * intros x y. rewrite !Nat.leb_le. lia.
      * intros x y z. rewrite !Nat.leb_le. lia.
Qed.

(** The scored domains: each once, every score positive, highest first. *)
Lemma sortedDomains_spec (content : string) :
  List.NoDup (List.map fst (sortedDomains content)) /\
  List.Forall (fun e => 0 < snd e) (sortedDomains content) /\
  StronglySorted (fun a b => snd b <= snd a) (sortedDomains content).
Proof.
  unfold sortedDomains. apply sortByScore_spec.
  rewrite <- keys_map_fst. apply keywordScores_NoDup.
Qed.

Lemma contentConfidence_bounds (maxScore secondScore : nat) :
  secondScore <= maxScore ->
  ((1 # 2) <= contentConfidence maxScore secondScore)%Q /\
  (contentConfidence maxScore secondScore <= 95 # 100)%Q.
Proof.
  intros Hle. unfold contentConfidence. cbv zeta.
  split; [| apply Q.le_min_r].
  apply Q.min_glb; [| unfold Qle; simpl; lia].
  assert (H1 : (0 <= Qmin (Qnat maxScore / 20) 1)%Q).
  { apply Q.min_glb; [| discriminate].
    apply Qle_shift_div_l; [reflexivity |]. rewrite Qmult_0_l. apply Qnat_nonneg. }
  assert (H2 : (0 <= Qmin ((Qnat maxScore - Qnat secondScore) / 10) (3 # 10))%Q).
  { apply Q.min_glb; [| discriminate].
    apply Qle_shift_div_l; [reflexivity |]. rewrite Qmult_0_l.
    apply Qnat_sub_nonneg, Hle. }
  assert (H3 : (0 <= Qmin (Qnat maxScore / 20) 1 * (3 # 10))%Q)
    by (apply Qmult_le_0_compat; [exact H1 | discriminate]).
  lra.
Qed.

Lemma contentDetection_spec (content : string) :
  match domain (detectDomainFromContent content) with
  | None =>
      confidence (detectDomainFromContent content) = 0%Q /\
      method (detectDomainFromContent content) = byContent /\
      alternativeDomains (detectDomainFromContent content) = []
  | Some d =>
      method (detectDomainFromContent content) = byKeywords /\
      ((1 # 2) <= confidence (detectDomainFromContent content))%Q /\
      (confidence (detectDomainFromContent content) <= 95 # 100)%Q /\
      List.length (alternativeDomains (detectDomainFromContent content)) <= 3 /\
      forall a c, In (a, c) (alternativeDomains (detectDomainFromContent content)) ->
                  a <> d /\ (0 < c)%Q /\
                  (c <= (8 # 10) * confidence (detectDomainFromContent content))%Q
  end.
Proof.
  destruct (sortedDomains_spec content) as (Hnd & Hpos & Hsort).
  unfold detectDomainFromContent.
  destruct (sortedDomains content) as [|[top maxScore] others];
    [cbn; repeat split |].
  cbv zeta. cbn [domain method confidence alternativeDomains].
  set (secondScore := match others with (_, s) :: _ => s | [] => 0 end).
  apply StronglySorted_inv in Hsort as [_ Hbelow]. cbn [snd] in Hbelow.
  apply List.Forall_cons_iff in Hpos as [Hmax Hpos]. cbn [snd] in Hmax.
  cbn [List.map fst] in Hnd. apply List.NoDup_cons_iff in Hnd as [Hnotin _].
  assert (Hsecond : secondScore <= maxScore).
  { subst secondScore. destruct others as [|[d2 s2] others']; [lia |].
    apply List.Forall_cons_iff in Hbelow as [H _]. exact H. }
  destruct (contentConfidence_bounds maxScore secondScore Hsecond) as [Hlow Hhigh].
  set (conf := contentConfidence maxScore secondScore) in *.
  split; [reflexivity | split; [exact Hlow | split; [exact Hhigh | split]]].
  - rewrite List.length_map. apply List.firstn_le_length.
  - intros a c Hin. apply List.in_map_iff in Hin as ([d s] & [= <- <-] & Hin).
    apply In_firstn in Hin. cbn [fst snd].
    assert (Hs : s <= maxScore)
      by (apply (proj1 (List.Forall_forall _ _) Hbelow (d, s) Hin)).
    assert (Hspos : 0 < s)
      by (apply (proj1 (List.Forall_forall _ _) Hpos (d, s) Hin)).
    split; [| split].
    + intros ->. apply Hnotin. apply List.in_map_iff. exists (top, s). split; [reflexivity | exact Hin].
    + assert (Hx : (0 < Qnat s / Qnat maxScore)%Q).
      { apply Qlt_shift_div_l; [apply Qnat_pos, Hmax |].
        rewrite Qmult_0_l. apply Qnat_pos, Hspos. }
      assert (Hxc : (0 < Qnat s / Qnat maxScore * conf)%Q).
      { apply Qmult_lt_0_compat; [exact Hx | lra]. }
      apply Qmult_lt_0_compat; [exact Hxc | reflexivity].
    + assert (Hx : (Qnat s / Qnat maxScore <= 1)%Q).
      { apply Qle_shift_div_r; [apply Qnat_pos, Hmax |].
        rewrite Qmult_1_l. unfold Qnat. rewrite <- Zle_Qle. lia. }
      assert (Hxc : (Qnat s / Qnat maxScore * conf <= 1 * conf)%Q).
      { apply Qmult_le_compat_r; [exact Hx | lra]. }
      lra.
Qed.

(** X16. Detection from content: without any keyword found there is no
    domain and the confidence is 0; otherwise the confidence lies between
    0.5 and 0.95, at most three alternatives are given, none of them the
    chosen domain, each with a positive confidence of at most 0.8 times
    the confidence of the chosen one. *)
Theorem detectDomainFromContent_spec (content : string) :
  match domain (detectDomainFromContent content) with
  | None =>
      confidence (detectDomainFromContent content) = 0%Q /\
      method (detectDomainFromContent content) = byContent /\
      alternativeDomains (detectDomainFromContent content) = []
  | Some d =>
      method (detectDomainFromContent content) = byKeywords /\
      ((1 # 2) <= confidence (detectDomainFromContent content))%Q /\
      (confidence (detectDomainFromContent content) <= 95 # 100)%Q /\
      List.length (alternativeDomains (detectDomainFromContent content)) <= 3 /\
      forall a c, In (a, c) (alternativeDomains (detectDomainFromContent content)) ->
                  a <> d /\ (0 < c)%Q /\
                  (c <= (8 # 10) * confidence (detectDomainFromContent content))%Q
  end.
Proof. apply contentDetection_spec. Qed.

Lemma asDomain_Some (part : string) (d : Domain) :
  asDomain part = Some d -> part = domainId d.
Proof.
  unfold asDomain. intros Hfind.
  destruct (List.find_some _ _ Hfind) as [_ Heq]. apply String.eqb_eq, Heq.
Qed.

Lemma isValidDomain_asDomain (part : string) :
  isValidDomain part = true -> exists d, asDomain part = Some d.
Proof.
  unfold isValidDomain, asDomain. intros Hvalid.
  destruct (proj1 (List.existsb_exists _ _) Hvalid) as (d & Hd & Heq).
  destruct (List.find (fun d => String.eqb part (domainId d)) DOMAINS) as [d'|] eqn:Hfind;
    [exists d'; reflexivity |].
  pose proof (List.find_none _ _ Hfind d Hd) as Hnone. cbv beta in Hnone. congruence.
Qed.

Lemma findDomainPart_Some (parts : list string) (k j : nat) (d : Domain) :
  findDomainPart parts k = Some (d, j) ->
  exists i, j = k + i /\ parts !! i = Some (domainId d).
Proof.
  revert k. induction parts as [|part parts IH]; intros k; [discriminate |].
  cbn [findDomainPart].
  assert (Hrest : findDomainPart parts (S k) = Some (d, j) ->
                  exists i, j = k + i /\ (part :: parts) !! i = Some (domainId d)).
  { intros Hf. destruct (IH (S k) Hf) as (i & -> & Hi).
    exists (S i). split; [lia | exact Hi]. }
  destruct (JsString.truthy part && isValidDomain part); [| exact Hrest].
  destruct (asDomain part) as [d'|] eqn:Has; [| exact Hrest].
  intros [= <- <-]. exists 0. split; [lia |].
  apply asDomain_Some in Has. rewrite Has. reflexivity.
Qed.

Lemma pathConfidence_le_one (i : nat) : (pathConfidence i <= 1)%Q.
Proof.
  unfold pathConfidence. destruct (Nat.eqb i 0); [apply Qle_refl |].
  unfold Qnat, Qle, Qminus, Qplus, Qopp, Qmult. simpl. lia.
Qed.

Lemma pathConfidence_correct (i : nat) :
  Qle_bool (8 # 10) (pathConfidence i) = true <-> i <= 1.
Proof.
  rewrite Qle_bool_iff. unfold pathConfidence.
  destruct i as [|[|i]]; cbn [Nat.eqb].
  - split; [lia | discriminate].
  - split; [lia |]. intros _. unfold Qnat, Qle, Qminus, Qplus, Qopp, Qmult. simpl. lia.
  - split; [| lia]. unfold Qnat, Qle, Qminus, Qplus, Qopp, Qmult. simpl. lia.
Qed.

(** X17. A placement is judged correct exactly when the first or the
    second segment of the path below the docs root is a domain folder; a
    domain found deeper, or only in the file name, is not enough. The
    suggested domain is always the current one. *)
Theorem validateDomainPlacement_spec (filePath docsRoot : string) :
  suggestedDomain (validateDomainPlacement filePath docsRoot)
  = currentDomain (validateDomainPlacement filePath docsRoot) /\
  (isCorrect (validateDomainPlacement filePath docsRoot) = true
   <-> exists d i, i <= 1 /\ pathParts filePath docsRoot !! i = Some (domainId d)).
Proof.
  split; [reflexivity |].
  unfold validateDomainPlacement. cbv zeta. cbn [isCorrect].
  split.
  - unfold detectDomainFromPath. cbv zeta.
    destruct (findDomainPart (pathParts filePath docsRoot) 0) as [[d j]|] eqn:Hfind.
    + cbn [confidence]. intros Hq. apply pathConfidence_correct in Hq.
      destruct (findDomainPart_Some _ _ _ _ Hfind) as (i & -> & Hi).
      exists d, i. split; [lia | exact Hi].
    + destruct (List.find _ DOMAINS); cbn [confidence]; discriminate.
  - intros (d & i & Hi & Hpart).
    assert (Hfirst : exists d0 i0, i0 <= 1 /\
              pathParts filePath docsRoot !! i0 = Some (domainId d0) /\
              forall j part, j < i0 -> pathParts filePath docsRoot !! j = Some part ->
                             isValidDomain part = false).
    { destruct i as [|i].
      - exists d, 0. split; [lia | split; [exact Hpart | intros j part Hj; lia]].
      - assert (i = 0) as -> by lia.
        destruct (pathParts filePath docsRoot !! 0) as [p0|] eqn:H0.
        + destruct (isValidDomain p0) eqn:Hv.
          * destruct (isValidDomain_asDomain p0 Hv) as [d0 Hd0].
            apply asDomain_Some in Hd0. subst p0.
            exists d0, 0. split; [lia | split; [exact H0 | intros j part Hj; lia]].
          * exists d, 1. split; [lia | split; [exact Hpart |]].
            intros j part Hj Hjp. assert (j = 0) as -> by lia. congruence.
        + apply lookup_ge_None in H0. apply lookup_lt_Some in Hpart. lia. }
    destruct Hfirst as (d0 & i0 & Hi0 & Hpart0 & Hbefore).
    rewrite (detectDomainFromPath_at filePath docsRoot i0 d0 Hpart0 Hbefore).
    cbn [confidence]. apply pathConfidence_correct, Hi0.
Qed.

Lemma suggested_In (d : Domain) (suggestions : list Domain) :
  suggested d suggestions = true <-> In d suggestions.
Proof.
  unfold suggested. rewrite List.existsb_exists. split.
  - intros (x & Hx & Heq). apply bool_decide_eq_true in Heq. subst x. exact Hx.
  - intros Hin. exists d. split; [exact Hin | apply bool_decide_eq_true; reflexivity].
Qed.

Lemma In_DOMAINS (d : Domain) : In d DOMAINS.
Proof. destruct d; unfold DOMAINS; simpl; auto 20. Qed.

(** A loop that appends or prepends, at most once, the domains that pass
    a test. *)
Lemma suggest_fold (step : list Domain -> Domain -> list Domain) (test : Domain -> bool) :
  (forall acc d, List.NoDup acc -> List.NoDup (step acc d)) ->
  (forall acc d x, In x (step acc d) <-> In x acc \/ (x = d /\ test d = true)) ->
  forall l acc,
    List.NoDup acc ->
    List.NoDup (List.fold_left step l acc) /\
    forall x, In x (List.fold_left step l acc) <-> In x acc \/ (In x l /\ test x = true).
Proof.
  intros Hnd Hin. induction l as [|d l IH]; intros acc Hacc.
  - split; [exact Hacc |]. intros x. simpl. tauto.
  - cbn [List.fold_left]. destruct (IH (step acc d) (Hnd acc d Hacc)) as [H1 H2].
    split; [exact H1 |]. intros x. rewrite H2, Hin. simpl.
    split.
    + intros [[H | [-> H]] | [H Ht]]; auto.
    + intros [H | [[<- | H] Ht]]; auto.
Qed.

(** X18. The domains suggested for a file name are pairwise distinct,
    and a domain is suggested exactly when one of its keywords, hyphens
    removed, or its own name occurs in the lower-cased base name. *)
Theorem suggestDomainsForFile_spec (fileName : string) :
  List.NoDup (suggestDomainsForFile fileName) /\
  forall d,
    In d (suggestDomainsForFile fileName) <->
    List.existsb
      (fun keyword =>
         JsString.includes (removeHyphens keyword)
                           (JsString.toLowerCase (basename fileName ".md")))
      (keywords (DOMAIN_DEFINITIONS d)) = true
    \/ JsString.includes (domainId d) (JsString.toLowerCase (basename fileName ".md")) = true.
Proof.
  unfold suggestDomainsForFile. cbv zeta.
  set (baseName := JsString.toLowerCase (basename fileName ".md")).
  destruct (suggest_fold (suggestByKeyword baseName)
              (fun d => List.existsb
                          (fun keyword => JsString.includes (removeHyphens keyword) baseName)
                          (keywords (DOMAIN_DEFINITIONS d)))) with (l := DOMAINS) (acc := @nil Domain)
    as [Hnd1 Hin1].
  { intros acc d Hacc. unfold suggestByKeyword.
    destruct (List.existsb _ (keywords (DOMAIN_DEFINITIONS d))); [| exact Hacc].
    destruct (suggested d acc) eqn:Hs; [exact Hacc |].
    apply List.NoDup_app; [exact Hacc | constructor; [intros [] | constructor] |].
    intros x Hx [<- | []]. apply suggested_In in Hx. congruence. }
  { intros acc d x. unfold suggestByKeyword.
    destruct (List.existsb _ (keywords (DOMAIN_DEFINITIONS d)));
      [| split; [tauto | intros [H | [_ H]]; [exact H | discriminate]]].
    destruct (suggested d acc) eqn:Hs.
    - apply suggested_In in Hs. split; [tauto | intros [H | [-> _]]; assumption].
    - rewrite List.in_app_iff. simpl. split.
      + intros [H | [<- | []]]; auto.
      + intros [H | [-> _]]; auto. }
  { constructor. }
  destruct (suggest_fold (suggestByName baseName)
              (fun d => JsString.includes (domainId d) baseName))
    with (l := DOMAINS) (acc := List.fold_left (suggestByKeyword baseName) DOMAINS [])
    as [Hnd2 Hin2].
  { intros acc d Hacc. unfold suggestByName.
    destruct (JsString.includes (domainId d) baseName); cbn [andb]; [| exact Hacc].
    destruct (suggested d acc) eqn:Hs; cbn [negb]; [exact Hacc |].
    constructor; [| exact Hacc]. intros Hx. apply suggested_In in Hx. congruence. }
  { intros acc d x. unfold suggestByName.
    destruct (JsString.includes (domainId d) baseName); cbn [andb];
      [| split; [tauto | intros [H | [_ H]]; [exact H | discriminate]]].
    destruct (suggested d acc) eqn:Hs; cbn [negb].
    - apply suggested_In in Hs. split; [tauto | intros [H | [-> _]]; assumption].
    - simpl. split.
      + intros [<- | H]; auto.
      + intros [H | [-> _]]; auto. }
  { exact Hnd1. }
  split; [exact Hnd2 |].
  intros d. rewrite Hin2, Hin1. pose proof (In_DOMAINS d) as Hd. simpl. tauto.
Qed.

(** X19. The confidence of a detection never exceeds 1, and with a
    non-empty content it is never negative: the content phase then
    outbids a path confidence that dropped below 0. *)
Theorem detectDomain_confidence_range (filePath : string) (content : option string)
    (docsRoot : string) :
  (confidence (detectDomain filePath content docsRoot) <= 1)%Q /\
  (forall c, content = Some c -> JsString.truthy c = true ->
             (0 <= confidence (detectDomain filePath content docsRoot))%Q).
Proof.
  assert (Hpath : (confidence (detectDomainFromPath filePath docsRoot) <= 1)%Q).
  { unfold detectDomainFromPath. cbv zeta.
    destruct (findDomainPart _ 0) as [[d i]|]; [apply pathConfidence_le_one |].
    destruct (List.find _ DOMAINS); cbn [confidence]; discriminate. }
  assert (Hcontent : forall c,
            (0 <= confidence (detectDomainFromContent c))%Q /\
            (confidence (detectDomainFromContent c) <= 1)%Q).
  { intros c. pose proof (contentDetection_spec c) as Hc.
    destruct (domain (detectDomainFromContent c)).
    - destruct Hc as (_ & Hlow & Hhigh & _). split; lra.
    - destruct Hc as (-> & _). split; discriminate. }
  unfold detectDomain. cbv zeta.
  revert Hpath. generalize (detectDomainFromPath filePath docsRoot). intros pr Hpath.
  destruct (bool_decide (is_Some (domain pr)) && Qle_bool (9 # 10) (confidence pr)) eqn:Hearly.
  - split; [exact Hpath |]. intros c _ _.
    apply andb_true_iff in Hearly as [_ Hq]. apply Qle_bool_iff in Hq. lra.
  - destruct content as [c|]; [| split; [exact Hpath | discriminate]].
    destruct (JsString.truthy c) eqn:Htruthy;
      [| split; [exact Hpath | intros c' [= <-]; congruence]].
    destruct (Hcontent c) as [Hc0 Hc1].
    revert Hc0 Hc1. generalize (detectDomainFromContent c). intros cr Hc0 Hc1.
    destruct (domain pr) as [d|]; [| split; [exact Hc1 | intros; exact Hc0]].
    destruct (Qle_bool (confidence cr) (confidence pr)) eqn:Hcmp; cbn [negb confidence].
    + split; [exact Hpath |]. intros _ _ _. apply Qle_bool_iff in Hcmp. lra.
    + split; [exact Hc1 | intros; exact Hc0].
Qed.

Lemma findDomainPart_invalid (parts : list string) (k : nat) :
  (forall i part, parts !! i = Some part -> isValidDomain part = false) ->
  findDomainPart parts k = None.
Proof.
  revert k. induction parts as [|part parts IH]; intros k Hinvalid; [reflexivity |].
  cbn [findDomainPart]. rewrite (Hinvalid 0 part eq_refl), andb_false_r.
  apply IH. intros i part' Hi. apply (Hinvalid (S i) part' Hi).
Qed.

(** X26. When no segment of the path below the docs root is a domain
    folder, the file name decides: the first domain of [DOMAINS] whose
    name occurs in the base name is returned with confidence 0.6, and
    without one the domain is null with confidence 0. The method is
    [path] and no alternatives are given. *)
Theorem detectDomainFromPath_fallback (filePath docsRoot : string) :
  (forall i part, pathParts filePath docsRoot !! i = Some part ->
                  isValidDomain part = false) ->
  detectDomainFromPath filePath docsRoot
  = match List.find (fun d => JsString.includes (domainId d) (basename filePath ".md"))
                    DOMAINS with
    | Some d => {| domain := Some d; confidence := (6 # 10)%Q;
                   method := byPath; alternativeDomains := [] |}
    | None => {| domain := None; confidence := 0%Q;
                 method := byPath; alternativeDomains := [] |}
    end.
Proof.
  intros Hinvalid. unfold detectDomainFromPath. cbv zeta.
  rewrite (findDomainPart_invalid _ 0 Hinvalid). reflexivity.
Qed.

End DetectorExtras.

(* ===================================================================== *)
(** * Generated metadata and Markdown text                                *)
(* ===================================================================== *)

Section TextExtras.
Import Generator Markdown MarkdownWriter LineSpec.

Lemma fold_left_select {X} (p : X -> bool) (l acc : list X) :
  List.fold_left (fun tags x => if p x then tags ++ [x] else tags) l acc
  = acc ++ List.filter p l.
Proof.
  revert acc. induction l as [|x l IH]; intros acc; cbn [List.fold_left List.filter].
  - symmetry. apply List.app_nil_r.
  - rewrite IH. destruct (p x); [| reflexivity].
    rewrite <- List.app_assoc. reflexivity.
Qed.

Lemma NoDup_firstn {X} (n : nat) (l : list X) : List.NoDup l -> List.NoDup (List.firstn n l).
Proof.
  revert n. induction l as [|x l IH]; intros [|n] Hnd; cbn [List.firstn]; try constructor.
  - apply List.NoDup_cons_iff in Hnd as [Hnotin _]. intros Hin. apply Hnotin.
    eapply In_firstn, Hin.
  - apply IH. apply List.NoDup_cons_iff in Hnd. apply Hnd.
Qed.

Lemma NoDup_tagKeywords : List.NoDup tagKeywords.
Proof. apply NoDup_ListNoDup. apply (bool_decide_unpack _). vm_compute. exact I. Qed.

(** X20. The tags are the keywords of the table that occur at least
    twice as whole words, in the order of the table and cut after the
    tenth: they are not ranked by frequency. There are at most ten, all
    distinct. *)
Theorem extractTags_spec (content : string) :
  extractTags content
  = List.firstn 10
      (List.filter
         (fun keyword =>
            2 <=? RegExp.countMatches RegExp.fl_gi (RegExp.wholeWord keyword)
                    (JsString.toLowerCase content))
         tagKeywords) /\
  List.length (extractTags content) <= 10 /\
  List.NoDup (extractTags content) /\
  forall tag, In tag (extractTags content) ->
              In tag tagKeywords /\
              2 <= RegExp.countMatches RegExp.fl_gi (RegExp.wholeWord tag)
                     (JsString.toLowerCase content).
Proof.
  unfold extractTags. cbv zeta. rewrite fold_left_select. rewrite List.app_nil_l.
  generalize tagKeywords NoDup_tagKeywords. intros table Hnd.
  split; [reflexivity | split; [apply List.firstn_le_length | split]].
  - apply NoDup_firstn, List.NoDup_filter, Hnd.
  - intros tag Hin. apply In_firstn in Hin.
    destruct (proj1 (List.filter_In _ _ _) Hin) as [Htable Hcount].
    split; [exact Htable | apply Nat.leb_le, Hcount].
Qed.

(** X21. The audience list is never empty and has no duplicates; [all]
    is given only alone, when no other audience was recognised; the
    others come in the order developers, devops, admin. *)
Theorem detectAudience_spec (content : string) :
  detectAudience content <> [] /\
  List.NoDup (detectAudience content) /\
  (In AudienceAll (detectAudience content) -> detectAudience content = [AudienceAll]) /\
  exists developers devops admin : bool,
    detectAudience content
    = (if developers || devops || admin then
         (if developers then [AudienceDevelopers] else [])
         ++ (if devops then [AudienceDevops] else [])
         ++ (if admin then [AudienceAdmin] else [])
       else [AudienceAll]).
Proof.
  unfold detectAudience. cbv zeta.
  generalize (JsString.toLowerCase content). intros lower.
  destruct (JsString.includes "developer" lower || JsString.includes "coding" lower
            || JsString.includes "api" lower) eqn:H1;
    destruct (JsString.includes "devops" lower || JsString.includes "deploy" lower
              || JsString.includes "infrastructure" lower) eqn:H2;
    destruct (JsString.includes "admin" lower || JsString.includes "configuration" lower
              || JsString.includes "management" lower) eqn:H3;
    cbn [List.app];
    (split; [discriminate |
     split; [repeat (constructor; [simpl; intuition discriminate |]); constructor |
     split; [simpl; intuition discriminate |]]]).
  - exists true, true, true. reflexivity.
  - exists true, true, false. reflexivity.
  - exists true, false, true. reflexivity.
  - exists true, false, false. reflexivity.
  - exists false, true, true. reflexivity.
  - exists false, true, false. reflexivity.
  - exists false, false, true. reflexivity.
  - exists false, false, false. reflexivity.
Qed.

Lemma split_nonempty (sep : ascii) (s : string) : JsString.split sep s <> [].
Proof.
  destruct s as [|c s]; cbn [JsString.split]; [discriminate |].
  destruct (Ascii.eqb c sep); [discriminate |].
  destruct (JsString.split sep s); discriminate.
Qed.

(** Splitting a text at a separator splits what is before it and what
    is after it. *)
Lemma split_app (sep : ascii) (a b : string) :
  JsString.split sep (a +:+ String sep b) = JsString.split sep a ++ JsString.split sep b.
Proof.
  induction a as [|c a IH].
  - rewrite append_nil. cbn [JsString.split]. rewrite Ascii.eqb_refl. reflexivity.
  - rewrite append_cons. cbn [JsString.split]. rewrite IH.
    destruct (Ascii.eqb c sep); [reflexivity |].
    pose proof (split_nonempty sep a) as Hne.
    destruct (JsString.split sep a) as [|h t]; [congruence | reflexivity].
Qed.

Lemma split_without (sep : ascii) (s : string) :
  without sep s = true -> JsString.split sep s = [s].
Proof.
  induction s as [|c s IH]; intros Hs; [reflexivity |].
  cbn [without] in Hs. apply andb_true_iff in Hs as [Hc Hs].
  apply negb_true_iff in Hc. cbn [JsString.split]. rewrite Hc, (IH Hs). reflexivity.
Qed.

Lemma split_parts_without (sep : ascii) (s : string) :
  List.Forall (fun part => without sep part = true) (JsString.split sep s).
Proof.
  induction s as [|c s IH]; [repeat constructor |].
  cbn [JsString.split]. destruct (Ascii.eqb c sep) eqn:Hc.
  - constructor; [reflexivity | exact IH].
  - destruct (JsString.split sep s) as [|h t]; [repeat constructor; cbn; rewrite Hc; reflexivity |].
    apply List.Forall_cons_iff in IH as [Hh Ht].
    constructor; [cbn [without]; rewrite Hc, Hh; reflexivity | exact Ht].
Qed.

(** Joining parts that do not hold the separator and splitting again
    gives the parts back. *)
Lemma split_joinWith (sep : ascii) (parts : list string) :
  parts <> [] ->
  List.Forall (fun part => without sep part = true) parts ->
  JsString.split sep (JsString.joinWith (String sep EmptyString) parts) = parts.
Proof.
  induction parts as [|p parts IH]; intros Hne Hall; [congruence |].
  apply List.Forall_cons_iff in Hall as [Hp Hall].
  destruct parts as [|q parts].
  - cbn [JsString.joinWith]. apply split_without, Hp.
  - change (JsString.joinWith (String sep EmptyString) (p :: q :: parts))
      with (p +:+ String sep EmptyString +:+ JsString.joinWith (String sep EmptyString) (q :: parts)).
    rewrite append_cons, append_nil, split_app, (split_without sep p Hp).
    rewrite IH; [reflexivity | discriminate | exact Hall].
Qed.

Lemma linksOfLines_shift (lines : list string) (i k : nat) :
  linksOfLines lines (i + k) = List.map (shiftLines k) (linksOfLines lines i).
Proof.
  revert i. induction lines as [|line lines IH]; intros i; [reflexivity |].
  cbn [linksOfLines]. rewrite List.map_app, List.map_map.
  change (S (i + k)) with (S i + k). rewrite IH. f_equal.
  apply List.map_ext. intros m. unfold linkOfMatch, shiftLines. cbn.
  f_equal. lia.
Qed.

Lemma linksOfLines_app (lines lines' : list string) (i : nat) :
  linksOfLines (lines ++ lines') i
  = linksOfLines lines i ++ linksOfLines lines' (i + List.length lines).
Proof.
  revert i. induction lines as [|line lines IH]; intros i.
  - cbn [List.app linksOfLines List.length]. rewrite Nat.add_0_r. reflexivity.
  - cbn [List.app linksOfLines List.length]. rewrite IH, <- List.app_assoc.
    replace (S i + List.length lines) with (i + S (List.length lines)) by lia.
    reflexivity.
Qed.

(** X22. Links are found line by line: the links of two texts joined by
    a line break are the links of the first text followed by those of the
    second, with line numbers moved down by the number of lines of the
    first; internal links are extracted the same way. *)
Theorem extractLinks_lines (a b : string) :
  extractLinks (a +:+ String "010"%char b)
  = extractLinks a
    ++ List.map (shiftLines (List.length (JsString.split "010" a))) (extractLinks b) /\
  extractInternalLinks (a +:+ String "010"%char b)
  = extractInternalLinks a
    ++ List.map (shiftLines (List.length (JsString.split "010" a))) (extractInternalLinks b).
Proof.
  assert (Hlinks : extractLinks (a +:+ String "010"%char b)
                   = extractLinks a
                     ++ List.map (shiftLines (List.length (JsString.split "010" a)))
                                 (extractLinks b)).
  { unfold extractLinks. rewrite split_app, linksOfLines_app.
    rewrite (linksOfLines_shift _ 0). reflexivity. }
  split; [exact Hlinks |].
  unfold extractInternalLinks. rewrite Hlinks, List.filter_app. f_equal.
  generalize (extractLinks b). intros links.
  induction links as [|link links IH]; [reflexivity |].
  cbn [List.map List.filter]. change (isInternal (shiftLines _ link)) with (isInternal link).
  destruct (isInternal link); cbn [List.map]; rewrite IH; reflexivity.
Qed.

(** X23. Quoting keeps the line structure: the lines of the block quote
    are the lines of the text, each after the marker [> ]. *)
Theorem createBlockquote_lines (text : string) :
  JsString.split "010" (createBlockquote text)
  = List.map (fun line => "> " +:+ line) (JsString.split "010" text).
Proof.
  unfold createBlockquote. apply split_joinWith.
  - pose proof (split_nonempty "010" text) as Hne.
    destruct (JsString.split "010" text); [congruence | discriminate].
  - pose proof (split_parts_without "010" text) as Hall.
    induction Hall as [|part parts Hpart _ IH]; constructor; [| exact IH].
    rewrite !append_cons, append_nil. cbn [without]. rewrite Hpart. reflexivity.
Qed.

Lemma find_no_bracket (s : string) (p : option ascii) (idx : nat) :
  without "["%char s = true ->
  RegExp.find RegExp.fl_g linkRegex p s idx = None.
Proof.
  revert p idx. induction s as [|a s IH]; intros p idx Hs; [reflexivity |].
  cbn [without] in Hs. apply andb_true_iff in Hs as [Ha Hs].
  apply negb_true_iff in Ha.
  rewrite find_unfold.
  assert (Hrun : RegExp.run RegExp.fl_g linkRegex
                   {| RegExp.prev := p; RegExp.rest := String a s; RegExp.caps := [] |}
                   Some = None).
  { unfold linkRegex. cbn [RegExp.cats RegExp.run RegExp.rest].
    unfold RegExp.charMatches. cbn [RegExp.ignoreCase RegExp.fl_g].
    rewrite Ascii.eqb_sym, Ha. reflexivity. }
  rewrite Hrun. apply IH, Hs.
Qed.

Lemma without_split (c sep : ascii) (s : string) :
  without c s = true ->
  List.Forall (fun part => without c part = true) (JsString.split sep s).
Proof.
  induction s as [|a s IH]; intros Hs; [repeat constructor |].
  cbn [without] in Hs. apply andb_true_iff in Hs as [Ha Hs].
  specialize (IH Hs). cbn [JsString.split]. destruct (Ascii.eqb a sep).
  - constructor; [reflexivity | exact IH].
  - destruct (JsString.split sep s) as [|h t]; [repeat constructor; cbn; rewrite Ha; reflexivity |].
    apply List.Forall_cons_iff in IH as [Hh Ht].
    constructor; [cbn [without]; rewrite Ha, Hh; reflexivity | exact Ht].
Qed.

(** X27. A text without an opening bracket has no links. *)
Theorem extractLinks_no_bracket (content : string) :
  without "["%char content = true ->
  extractLinks content = [] /\ extractInternalLinks content = [].
Proof.
  intros Hcontent.
  assert (Hlinks : extractLinks content = []).
  { unfold extractLinks.
    pose proof (without_split "["%char "010"%char content Hcontent) as Hlines.
    revert Hlines. generalize (JsString.split "010" content), 0.
    intros lines. induction lines as [|line lines IH]; intros i Hlines; [reflexivity |].
    apply List.Forall_cons_iff in Hlines as [Hline Hlines].
    cbn [linksOfLines]. rewrite (IH _ Hlines), List.app_nil_r.
    unfold RegExp.matchAll. cbn [RegExp.matchAllFrom].
    rewrite (find_no_bracket line None 0 Hline). reflexivity. }
  split; [exact Hlinks |]. unfold extractInternalLinks. rewrite Hlinks. reflexivity.
Qed.

End TextExtras.

(* ===================================================================== *)
(** * The keyword table                                                   *)
(* ===================================================================== *)

Section KeywordFacts.
Import Constants.

Lemma addKeyword_lookup (d : Domain) (keywordMap : list (string * list Domain))
    (keyword k : string) (x : Domain) :
  In x (default [] (JsMap.get k (addKeyword d keywordMap keyword)))
  <-> In x (default [] (JsMap.get k keywordMap)) \/ (k = keyword /\ x = d).
Proof.
  unfold addKeyword. cbv zeta. rewrite get_set.
  destruct (decide (k = keyword)) as [-> | Hne].
  - change (default [] (Some (default [] (JsMap.get keyword keywordMap) ++ [d])))
      with (default [] (JsMap.get keyword keywordMap) ++ [d]).
    rewrite List.in_app_iff.
    simpl. split; [intros [H | [<- | []]]; auto | intros [H | [_ ->]]; auto].
  - split; [auto | intros [H | [Heq _]]; [exact H | congruence]].
Qed.

Lemma addKeywords_lookup (d : Domain) (kws : list string)
    (keywordMap : list (string * list Domain)) (k : string) (x : Domain) :
  In x (default [] (JsMap.get k (List.fold_left (addKeyword d) kws keywordMap)))
  <-> In x (default [] (JsMap.get k keywordMap)) \/ (In k kws /\ x = d).
Proof.
  revert keywordMap. induction kws as [|keyword kws IH]; intros keywordMap.
  - simpl. tauto.
  - cbn [List.fold_left]. rewrite IH, addKeyword_lookup. simpl.
    split.
    + intros [[H | [-> ->]] | [H ->]]; auto.
    + intros [H | [[<- | H] ->]]; auto.
Qed.

(** X24. The keyword table maps every keyword to exactly the domains
    whose definition lists it; a word that no domain lists has no entry. *)
Theorem getAllKeywords_lookup (k : string) (d : Domain) :
  (In d (default [] (JsMap.get k getAllKeywords))
   <-> In k (keywords (DOMAIN_DEFINITIONS d))) /\
  (JsMap.get k getAllKeywords = None
   <-> forall d', ~ In k (keywords (DOMAIN_DEFINITIONS d'))).
Proof.
  unfold getAllKeywords.
  assert (Hgen : forall ds keywordMap x,
            In x (default [] (JsMap.get k
                    (List.fold_left
                       (fun keywordMap d =>
                          List.fold_left (addKeyword d) (keywords (DOMAIN_DEFINITIONS d))
                                         keywordMap)
                       ds keywordMap)))
            <-> In x (default [] (JsMap.get k keywordMap))
                \/ (In x ds /\ In k (keywords (DOMAIN_DEFINITIONS x)))).
  { induction ds as [|d0 ds IH]; intros keywordMap x.
    - simpl. tauto.
    - cbn [List.fold_left]. rewrite IH, addKeywords_lookup. simpl.
      split.
      + intros [[H | [H ->]] | [H1 H2]]; auto.
      + intros [H | [[<- | H1] H2]]; auto. }
  assert (Hkeys : forall ds keywordMap,
            (forall k' v, JsMap.get k' keywordMap = Some v -> v <> []) ->
            forall k' v,
              JsMap.get k'
                (List.fold_left
                   (fun keywordMap d =>
                      List.fold_left (addKeyword d) (keywords (DOMAIN_DEFINITIONS d))
                                     keywordMap)
                   ds keywordMap) = Some v -> v <> []).
  { induction ds as [|d0 ds IH]; intros keywordMap Hne; [exact Hne |].
    cbn [List.fold_left]. apply IH.
    generalize (keywords (DOMAIN_DEFINITIONS d0)). intros kws. revert keywordMap Hne.
    induction kws as [|keyword kws IHk]; intros keywordMap Hne; [exact Hne |].
    cbn [List.fold_left]. apply IHk. intros k' v. unfold addKeyword. cbv zeta.
    rewrite get_set. destruct (decide (k' = keyword)); [| apply Hne].
    intros [= <-]. destruct (default [] (JsMap.get keyword keywordMap)); discriminate. }
  split.
  - rewrite Hgen. pose proof (In_DOMAINS d) as Hd.
    change (default [] (JsMap.get k [])) with (@nil Domain).
    split; [intros [[] | [_ H]]; exact H | intros H; right; split; assumption].
  - split.
    + intros Hnone d' Hin.
      pose proof (proj2 (Hgen DOMAINS [] d')
                    (or_intror (conj (In_DOMAINS d') Hin))) as Hfound.
      rewrite Hnone in Hfound. destruct Hfound.
    + intros Hno.
      destruct (JsMap.get k (List.fold_left _ DOMAINS [])) as [v|] eqn:Hget; [| reflexivity].
      exfalso. destruct v as [|d' v].
      * apply (Hkeys DOMAINS [] (fun k' v' H => ltac:(discriminate)) k [] Hget). reflexivity.
      * apply (Hno d'). specialize (Hgen DOMAINS [] d'). rewrite Hget in Hgen.
        change (default [] (Some (d' :: v))) with (d' :: v) in Hgen.
        destruct (proj1 Hgen (or_introl eq_refl)) as [[] | [_ Hin]]. exact Hin.
Qed.

End KeywordFacts.

(* ===================================================================== *)
(** * The properties above on the example corpus                          *)
(* ===================================================================== *)

(** A check of the example corpus restricted to [security]. *)
Lemma checkLinks_domain_filter_witness :
  List.Forall
    (fun b => ExtraSpec.below "security" (Checker.sourceFile b) = true)
    (Checker.brokenLinks
       (@Checker.checkLinks posixPath exampleFS
          {| Checker.docsPath := "docs"; Checker.domainFilter := Some "security";
             Checker.checkExternal := false; Checker.silent := true |})).
Proof.
  apply List.Forall_forall.
  destruct (@checkLinks_domain_filter posixPath exampleFS
              {| Checker.docsPath := "docs"; Checker.domainFilter := Some "security";
                 Checker.checkExternal := false; Checker.silent := true |}
              "security" eq_refl) as (Hbroken & _).
  - discriminate.
  - exact Hbroken.
Defined.

(** A link of [security/auth.md] to a section of [api/ref.md]. *)
Lemma resolveLink_ignores_anchor_witness :
  @Checker.resolveLink posixPath "../api/ref.md#top" "/w/docs/security" "docs"
  = @Checker.resolveLink posixPath "../api/ref.md" "/w/docs/security" "docs".
Proof.
  destruct (@resolveLink_ignores_anchor posixPath "../api/ref.md" "top"
              "/w/docs/security" "docs"
              {| Markdown.text := "API"; Markdown.url := "../api/ref.md#top";
                 Markdown.title := None; Markdown.isInternal := true;
                 Markdown.lineNumber := 1; Markdown.startIndex := 0;
                 Markdown.endIndex := 24 |}
              {| Markdown.text := "API"; Markdown.url := "../api/ref.md";
                 Markdown.title := None; Markdown.isInternal := true;
                 Markdown.lineNumber := 1; Markdown.startIndex := 0;
                 Markdown.endIndex := 20 |}
              eq_refl eq_refl eq_refl) as (Hresolve & _).
  exact Hresolve.
Defined.

(** The edges of the example corpus. *)
Lemma buildLinkGraph_edges_witness :
  exists g,
    @Tracker.buildLinkGraphOver posixPath exampleFS "docs"
      ["/w/docs/security/auth.md"; "/w/docs/api/ref.md"; "/w/docs/orphan.md"] = Some g /\
    Tracker.edges g
    = List.flat_map
        (@GraphExtra.fileEdges posixPath exampleFS "docs"
           ["/w/docs/security/auth.md"; "/w/docs/api/ref.md"; "/w/docs/orphan.md"])
        ["/w/docs/security/auth.md"; "/w/docs/api/ref.md"; "/w/docs/orphan.md"].
Proof.
  destruct (@Tracker.buildLinkGraphOver posixPath exampleFS "docs"
              ["/w/docs/security/auth.md"; "/w/docs/api/ref.md"; "/w/docs/orphan.md"])
    as [g|] eqn:Hg; [| vm_compute in Hg; discriminate].
  exists g. split; [reflexivity |].
  apply (@buildLinkGraph_edges posixPath exampleFS "docs" _ g Hg).
Defined.

(** The statistics of the example corpus. *)
Lemma getLinkStatistics_consistent_witness :
  exists stats,
    @TrackerQueries.getLinkStatistics posixPath exampleFS "docs" = Some stats /\
    TrackerQueries.avgInDegree stats = TrackerQueries.avgOutDegree stats.
Proof.
  destruct (@TrackerQueries.getLinkStatistics posixPath exampleFS "docs")
    as [stats|] eqn:Hstats; [| vm_compute in Hstats; discriminate].
  exists stats. split; [reflexivity |].
  apply (@getLinkStatistics_consistent posixPath exampleFS "docs" stats Hstats).
Defined.

(** The degrees of the example corpus. *)
Lemma buildLinkGraph_degrees_witness :
  exists g,
    @Tracker.buildLinkGraph posixPath exampleFS "docs" = Some g /\
    List.NoDup (List.map Tracker.path (Tracker.nodes g)).
Proof.
  destruct (@Tracker.buildLinkGraph posixPath exampleFS "docs")
    as [g|] eqn:Hg; [| vm_compute in Hg; discriminate].
  exists g. split; [reflexivity |].
  apply (@buildLinkGraph_degrees posixPath exampleFS "docs" g Hg).
Defined.

(** The example corpus listed in two orders. *)
Lemma buildLinkGraph_order_independent_witness :
  exists g g',
    @Tracker.buildLinkGraphOver posixPath exampleFS "docs"
      ["/w/docs/orphan.md"; "/w/docs/security/auth.md"; "/w/docs/api/ref.md"] = Some g /\
    @Tracker.buildLinkGraphOver posixPath exampleFS "docs"
      ["/w/docs/security/auth.md"; "/w/docs/api/ref.md"; "/w/docs/orphan.md"] = Some g' /\
    Permutation (Tracker.edges g) (Tracker.edges g').
Proof.
  destruct (@Tracker.buildLinkGraphOver posixPath exampleFS "docs"
              ["/w/docs/orphan.md"; "/w/docs/security/auth.md"; "/w/docs/api/ref.md"])
    as [g|] eqn:Hg; [| vm_compute in Hg; discriminate].
  destruct (@buildLinkGraph_order_independent posixPath exampleFS "docs"
              ["/w/docs/orphan.md"; "/w/docs/security/auth.md"; "/w/docs/api/ref.md"]
              ["/w/docs/security/auth.md"; "/w/docs/api/ref.md"; "/w/docs/orphan.md"]
              g
              (Permutation_cons_append
                 ["/w/docs/security/auth.md"; "/w/docs/api/ref.md"] "/w/docs/orphan.md")
              Hg) as (g' & Hg' & Hedges & _).
  exists g, g'. split; [reflexivity | split; [exact Hg' | exact Hedges]].
Defined.

(** The backlinks of [api/ref.md] in the example corpus. *)
Lemma getBacklinks_inDegree_witness :
  exists g backlinks,
    @Tracker.buildLinkGraph posixPath exampleFS "docs" = Some g /\
    @TrackerQueries.getBacklinks posixPath exampleFS "/w/docs/api/ref.md" "docs"
    = Some backlinks /\
    forall n, In n (Tracker.nodes g) ->
              Tracker.path n
              = JsString.backslashToSlash (@relative posixPath "docs" "/w/docs/api/ref.md") ->
              List.length backlinks = Tracker.inDegree n.
Proof.
  destruct (@Tracker.buildLinkGraph posixPath exampleFS "docs")
    as [g|] eqn:Hg; [| vm_compute in Hg; discriminate].
  destruct (@getBacklinks_inDegree posixPath exampleFS "/w/docs/api/ref.md" "docs" g Hg)
    as (backlinks & Hback & Hdeg & _).
  exists g, backlinks. split; [reflexivity | split; [exact Hback | exact Hdeg]].
Defined.

(** The hubs of the example corpus, with the threshold 1. *)
Lemma findHubFiles_spec_witness :
  exists g hubs,
    @Tracker.buildLinkGraph posixPath exampleFS "docs" = Some g /\
    @TrackerQueries.findHubFiles posixPath exampleFS "docs" 1 = Some hubs /\
    StronglySorted
      (fun a b => Tracker.inDegree b + Tracker.outDegree b
                  <= Tracker.inDegree a + Tracker.outDegree a) hubs.
Proof.
  destruct (@Tracker.buildLinkGraph posixPath exampleFS "docs")
    as [g|] eqn:Hg; [| vm_compute in Hg; discriminate].
  destruct (@findHubFiles_spec posixPath exampleFS "docs" 1 g Hg)
    as (hubs & Hhubs & _ & _ & Hsorted).
  exists g, hubs. split; [reflexivity | split; [exact Hhubs | exact Hsorted]].
Defined.

(** The connected domains of the example corpus. *)
Lemma getTopConnectedDomains_spec_witness :
  exists cm top,
    @TrackerQueries.buildDomainConnectionMatrix posixPath exampleFS "docs" = Some cm /\
    @TrackerQueries.getTopConnectedDomains posixPath exampleFS "docs" 10 = Some top /\
    List.length top <= 10.
Proof.
  destruct (@TrackerQueries.buildDomainConnectionMatrix posixPath exampleFS "docs")
    as [cm|] eqn:Hcm; [| vm_compute in Hcm; discriminate].
  destruct (@getTopConnectedDomains_spec posixPath exampleFS "docs" 10 cm Hcm)
    as (top & Htop & Hlen & _).
  exists cm, top. split; [reflexivity | split; [exact Htop | exact Hlen]].
Defined.

(** A file in no domain folder whose name holds a domain name. *)
Lemma detectDomainFromPath_fallback_witness :
  Detector.domain (@Detector.detectDomainFromPath posixPath "docs/notes/api-notes.md" "docs")
  = Some Constants.api.
Proof.
  rewrite (@detectDomainFromPath_fallback posixPath "docs/notes/api-notes.md" "docs").
  - vm_compute. reflexivity.
  - intros [|[|i]] part Hpart; vm_compute in Hpart; try discriminate;
      injection Hpart as <-; reflexivity.
Defined.

(** A line of plain text. *)
Lemma extractLinks_no_bracket_witness :
  Markdown.extractLinks "nothing links here" = [].
Proof.
  apply (extractLinks_no_bracket "nothing links here"). reflexivity.
Defined.

(* ===================================================================== *)
(** * Writing a link and reading it back                                  *)
(* ===================================================================== *)

Section LinkRoundTrip.
Import RegExp Markdown MarkdownWriter LineSpec.

Lemma length_append (a b : string) :
  String.length (a +:+ b) = String.length a + String.length b.
Proof.
  induction a as [|c a IH]; [reflexivity |].
  rewrite append_cons. cbn [String.length]. rewrite IH. reflexivity.
Qed.

Lemma substring_prefix (a b : string) :
  String.substring 0 (String.length a) (a +:+ b) = a.
Proof.
  induction a as [|c a IH].
  - rewrite append_nil. destruct b; reflexivity.
  - rewrite append_cons. cbn [String.length String.substring]. rewrite IH. reflexivity.
Qed.

(** A greedy repetition of a character class reads every character that
    passes and stops before the first one that does not. *)
Lemma star_class_loop (fl : flags) (p : ascii -> bool) (k : mstate -> option mstate)
    (c : ascii) (tail : string) (res : mstate) :
  p c = false ->
  forall (t : string) (q : option ascii) (cs : list (nat * string)) (n : nat),
    allChars p t = true ->
    String.length t <= n ->
    k {| prev := lastOf t q; rest := String c tail; caps := cs |} = Some res ->
    (fix loop (n : nat) (st0 : mstate) {struct n} : option mstate :=
       match n with
       | O => k st0
       | S n' =>
           match run fl (Class p) st0 (fun st1 =>
                   if String.length (rest st1) <? String.length (rest st0)
                   then loop n' st1 else None) with
           | Some res => Some res
           | None => k st0
           end
       end) n {| prev := q; rest := t +:+ String c tail; caps := cs |} = Some res.
Proof.
  intros Hc. induction t as [|a t IH]; intros q cs n Hall Hlen Hk.
  - rewrite append_nil. cbn [lastOf] in Hk.
    destruct n as [|n]; [exact Hk |].
    cbn [run rest]. rewrite Hc. exact Hk.
  - cbn [allChars] in Hall. apply andb_true_iff in Hall as [Ha Hall].
    destruct n as [|n]; [cbn in Hlen; lia |].
    rewrite append_cons. cbn [run rest]. rewrite Ha.
    unfold advance. cbn [rest caps String.length].
    rewrite (proj2 (Nat.ltb_lt _ _) (Nat.lt_succ_diag_r _)).
    assert (Hloop := IH (Some a) cs n Hall ltac:(cbn in Hlen; lia) Hk).
    match goal with
    | |- match ?X with _ => _ end = _ =>
        assert (HX : X = Some res) by exact Hloop; rewrite HX
    end.
    reflexivity.
Qed.

Lemma run_star_class (fl : flags) (p : ascii -> bool) (k : mstate -> option mstate)
    (c : ascii) (tail t : string) (q : option ascii) (cs : list (nat * string))
    (res : mstate) :
  p c = false ->
  allChars p t = true ->
  k {| prev := lastOf t q; rest := String c tail; caps := cs |} = Some res ->
  run fl (Star (Class p)) {| prev := q; rest := t +:+ String c tail; caps := cs |} k
  = Some res.
Proof.
  intros Hc Hall Hk.
  apply (star_class_loop fl p k c tail res Hc t q cs); [exact Hall | | exact Hk].
  cbn [rest]. rewrite length_append. lia.
Qed.

Lemma run_Cat (fl : flags) (r1 r2 : regex) (st : mstate) (k : mstate -> option mstate) :
  run fl (Cat r1 r2) st k = run fl r1 st (fun st1 => run fl r2 st1 k).
Proof. reflexivity. Qed.

Lemma run_Lit (c : ascii) (q : option ascii) (s : string) (cs : list (nat * string))
    (k : mstate -> option mstate) :
  run fl_g (Lit c) {| prev := q; rest := String c s; caps := cs |} k
  = k {| prev := Some c; rest := s; caps := cs |}.
Proof.
  cbn [run rest]. unfold charMatches. cbn [ignoreCase fl_g].
  rewrite Ascii.eqb_refl. reflexivity.
Qed.

Lemma run_Class (fl : flags) (p : ascii -> bool) (a : ascii) (q : option ascii)
    (s : string) (cs : list (nat * string)) (k : mstate -> option mstate) :
  p a = true ->
  run fl (Class p) {| prev := q; rest := String a s; caps := cs |} k
  = k {| prev := Some a; rest := s; caps := cs |}.
Proof. intros Ha. cbn [run rest]. rewrite Ha. reflexivity. Qed.

Lemma run_Group (fl : flags) (n : nat) (r : regex) (st : mstate)
    (k : mstate -> option mstate) :
  run fl (Group n r) st k
  = run fl r st (fun st1 =>
      k {| prev := prev st1; rest := rest st1;
           caps := (n, String.substring 0
                         (String.length (rest st) - String.length (rest st1)) (rest st))
                   :: caps st1 |}).
Proof. reflexivity. Qed.

(** An optional part that starts with a character class is skipped
    before a character outside the class. *)
Lemma run_opt_skip (fl : flags) (p : ascii -> bool) (r : regex) (c : ascii)
    (q : option ascii) (s : string) (cs : list (nat * string))
    (k : mstate -> option mstate) :
  p c = false ->
  run fl (opt (Cat (plus (Class p)) r)) {| prev := q; rest := String c s; caps := cs |} k
  = k {| prev := q; rest := String c s; caps := cs |}.
Proof. intros Hc. unfold opt, plus. cbn [run rest]. rewrite Hc. reflexivity. Qed.

Lemma substring_take (a b : string) :
  String.substring 0 (String.length (a +:+ b) - String.length b) (a +:+ b) = a.
Proof.
  rewrite length_append, Nat.add_sub. apply substring_prefix.
Qed.

(** The link pattern on a written link: the whole text is matched, with
    the link text and the target as groups 1 and 2 and no group 3. *)
Lemma run_link (q : option ascii) (text : string) (u : ascii) (us : string) :
  allChars (fun c => negb (Ascii.eqb c "]"%char)) text = true ->
  allChars (fun c => negb (Ascii.eqb c ")"%char || isSpace c)) (String u us) = true ->
  run fl_g linkRegex
    {| prev := q; rest := "[" +:+ text +:+ "](" +:+ String u us +:+ ")"; caps := [] |} Some
  = Some {| prev := Some ")"%char; rest := EmptyString;
            caps := [(2, String u us); (1, text)] |}.
Proof.
  intros Htext Hurl. cbn [allChars] in Hurl. apply andb_true_iff in Hurl as [Hu Hus].
  unfold linkRegex. cbn [cats].
  rewrite !append_cons, !append_nil.
  rewrite run_Cat, run_Lit, run_Cat, run_Group.
  apply run_star_class; [reflexivity | exact Htext |].
  cbn [prev rest caps].
  rewrite run_Cat, run_Lit, run_Cat, run_Lit, run_Cat, run_Group.
  unfold plus at 1. rewrite run_Cat, (run_Class _ _ _ _ _ _ _ Hu).
  apply run_star_class; [reflexivity | exact Hus |].
  cbn [prev rest caps].
  unfold space. rewrite run_Cat, run_opt_skip by reflexivity.
  rewrite run_Cat, run_Lit.
  cbn [run]. f_equal. f_equal.
  change (String u (us +:+ ")")) with (String u us +:+ ")").
  rewrite substring_take, substring_take. reflexivity.
Qed.

(** The same with a title: it is group 3. *)
Lemma run_link_titled (q : option ascii) (text : string) (u : ascii) (us t : string) :
  allChars (fun c => negb (Ascii.eqb c "]"%char)) text = true ->
  allChars (fun c => negb (Ascii.eqb c ")"%char || isSpace c)) (String u us) = true ->
  allChars (fun c => negb (Ascii.eqb c dquote)) t = true ->
  run fl_g linkRegex
    {| prev := q;
       rest := "[" +:+ text +:+ "](" +:+ String u us +:+ " " +:+ String dquote t
               +:+ String dquote ")";
       caps := [] |} Some
  = Some {| prev := Some ")"%char; rest := EmptyString;
            caps := [(3, t); (2, String u us); (1, text)] |}.
Proof.
  intros Htext Hurl Ht. cbn [allChars] in Hurl. apply andb_true_iff in Hurl as [Hu Hus].
  unfold linkRegex. cbn [cats].
  rewrite !append_cons, !append_nil.
  rewrite run_Cat, run_Lit, run_Cat, run_Group.
  apply run_star_class; [reflexivity | exact Htext |].
  cbn [prev rest caps].
  rewrite run_Cat, run_Lit, run_Cat, run_Lit, run_Cat, run_Group.
  unfold plus at 1. rewrite run_Cat, (run_Class _ _ _ _ _ _ _ Hu).
  apply run_star_class; [reflexivity | exact Hus |].
  cbn [prev rest caps].
  rewrite run_Cat. unfold opt.
  change (run fl_g (Alt ?r Empty) ?st ?k)
    with (match run fl_g r st k with Some res => Some res | None => run fl_g Empty st k end).
  assert (Hfirst :
    run fl_g
      (Cat (plus space)
         (Cat (Lit dquote)
            (Cat (Group 3 (Star (Class (fun c => negb (Ascii.eqb c dquote)))))
               (Cat (Lit dquote) Empty))))
      {| prev := lastOf us (Some u);
         rest := String " " (String dquote (t +:+ String dquote ")"));
         caps :=
           [(2, String.substring 0
                  (String.length
                     (String u (us +:+ String " " (String dquote (t +:+ String dquote ")"))))
                   - String.length (String " " (String dquote (t +:+ String dquote ")"))))
                  (String u (us +:+ String " " (String dquote (t +:+ String dquote ")")))));
            (1, String.substring 0
                  (String.length
                     (text +:+ String "]" (String "("
                        (String u (us +:+ String " "
                                     (String dquote (t +:+ String dquote ")"))))))
                   - String.length
                       (String "]" (String "("
                          (String u (us +:+ String " "
                                       (String dquote (t +:+ String dquote ")")))))))
                  (text +:+ String "]" (String "("
                     (String u (us +:+ String " "
                                  (String dquote (t +:+ String dquote ")")))))))] |}
      (fun st1 => run fl_g (Cat (Lit ")") Empty) st1 Some)
    = Some {| prev := Some ")"%char; rest := EmptyString;
              caps := [(3, t); (2, String u us); (1, text)] |}).
  { unfold plus, space.
    rewrite run_Cat, run_Cat, (run_Class fl_g isSpace " "%char _ _ _ _ eq_refl).
    change (String dquote (t +:+ String dquote ")"))
      with (EmptyString +:+ String dquote (t +:+ String dquote ")")).
    apply run_star_class; [reflexivity | reflexivity |].
    cbn [lastOf]. rewrite !append_nil.
    rewrite run_Cat, run_Lit, run_Cat, run_Group.
    apply run_star_class; [unfold dquote; apply negb_false_iff, Ascii.eqb_refl | exact Ht |].
    cbn [prev rest caps].
    rewrite run_Cat, run_Lit.
    change (run fl_g Empty ?st ?k) with (k st). cbv beta.
    rewrite run_Cat, run_Lit.
    change (run fl_g Empty ?st ?k) with (k st). cbv beta.
    f_equal. f_equal.
    change (String u (us +:+ String " " (String dquote (t +:+ String dquote ")"))))
      with (String u us +:+ String " " (String dquote (t +:+ String dquote ")"))).
    rewrite !substring_take. reflexivity. }
  rewrite Hfirst. reflexivity.
Qed.

Lemma without_allChars (c : ascii) (s : string) :
  without c s = allChars (fun a => negb (Ascii.eqb a c)) s.
Proof. induction s as [|a s IH]; [reflexivity |]. cbn [without allChars]. rewrite IH. reflexivity. Qed.

Lemma without_append (c : ascii) (a b : string) :
  without c (a +:+ b) = without c a && without c b.
Proof.
  induction a as [|x a IH]; [reflexivity |].
  rewrite append_cons. cbn [without]. rewrite IH, andb_assoc. reflexivity.
Qed.

Lemma blank_free_one_line (s : string) :
  allChars (fun c => negb (Ascii.eqb c ")"%char || isSpace c)) s = true ->
  without "010"%char s = true.
Proof.
  induction s as [|a s IH]; [reflexivity |].
  cbn [allChars without]. intros Hs. apply andb_true_iff in Hs as [Ha Hs].
  rewrite (IH Hs), andb_true_r.
  destruct (Ascii.eqb_spec a "010"%char) as [-> | _]; [discriminate Ha | reflexivity].
Qed.

Lemma substring_all (s : string) : String.substring 0 (String.length s) s = s.
Proof.
  induction s as [|a s IH]; [reflexivity |].
  cbn [String.length String.substring]. rewrite IH. reflexivity.
Qed.

(** A text that the pattern matches as a whole holds this one match. *)
Lemma matchAll_whole (s : string) (q : option ascii) (cs : list (nat * string)) :
  s <> EmptyString ->
  run fl_g linkRegex {| prev := None; rest := s; caps := [] |} Some
  = Some {| prev := q; rest := EmptyString; caps := cs |} ->
  matchAll fl_g linkRegex s = [{| m_index := 0; m_text := s; m_groups := cs |}].
Proof.
  intros Hne Hrun. unfold matchAll. cbn [matchAllFrom].
  rewrite find_unfold, Hrun. cbn [rest caps prev String.length].
  rewrite Nat.sub_0_r, substring_all. cbn [m_text m_index].
  destruct s as [|a s]; [congruence |].
  cbn [String.length matchAllFrom]. reflexivity.
Qed.

(** X28. Writing a link and reading it back: from the text of
    [createLink], [extractLinks] gets exactly one link, on line 1 from
    column 0 to the end, with the text, the target and the title that
    were written, provided the text holds no closing bracket or line
    break, the target is not empty and holds no blank or closing
    parenthesis, and the title no double quote or line break. An empty
    title is not written. *)
Theorem createLink_roundtrip (linkText target : string) (linkTitle : option string) :
  without "]"%char linkText = true ->
  without "010"%char linkText = true ->
  JsString.truthy target = true ->
  allChars (fun c => negb (Ascii.eqb c ")"%char || isSpace c)) target = true ->
  (forall t, linkTitle = Some t ->
             without dquote t = true /\ without "010"%char t = true) ->
  extractLinks (createLink linkText target linkTitle)
  = [{| text := linkText; url := target;
        title := match linkTitle with
                 | Some t => if JsString.truthy t then Some t else None
                 | None => None
                 end;
        isInternal := internalUrl target;
        lineNumber := 1; startIndex := 0;
        endIndex := String.length (createLink linkText target linkTitle) |}].
Proof.
  intros Hbracket Hline Htarget Hblank Htitle.
  destruct target as [|u us]; [discriminate |].
  rewrite without_allChars in Hbracket.
  pose proof (blank_free_one_line _ Hblank) as Htargetline.
  assert (Hplain :
    extractLinks ("[" +:+ linkText +:+ "](" +:+ String u us +:+ ")")
    = [{| text := linkText; url := String u us; title := None;
          isInternal := internalUrl (String u us);
          lineNumber := 1; startIndex := 0;
          endIndex := String.length ("[" +:+ linkText +:+ "](" +:+ String u us +:+ ")") |}]).
  { unfold extractLinks. rewrite split_without.
    - cbn [linksOfLines]. rewrite List.app_nil_r.
      rewrite (matchAll_whole _ (Some ")"%char) [(2, String u us); (1, linkText)]).
      + reflexivity.
      + rewrite append_cons. discriminate.
      + apply run_link; assumption.
    - rewrite !without_append, Hline, Htargetline. reflexivity. }
  unfold createLink. destruct linkTitle as [t|]; [| exact Hplain].
  destruct (JsString.truthy t) eqn:Ht; [| exact Hplain].
  destruct (Htitle t eq_refl) as [Hquote Htline].
  unfold extractLinks. rewrite split_without.
  - cbn [linksOfLines]. rewrite List.app_nil_r.
    rewrite (matchAll_whole _ (Some ")"%char) [(3, t); (2, String u us); (1, linkText)]).
    + cbn [List.map]. unfold linkOfMatch, group.
      cbn [m_groups List.find fst snd Nat.eqb m_index m_text].
      cbv [fmap option_fmap option_map default from_option id snd].
      rewrite Ht. reflexivity.
    + rewrite append_cons. discriminate.
    + apply run_link_titled; try assumption. rewrite <- without_allChars. exact Hquote.
  - rewrite !without_append, Hline, Htargetline. cbn [without].
    rewrite Htline. reflexivity.
Qed.

End LinkRoundTrip.

(** A link with a title, written and read back. *)
Lemma createLink_roundtrip_witness :
  List.map Markdown.url
    (Markdown.extractLinks
       (MarkdownWriter.createLink "API reference" "../api/ref.md" (Some "the API")))
  = ["../api/ref.md"].
Proof.
  rewrite (createLink_roundtrip "API reference" "../api/ref.md" (Some "the API")).
  - reflexivity.
  - reflexivity.
  - reflexivity.
  - reflexivity.
  - reflexivity.
  - intros t [= <-]. split; reflexivity.
Defined.
